(** * DHD External Control Protocol (ECP) client: a shallow embedding

    The development follows [custom_components/dhd_audio/ecp.py]:

    - the frame codec ([_build_block], [_parse_block]) as pure functions on
      byte strings that either return a value or raise;
    - the client object as a record, with the futures it creates kept in a
      store of their own, since the dictionary [_pending], the listener and
      the coroutine awaiting a reply all hold the same future object;
    - coroutines cut at their [await] points: what runs between two
      suspension points is one function on the client state, and what the
      outside world answers at a suspension point (bytes read, a failed
      connect, an expired timer) is an argument of the next one. *)

From Stdlib Require Import ZArith List Bool Lia.
From Stdlib Require Import Strings.Byte.
From stdpp Require Import base list relations sorting gmap strings.

Import ListNotations.
Local Open Scope Z_scope.

(** ** Byte strings and integers *)

Abbreviation bytes := (list byte).

Definition Z_of_byte (b : byte) : Z := Z.of_N (Byte.to_N b).

Definition byte_of_Z (z : Z) : byte :=
  match Byte.of_N (Z.to_N (z mod 256)) with
  | Some b => b
  | None => x00
  end.

(** [int.from_bytes(bs, "big")] *)
Definition int_from_bytes_big (bs : bytes) : Z :=
  fold_left (fun acc b => acc * 256 + Z_of_byte b) bs 0.

(** The digits of [n.to_bytes(len, "big")], most significant first. *)
Fixpoint be_digits (len : nat) (n : Z) : bytes :=
  match len with
  | O => []
  | S k => be_digits k (n / 256) ++ [byte_of_Z (n mod 256)]
  end.

(** [data.ljust(width, b"\x00")]: pads on the right, never truncates. *)
Definition ljust (width : nat) (data : bytes) : bytes :=
  data ++ repeat x00 (width - length data)%nat.

(** Python slice [b[i:j]] for [0 <= i <= j]. *)
Definition slice (i j : nat) (b : bytes) : bytes :=
  take (j - i)%nat (drop i b).

(** ** Exceptions

    One constructor per exception the client raises or handles, the message
    kept as the constructor's arguments.  The names of the specification map
    onto them as follows: InvalidPayload is [ValueError_data_too_long],
    MalformedFrame is [DHDProtocolError_block_size], ProtocolError is
    [DHDProtocolError_response_length], Timeout is
    [DHDProtocolError_timeout], ConnectionFailed is
    [DHDConnectionError_failed_to_connect], Disconnected / ConnectionLost is
    [DHDConnectionError_disconnected]. *)

Inductive exn : Type :=
  | ValueError_data_too_long (got : nat)
      (* "ECP data must be <= 8 bytes, got {len(data)}" *)
  | OverflowError
      (* int.to_bytes: "int too big to convert" / negative int *)
  | DHDProtocolError_block_size (got : nat)
      (* "Expected 16-byte block, got {len(block)}" *)
  | DHDProtocolError_timeout (command_id : Z)
      (* "Timeout waiting for response to 0x{command_id:08X}" *)
  | DHDProtocolError_response_length (got : nat)
      (* "Unexpected response length {len(resp_data)} for logic query" *)
  | DHDConnectionError_failed_to_connect
      (* "Failed to connect to {host}:{port}" *)
  | DHDConnectionError_disconnected
      (* "Disconnected" *)
  | AssertionError
  | InvalidStateError
  | IncompleteReadError
  | OSError
  | TimeoutError
  | CancelledError
  | OtherException (tag : nat)
      (* any other subclass of Exception *)
  | OtherBaseException (tag : nat)
      (* KeyboardInterrupt, SystemExit, ...: BaseException but not Exception *).

(** [isinstance(e, Exception)]: what a clause [except Exception] catches.
    [asyncio.CancelledError] derives from [BaseException] only. *)
Definition is_Exception (e : exn) : bool :=
  match e with
  | CancelledError | OtherBaseException _ => false
  | _ => true
  end.

(** A call either returns or raises. *)
Inductive result (A : Type) : Type :=
  | Return (a : A)
  | Raise (e : exn).
Arguments Return {A} a.
Arguments Raise {A} e.

#[global] Instance result_ret : MRet result := @Return.
#[global] Instance result_bind : MBind result := fun A B k m =>
  match m with
  | Return a => k a
  | Raise e => Raise e
  end.

(** [n.to_bytes(len, "big")]: raises [OverflowError] unless
    [0 <= n < 256 ^ len]. *)
Definition int_to_bytes_big (len : nat) (n : Z) : result bytes :=
  if (0 <=? n) && (n <? 256 ^ Z.of_nat len)
  then Return (be_digits len n)
  else Raise OverflowError.

(** ** Constants ([const.py]) *)

Definition ECP_BLOCK_SIZE : nat := 16.
Definition ECP_CMD_SET_LOGIC : Z := 0x110E0000.

(** ** Frame codec *)

(** [DHDClient._build_block], with [struct.pack(">BB4s8sBB", ...)] written
    out: one byte, one byte, four bytes, eight bytes, one byte, one byte. *)
Definition _build_block (command_id : Z) (data : bytes) : result bytes :=
  if (8 <? length data)%nat
  then Raise (ValueError_data_too_long (length data))
  else
    let padded_data := ljust 8 data in
    cmd4 ← int_to_bytes_big 4 command_id;
    Return ([byte_of_Z (Z.of_nat (length data)); x00]
              ++ cmd4 ++ padded_data ++ [x00; x00]).

(** [DHDClient._parse_block]; [block[0]] exists since the block has 16
    bytes when the indexing is reached. *)
Definition _parse_block (block : bytes) : result (nat * Z * bytes) :=
  if negb (length block =? ECP_BLOCK_SIZE)%nat
  then Raise (DHDProtocolError_block_size (length block))
  else
    let length_ := Z.to_nat (Z_of_byte (nth 0 block x00)) in
    let command_id := int_from_bytes_big (slice 2 6 block) in
    let data := slice 6 (6 + length_) block in
    Return (length_, command_id, data).

(** ** Futures, tasks, streams and the log *)

(** An [asyncio.Future] created by [send_command]: the match criteria the
    source attaches to it as [_dhd_match], and its completion slot. *)
Inductive fut_state : Type :=
  | FPending
  | FResult (r : Z * bytes)
  | FException (e : exn)
  | FCancelled.

Record Future : Type := mkFuture {
  _dhd_match : Z * option Z;
  fstate : fut_state;
}.

Definition done (fut : Future) : bool :=
  match fstate fut with
  | FPending => false
  | _ => true
  end.

Definition set_result (r : Z * bytes) (fut : Future) : result Future :=
  if done fut then Raise InvalidStateError
  else Return (mkFuture (_dhd_match fut) (FResult r)).

Definition set_exception (e : exn) (fut : Future) : result Future :=
  if done fut then Raise InvalidStateError
  else Return (mkFuture (_dhd_match fut) (FException e)).

(** [fut.cancel()]: no effect on a future that is done. *)
Definition cancel (fut : Future) : Future :=
  if done fut then fut else mkFuture (_dhd_match fut) FCancelled.

Inductive task_state : Type :=
  | TaskRunning
  | TaskCancelRequested
  | TaskDone.

Definition task_done (t : task_state) : bool :=
  match t with
  | TaskDone => true
  | _ => false
  end.

Record StreamReader : Type := mkReader { reader_fd : nat }.

Record StreamWriter : Type := mkWriter {
  is_closing : bool;
  written : list bytes;
}.

Inductive log_entry : Type :=
  | Debug_connected
  | Debug_disconnected
  | Warning_connection_lost
  | Debug_rx (cmd : Z) (data : bytes)
  | Debug_push (logic_id : Z) (state : bool)
  | Exception_logic_callback (e : exn)
  | Exception_listener_crashed (e : exn)
  | Debug_tx (cmd : Z) (data : bytes).

(** ** The client object and the world around it *)

(** The fields [DHDClient.__init__] sets, but for [_host], [_port] and
    [_lock], which no step below reads: the steps of [send_command] are
    those it runs while holding the lock.  [_pending] is the dictionary in
    insertion order, from request identifier to the address of the future
    in the store.  A callback is what it answers when called: [None] when
    it returns, [Some e] when it raises [e]. *)
Record DHDClient : Type := mkClient {
  _reader : option StreamReader;
  _writer : option StreamWriter;
  _listener_task : option nat;
  _pending : list (Z * nat);
  _pending_id : Z;
  _logic_callback : option (Z -> bool -> option exn);
}.

(** The client, the objects of the event loop it refers to by address
    (futures, tasks), the records of the logger and the calls made to the
    callback. *)
Record World : Type := mkWorld {
  client : DHDClient;
  futures : list Future;
  tasks : list task_state;
  log : list log_entry;
  calls : list (Z * bool);
}.

Definition DHDClient_init : DHDClient :=
  mkClient None None None [] 0 None.

Definition with_client (c : DHDClient) (w : World) : World :=
  mkWorld c (futures w) (tasks w) (log w) (calls w).
Definition with_futures (fs : list Future) (w : World) : World :=
  mkWorld (client w) fs (tasks w) (log w) (calls w).
Definition with_tasks (ts : list task_state) (w : World) : World :=
  mkWorld (client w) (futures w) ts (log w) (calls w).
Definition logging (e : log_entry) (w : World) : World :=
  mkWorld (client w) (futures w) (tasks w) (log w ++ [e]) (calls w).
Definition calling (logic_id : Z) (state : bool) (w : World) : World :=
  mkWorld (client w) (futures w) (tasks w) (log w) (calls w ++ [(logic_id, state)]).

Definition set_reader (r : option StreamReader) (c : DHDClient) : DHDClient :=
  mkClient r (_writer c) (_listener_task c) (_pending c) (_pending_id c)
    (_logic_callback c).
Definition set_writer (wr : option StreamWriter) (c : DHDClient) : DHDClient :=
  mkClient (_reader c) wr (_listener_task c) (_pending c) (_pending_id c)
    (_logic_callback c).
Definition set_listener_task (t : option nat) (c : DHDClient) : DHDClient :=
  mkClient (_reader c) (_writer c) t (_pending c) (_pending_id c)
    (_logic_callback c).
Definition set_pending (p : list (Z * nat)) (c : DHDClient) : DHDClient :=
  mkClient (_reader c) (_writer c) (_listener_task c) p (_pending_id c)
    (_logic_callback c).
Definition set_pending_id (n : Z) (c : DHDClient) : DHDClient :=
  mkClient (_reader c) (_writer c) (_listener_task c) (_pending c) n
    (_logic_callback c).

(** [DHDClient.set_logic_callback] *)
Definition set_logic_callback (cb : option (Z -> bool -> option exn))
    (c : DHDClient) : DHDClient :=
  mkClient (_reader c) (_writer c) (_listener_task c) (_pending c)
    (_pending_id c) cb.

(** Dictionary operations on [_pending]: [d[k] = v] keeps the place of a key
    that is there and appends a new one; [d.pop(k, None)]. *)
Fixpoint dict_set (k : Z) (v : nat) (d : list (Z * nat)) : list (Z * nat) :=
  match d with
  | [] => [(k, v)]
  | (k', v') :: rest =>
      if k' =? k then (k, v) :: rest else (k', v') :: dict_set k v rest
  end.

Definition dict_pop (k : Z) (d : list (Z * nat)) : list (Z * nat) :=
  filter (fun kv => kv.1 ≠ k) d.

(** ** Connection management *)

(** The property [DHDClient.connected]. *)
Definition connected (c : DHDClient) : bool :=
  match _writer c with
  | Some wr => negb (is_closing wr)
  | None => false
  end.

(** [DHDClient._start_listener]: [asyncio.ensure_future] adds a task to the
    event loop. *)
Definition _start_listener (w : World) : World :=
  let spawn :=
    with_client (set_listener_task (Some (length (tasks w))) (client w))
      (with_tasks (tasks w ++ [TaskRunning]) w) in
  match _listener_task (client w) with
  | Some t =>
      match tasks w !! t with
      | Some ts => if negb (task_done ts) then w else spawn
      | None => spawn
      end
  | None => spawn
  end.

(** What [except (OSError, asyncio.TimeoutError)] catches. *)
Definition is_OSError_or_TimeoutError (e : exn) : bool :=
  match e with
  | OSError | TimeoutError => true
  | _ => false
  end.

(** [DHDClient.connect].  [opened] is what
    [asyncio.wait_for(asyncio.open_connection(...), CONNECT_TIMEOUT)]
    answers; it is awaited only when the client is not connected. *)
Definition connect (opened : result (StreamReader * StreamWriter))
    (w : World) : result unit * World :=
  if connected (client w) then (Return tt, w)
  else
    match opened with
    | Return (r, wr) =>
        let w1 :=
          with_client (set_writer (Some wr) (set_reader (Some r) (client w))) w in
        (Return tt, _start_listener (logging Debug_connected w1))
    | Raise err =>
        if is_OSError_or_TimeoutError err
        then
          (Raise DHDConnectionError_failed_to_connect,
           with_client (set_writer None (set_reader None (client w))) w)
        else (Raise err, w)
    end.

(** [DHDClient._ensure_connected] *)
Definition _ensure_connected (opened : result (StreamReader * StreamWriter))
    (w : World) : result unit * World :=
  if negb (connected (client w)) then connect opened w else (Return tt, w).

(** The loop of [_stop_listener] over [self._pending.values()]. *)
Fixpoint fail_pending (vals : list nat) (fs : list Future) : result (list Future) :=
  match vals with
  | [] => Return fs
  | a :: rest =>
      match fs !! a with
      | Some fut =>
          if negb (done fut)
          then
            fut' ← set_exception DHDConnectionError_disconnected fut;
            fail_pending rest (<[a := fut']> fs)
          else fail_pending rest fs
      | None => fail_pending rest fs
      end
  end.

(** [task.cancel()]: a request, served at the task's next suspension. *)
Definition cancel_task (t : nat) (ts : list task_state) : list task_state :=
  match ts !! t with
  | Some TaskRunning => <[t := TaskCancelRequested]> ts
  | _ => ts
  end.

(** [DHDClient._stop_listener] *)
Definition _stop_listener (w : World) : result unit * World :=
  let w1 :=
    match _listener_task (client w) with
    | Some t =>
        with_client (set_listener_task None (client w))
          (with_tasks (cancel_task t (tasks w)) w)
    | None => w
    end in
  match fail_pending (map snd (_pending (client w1))) (futures w1) with
  | Return fs =>
      let w2 := with_futures fs w1 in
      (Return tt, with_client (set_pending [] (client w2)) w2)
  | Raise e => (Raise e, w1)
  end.

(** [StreamWriter.close()]: the writer is closing from then on. *)
Definition writer_close (wr : StreamWriter) : StreamWriter :=
  mkWriter true (written wr).

(** [DHDClient.disconnect], with its suspension.  The coroutine runs
    [_stop_listener] and, when there is a writer, closes it and suspends in
    [await self._writer.wait_closed()]; [meanwhile] is what the other tasks
    of the event loop do until it is resumed, and [closed] what the wait
    answers: [None], or the exception raised.  [except OSError] catches
    [TimeoutError] as well, which derives from it; the [finally] clause
    runs in every case. *)
Definition disconnect_awaiting (closed : option exn)
    (meanwhile : World -> World) (w : World) : result unit * World :=
  match _stop_listener w with
  | (Raise e, w1) => (Raise e, w1)
  | (Return _, w1) =>
      match _writer (client w1) with
      | Some wr =>
          let w2 :=
            with_client (set_writer (Some (writer_close wr)) (client w1)) w1 in
          let w3 := meanwhile w2 in
          let w4 :=
            logging Debug_disconnected
              (with_client (set_reader None (set_writer None (client w3))) w3) in
          match closed with
          | None => (Return tt, w4)
          | Some e =>
              if is_OSError_or_TimeoutError e
              then (Return tt, w4)
              else (Raise e, w4)
          end
      | None => (Return tt, w1)
      end
  end.

(** [DHDClient.disconnect] in a run where no other task runs while it
    waits for the writer to close. *)
Definition disconnect (closed : option exn) (w : World) : result unit * World :=
  disconnect_awaiting closed (fun w1 => w1) w.

(** ** The background listener *)

(** The delivery loop of [_listener_loop], over the snapshot
    [list(self._pending.items())]: the updated store of futures and the
    flag [delivered].  The dictionary holds the futures themselves, so an
    address outside the store stands for no object; the loop passes it. *)
Fixpoint deliver (cmd : Z) (data : bytes) (items : list (Z * nat))
    (fs : list Future) : result (list Future * bool) :=
  match items with
  | [] => Return (fs, false)
  | (pid, a) :: rest =>
      match fs !! a with
      | None => deliver cmd data rest fs
      | Some fut =>
          if done fut then deliver cmd data rest fs
          else
            let '(expected_cmd, expected_logic) := _dhd_match fut in
            if negb (cmd =? expected_cmd) then deliver cmd data rest fs
            else
              let skip :=
                match expected_logic with
                | Some expected =>
                    if (2 <=? length data)%nat
                    then
                      let resp_logic := int_from_bytes_big (slice 0 2 data) in
                      negb (resp_logic =? expected)
                    else false
                | None => false
                end in
              if skip then deliver cmd data rest fs
              else
                fut' ← set_result (cmd, data) fut;
                Return (<[a := fut']> fs, true)
      end
  end.

(** The push branch of [_listener_loop]: taken when nothing was delivered,
    the command is the logic command and the data has three bytes or more.
    A callback that raises an [Exception] is logged; anything else it raises
    leaves the branch. *)
Definition push (delivered : bool) (cmd : Z) (data : bytes) (w : World)
    : result unit * World :=
  if negb delivered && (cmd =? ECP_CMD_SET_LOGIC) && (3 <=? length data)%nat
  then
    let logic_id := int_from_bytes_big (slice 0 2 data) in
    let state := negb (Z_of_byte (nth 2 data x00) =? 0) in
    let w1 := logging (Debug_push logic_id state) w in
    match _logic_callback (client w1) with
    | Some callback =>
        let w2 := calling logic_id state w1 in
        match callback logic_id state with
        | None => (Return tt, w2)
        | Some e =>
            if is_Exception e
            then (Return tt, logging (Exception_logic_callback e) w2)
            else (Raise e, w2)
        end
    | None => (Return tt, w1)
    end
  else (Return tt, w).

Inductive loop_ctl : Type :=
  | Continue
  | Break.

(** One turn of the [while True] of [_listener_loop].  [raw] is what
    [await self._reader.readexactly(ECP_BLOCK_SIZE)] answers. *)
Definition listener_body (raw : result bytes) (w : World)
    : result loop_ctl * World :=
  match raw with
  | Raise IncompleteReadError => (Return Break, logging Warning_connection_lost w)
  | Raise e => (Raise e, w)
  | Return raw =>
      match _parse_block raw with
      | Raise e => (Raise e, w)
      | Return (_, cmd, data) =>
          let w1 := logging (Debug_rx cmd data) w in
          match deliver cmd data (_pending (client w1)) (futures w1) with
          | Raise e => (Raise e, w1)
          | Return (fs, delivered) =>
              match push delivered cmd data (with_futures fs w1) with
              | (Return _, w2) => (Return Continue, w2)
              | (Raise e, w2) => (Raise e, w2)
              end
          end
      end
  end.

(** How a run of the listener coroutine stands after the reads it was
    given: suspended in [readexactly], returned, or left by an exception. *)
Inductive coroutine_status : Type :=
  | Suspended
  | Returned
  | Propagated (e : exn).

(** The [try] around the loop: [CancelledError] returns, any other
    [Exception] is logged as a crash and the coroutine ends, the rest
    propagates. *)
Fixpoint listener_while (reads : list (result bytes)) (w : World)
    : coroutine_status * World :=
  match reads with
  | [] => (Suspended, w)
  | raw :: rest =>
      match listener_body raw w with
      | (Return Continue, w1) => listener_while rest w1
      | (Return Break, w1) => (Returned, w1)
      | (Raise e, w1) =>
          match e with
          | CancelledError => (Returned, w1)
          | _ =>
              if is_Exception e
              then (Returned, logging (Exception_listener_crashed e) w1)
              else (Propagated e, w1)
          end
      end
  end.

Definition finish_task (t : nat) (w : World) : World :=
  with_tasks (<[t := TaskDone]> (tasks w)) w.

(** [DHDClient._listener_loop], run as task [t] of the event loop over the
    answers [reads] of the reader. *)
Definition _listener_loop (t : nat) (reads : list (result bytes)) (w : World)
    : coroutine_status * World :=
  match _reader (client w) with
  | None => (Propagated AssertionError, finish_task t w)
  | Some _ =>
      match listener_while reads w with
      | (Suspended, w1) => (Suspended, w1)
      | (st, w1) => (st, finish_task t w1)
      end
  end.

(** ** Send and receive *)

(** [send_command] from the acquisition of the lock to the suspension in
    [asyncio.wait_for]: the identifier and the future of the request.
    [opened] is the answer to the connection attempt of
    [_ensure_connected], [drained] the answer of [await writer.drain()]. *)
Definition send_command_begin (command_id : Z) (data : bytes)
    (logic_id : option Z) (opened : result (StreamReader * StreamWriter))
    (drained : option exn) (w : World) : result (Z * nat) * World :=
  match _ensure_connected opened w with
  | (Raise e, w1) => (Raise e, w1)
  | (Return _, w1) =>
      match _writer (client w1) with
      | None => (Raise AssertionError, w1)
      | Some wr =>
          let pid := _pending_id (client w1) + 1 in
          let a := length (futures w1) in
          let fut := mkFuture (command_id, logic_id) FPending in
          let w2 :=
            with_client
              (set_pending (dict_set pid a (_pending (client w1)))
                 (set_pending_id pid (client w1)))
              (with_futures (futures w1 ++ [fut]) w1) in
          match _build_block command_id data with
          | Raise e => (Raise e, w2)
          | Return block =>
              let w3 := logging (Debug_tx command_id data) w2 in
              let w4 :=
                with_client
                  (set_writer
                     (Some (mkWriter (is_closing wr) (written wr ++ [block])))
                     (client w3)) w3 in
              match drained with
              | Some e => (Raise e, w4)
              | None => (Return (pid, a), w4)
              end
          end
      end
  end.

(** [asyncio.wait_for(fut, timeout=READ_TIMEOUT)] at the moment it resumes
    the caller: with the outcome of the future when it is done, and
    otherwise because the timer expired, which cancels the future.  The
    address is the one [send_command_begin] returned, which is in the store;
    the last case is there to make the function total. *)
Definition wait_for (a : nat) (fs : list Future)
    : result (Z * bytes) * list Future :=
  match fs !! a with
  | Some fut =>
      match fstate fut with
      | FResult r => (Return r, fs)
      | FException e => (Raise e, fs)
      | FCancelled => (Raise CancelledError, fs)
      | FPending => (Raise TimeoutError, <[a := cancel fut]> fs)
      end
  | None => (Raise InvalidStateError, fs)
  end.

(** The [try ... except asyncio.TimeoutError ... finally] that ends
    [send_command]. *)
Definition send_command_finish (command_id : Z) (pid : Z) (a : nat)
    (w : World) : result (Z * bytes) * World :=
  let '(r, fs) := wait_for a (futures w) in
  let r' :=
    match r with
    | Raise TimeoutError => Raise (DHDProtocolError_timeout command_id)
    | _ => r
    end in
  let w1 := with_futures fs w in
  (r', with_client (set_pending (dict_pop pid (_pending (client w1))) (client w1)) w1).

(** [DHDClient.send_command].  [meanwhile] is what the other tasks (the
    listener, other callers) do to the world while this one is suspended in
    [wait_for]. *)
Definition send_command (command_id : Z) (data : bytes) (logic_id : option Z)
    (opened : result (StreamReader * StreamWriter)) (drained : option exn)
    (meanwhile : World -> World) (w : World) : result (Z * bytes) * World :=
  match send_command_begin command_id data logic_id opened drained w with
  | (Raise e, w1) => (Raise e, w1)
  | (Return (pid, a), w1) => send_command_finish command_id pid a (meanwhile w1)
  end.

(** ** Logic helpers *)

(** [DHDClient.get_logic_state] *)
Definition get_logic_state (logic_id : Z)
    (opened : result (StreamReader * StreamWriter)) (drained : option exn)
    (meanwhile : World -> World) (w : World) : result bool * World :=
  match int_to_bytes_big 2 logic_id with
  | Raise e => (Raise e, w)
  | Return data =>
      match send_command ECP_CMD_SET_LOGIC data (Some logic_id)
              opened drained meanwhile w with
      | (Raise e, w1) => (Raise e, w1)
      | (Return (_, resp_data), w1) =>
          if (length resp_data <? 3)%nat
          then (Raise (DHDProtocolError_response_length (length resp_data)), w1)
          else (Return (negb (Z_of_byte (nth 2 resp_data x00) =? 0)), w1)
      end
  end.

(** [DHDClient.set_logic_state] *)
Definition set_logic_state (logic_id : Z) (state : bool)
    (opened : result (StreamReader * StreamWriter)) (drained : option exn)
    (meanwhile : World -> World) (w : World) : result unit * World :=
  match int_to_bytes_big 2 logic_id with
  | Raise e => (Raise e, w)
  | Return id2 =>
      let data := id2 ++ (if state then [x01] else [x00]) in
      match send_command ECP_CMD_SET_LOGIC data (Some logic_id)
              opened drained meanwhile w with
      | (Raise e, w1) => (Raise e, w1)
      | (Return _, w1) => (Return tt, w1)
      end
  end.

(** ** Matching a frame against a request *)

(** The test the delivery loop applies to one future, its three [continue]
    read as one condition: the future is not done, the commands agree, and
    a logic identifier is compared only when one is expected and the data
    has two bytes or more. *)
Definition answers (cmd : Z) (data : bytes) (fut : Future) : bool :=
  negb (done fut)
  && (cmd =? (_dhd_match fut).1)
  && match (_dhd_match fut).2 with
     | None => true
     | Some expected =>
         (length data <? 2)%nat
         || (int_from_bytes_big (slice 0 2 data) =? expected)
     end.

(** The match as the specification words it: equal commands, and a
    secondary key that is absent or equal to the big-endian uint16 of the
    first two bytes of a payload that has at least two. *)
Definition spec_matches (cmd : Z) (data : bytes) (fut : Future) : bool :=
  (cmd =? (_dhd_match fut).1)
  && match (_dhd_match fut).2 with
     | None => true
     | Some key =>
         (2 <=? length data)%nat
         && (int_from_bytes_big (slice 0 2 data) =? key)
     end.

(** The future a delivery leaves behind. *)
Definition completed (cmd : Z) (data : bytes) (fut : Future) : Future :=
  mkFuture (_dhd_match fut) (FResult (cmd, data)).

(** No request in the dictionary answers the frame. *)
Definition unsolicited (cmd : Z) (data : bytes) (items : list (Z * nat))
    (fs : list Future) : Prop :=
  forall pid a fut,
    (pid, a) ∈ items -> fs !! a = Some fut -> answers cmd data fut = false.

(** Whatever the registered callback raises is an [Exception]. *)
Definition callback_raises_Exception_only (w : World) : Prop :=
  forall callback logic_id state e,
    _logic_callback (client w) = Some callback ->
    callback logic_id state = Some e -> is_Exception e = true.

(** ** Sample worlds and frames *)

(** A connected client whose listener runs as task 0, with one request in
    flight: a query of logic 0x0042, registered under identifier 1. *)
Definition request_0x42 : Future :=
  mkFuture (ECP_CMD_SET_LOGIC, Some 0x42) FPending.

Definition client_one_request : DHDClient :=
  mkClient (Some (mkReader 0)) (Some (mkWriter false [])) (Some 0%nat)
    [(1, 0%nat)] 1 None.

Definition world_one_request : World :=
  mkWorld client_one_request [request_0x42] [TaskRunning] [] [].

(** The same client with nothing in flight and a callback that raises. *)
Definition world_raising_callback : World :=
  mkWorld
    (mkClient (Some (mkReader 0)) (Some (mkWriter false [])) (Some 0%nat)
       [] 0 (Some (fun _ _ => Some (OtherException 0))))
    [] [TaskRunning] [] [].

(** Logic command, one byte of data: 0x00. *)
Definition frame_one_byte : bytes :=
  [x01; x00; x11; x0e; x00; x00; x00; x00; x00; x00; x00; x00; x00; x00; x00;
   x00].

(** Logic command, data 0x00 0x42 0x01: logic 0x0042 is active. *)
Definition frame_0x42_active : bytes :=
  [x03; x00; x11; x0e; x00; x00; x00; x42; x01; x00; x00; x00; x00; x00; x00;
   x00].

(** A connected client with nothing in flight and no callback. *)
Definition world_idle : World :=
  mkWorld
    (mkClient (Some (mkReader 0)) (Some (mkWriter false [])) (Some 0%nat)
       [] 0 None)
    [] [TaskRunning] [] [].

(** A client as [DHDClient(host, port)] leaves it, in an event loop with no
    task. *)
Definition world_init : World := mkWorld DHDClient_init [] [] [] [].

(** ** Further operations of the client *)

(** [DHDClient.test_connection] *)
Definition test_connection (opened : result (StreamReader * StreamWriter))
    (w : World) : result bool * World :=
  match _ensure_connected opened w with
  | (Return _, w1) => (Return true, w1)
  | (Raise e, w1) => (Raise e, w1)
  end.

(** ** Notions used to state properties of the client *)

(** What the loop of [_stop_listener] makes of a future. *)
Definition failed_by_disconnect (fut : Future) : Future :=
  if done fut then fut
  else mkFuture (_dhd_match fut) (FException DHDConnectionError_disconnected).

(** The shape of the dictionary [_pending]: identifiers grow along the
    dictionary and none exceeds the counter [_pending_id]; every entry
    refers to a future of the store, and no two to the same one. *)
Definition pending_wf (w : World) : Prop :=
  StronglySorted Z.lt (_pending (client w)).*1 /\
  Forall (fun pid => pid <= _pending_id (client w)) (_pending (client w)).*1 /\
  Forall (fun a => (a < length (futures w))%nat) (_pending (client w)).*2 /\
  NoDup (_pending (client w)).*2.

(** The transport starts closing: [writer.is_closing()] turns true. *)
Definition transport_closing (w : World) : World :=
  match _writer (client w) with
  | Some wr =>
      with_client (set_writer (Some (mkWriter true (written wr))) (client w)) w
  | None => w
  end.

(** One step of the system: a method of the client run up to its next
    suspension, a turn or a whole run of the listener, or the transport
    starting to close. *)
Inductive client_step (w : World) : World -> Prop :=
  | step_set_logic_callback cb :
      client_step w (with_client (set_logic_callback cb (client w)) w)
  | step_connect opened :
      client_step w (connect opened w).2
  | step_disconnect closed :
      client_step w (disconnect closed w).2
  | step_test_connection opened :
      client_step w (test_connection opened w).2
  | step_listener_body raw :
      client_step w (listener_body raw w).2
  | step_listener_loop t reads :
      client_step w (_listener_loop t reads w).2
  | step_send_command_begin command_id data logic_id opened drained :
      client_step w
        (send_command_begin command_id data logic_id opened drained w).2
  | step_send_command_finish command_id pid a :
      client_step w (send_command_finish command_id pid a w).2
  | step_transport_closing :
      client_step w (transport_closing w).

(** A read that gives a block of 16 bytes. *)
Definition is_block (raw : result bytes) : Prop :=
  exists block, raw = Return block /\ length block = 16%nat.

(** ** The configured logics ([const.py], [config_flow.py]) *)

Definition LOGIC_TYPE_SENSOR : string := "sensor".
Definition LOGIC_TYPE_SWITCH : string := "switch".
Definition CONF_LOGIC_ID : string := "logic_id".

(** One element of the list stored under [CONF_LOGICS]: the dict with the
    keys [CONF_LOGIC_ID], [CONF_LOGIC_NAME] and [CONF_LOGIC_TYPE] that the
    config flow writes, the identifier being the [int] its schema
    requires. *)
Record Logic : Type := mkLogic {
  l_logic_id : Z;
  l_name : string;
  l_entity_type : string;
}.

(** What the integration reads of a config entry: the list under
    [CONF_LOGICS] in [entry.options] and in [entry.data], when the key is
    there. *)
Record ConfigEntry : Type := mkConfigEntry {
  options_logics : option (list Logic);
  data_logics : option (list Logic);
}.

(** [entry.options.get(CONF_LOGICS, entry.data.get(CONF_LOGICS, []))] *)
Definition configured_logics (entry : ConfigEntry) : list Logic :=
  match options_logics entry with
  | Some logics => logics
  | None =>
      match data_logics entry with
      | Some logics => logics
      | None => []
      end
  end.

(** [any(int(l[CONF_LOGIC_ID]) == logic_id for l in logics)] *)
Definition id_configured (logic_id : Z) (logics : list Logic) : bool :=
  existsb (fun l => l_logic_id l =? logic_id) logics.

(** ** The options flow ([config_flow.py]) *)

Record DHDOptionsFlow : Type := mkOptionsFlow {
  _logics : list Logic;
  _edit_index : option nat;
}.

(** [DHDOptionsFlow.__init__] *)
Definition DHDOptionsFlow_init (entry : ConfigEntry) : DHDOptionsFlow :=
  mkOptionsFlow (configured_logics entry) None.

(** What a step of the flow answers: a form, by its step identifier and
    what the step puts in it, or the entry that saves the options. *)
Inductive ConfigFlowResult : Type :=
  | Form_init (actions : list string) (count : nat)
  | Form_add_logic (errors : list (string * string))
  | Form_edit_logic (choices : list Logic)
  | Form_edit_logic_detail (current : Logic) (errors : list (string * string))
  | Form_remove_logic (choices : list Logic)
  | CreateEntry_logics (logics : list Logic).

(** A step returns a result or raises: the assertion on [_edit_index], or
    the [IndexError] of [self._logics[self._edit_index]]. *)
Inductive flow_outcome : Type :=
  | FlowResult (r : ConfigFlowResult)
  | FlowAssertionError
  | FlowIndexError.

(** [async_step_init] without input: the menu. *)
Definition show_menu (flow : DHDOptionsFlow) : flow_outcome * DHDOptionsFlow :=
  let actions :=
    ["add_logic"%string]
      ++ (match _logics flow with
          | [] => []
          | _ => ["edit_logic"%string; "remove_logic"%string]
          end)
      ++ ["done"%string] in
  (FlowResult (Form_init actions (length (_logics flow))), flow).

(** [async_step_add_logic] *)
Definition async_step_add_logic (user_input : option Logic)
    (flow : DHDOptionsFlow) : flow_outcome * DHDOptionsFlow :=
  match user_input with
  | Some input =>
      if id_configured (l_logic_id input) (_logics flow)
      then
        (FlowResult
           (Form_add_logic [(CONF_LOGIC_ID, "logic_already_configured"%string)]),
         flow)
      else
        show_menu (mkOptionsFlow (_logics flow ++ [input]) (_edit_index flow))
  | None => (FlowResult (Form_add_logic []), flow)
  end.

(** The [for idx, logic in enumerate(self._logics)] of
    [async_step_edit_logic]: the first index whose logic has the
    identifier. *)
Fixpoint find_logic (edit_id : Z) (idx : nat) (logics : list Logic) : option nat :=
  match logics with
  | [] => None
  | logic :: rest =>
      if l_logic_id logic =? edit_id then Some idx
      else find_logic edit_id (S idx) rest
  end.

(** [async_step_edit_logic_detail] *)
Definition async_step_edit_logic_detail (user_input : option Logic)
    (flow : DHDOptionsFlow) : flow_outcome * DHDOptionsFlow :=
  match _edit_index flow with
  | None => (FlowAssertionError, flow)
  | Some idx =>
      match _logics flow !! idx with
      | None => (FlowIndexError, flow)
      | Some current =>
          match user_input with
          | Some input =>
              if negb (l_logic_id input =? l_logic_id current)
                 && id_configured (l_logic_id input) (_logics flow)
              then
                (FlowResult
                   (Form_edit_logic_detail current
                      [(CONF_LOGIC_ID, "logic_already_configured"%string)]),
                 flow)
              else
                show_menu (mkOptionsFlow (<[idx := input]> (_logics flow)) None)
          | None => (FlowResult (Form_edit_logic_detail current []), flow)
          end
      end
  end.

(** [async_step_edit_logic] *)
Definition async_step_edit_logic (user_input : option Z)
    (flow : DHDOptionsFlow) : flow_outcome * DHDOptionsFlow :=
  match user_input with
  | Some edit_id =>
      match find_logic edit_id 0 (_logics flow) with
      | Some idx =>
          async_step_edit_logic_detail None
            (mkOptionsFlow (_logics flow) (Some idx))
      | None => show_menu flow
      end
  | None => (FlowResult (Form_edit_logic (_logics flow)), flow)
  end.

(** [async_step_remove_logic] *)
Definition async_step_remove_logic (user_input : option Z)
    (flow : DHDOptionsFlow) : flow_outcome * DHDOptionsFlow :=
  match user_input with
  | Some remove_id =>
      show_menu
        (mkOptionsFlow
           (filter (fun l => l_logic_id l <> remove_id) (_logics flow))
           (_edit_index flow))
  | None => (FlowResult (Form_remove_logic (_logics flow)), flow)
  end.

(** [async_step_done] *)
Definition async_step_done (flow : DHDOptionsFlow)
    : flow_outcome * DHDOptionsFlow :=
  (FlowResult (CreateEntry_logics (_logics flow)), flow).

(** [async_step_init] *)
Definition async_step_init (user_input : option string)
    (flow : DHDOptionsFlow) : flow_outcome * DHDOptionsFlow :=
  match user_input with
  | Some action =>
      if String.eqb action "add_logic" then async_step_add_logic None flow
      else if String.eqb action "edit_logic" then async_step_edit_logic None flow
      else if String.eqb action "remove_logic"
      then async_step_remove_logic None flow
      else async_step_done flow
  | None => show_menu flow
  end.

(** The steps of the flow, by the input each takes. *)
Inductive flow_input : Type :=
  | Input_init (action : option string)
  | Input_add_logic (input : option Logic)
  | Input_edit_logic (edit_id : option Z)
  | Input_edit_logic_detail (input : option Logic)
  | Input_remove_logic (remove_id : option Z)
  | Input_done.

Definition options_flow_step (i : flow_input) (flow : DHDOptionsFlow)
    : flow_outcome * DHDOptionsFlow :=
  match i with
  | Input_init action => async_step_init action flow
  | Input_add_logic input => async_step_add_logic input flow
  | Input_edit_logic edit_id => async_step_edit_logic edit_id flow
  | Input_edit_logic_detail input => async_step_edit_logic_detail input flow
  | Input_remove_logic remove_id => async_step_remove_logic remove_id flow
  | Input_done => async_step_done flow
  end.

(** A flow taken through a sequence of steps. *)
Definition options_flow_run (inputs : list flow_input) (flow : DHDOptionsFlow)
    : DHDOptionsFlow :=
  fold_left (fun f i => (options_flow_step i f).2) inputs flow.

(** ** The entities ([entity.py], [switch.py], [binary_sensor.py]) *)

(** What the platforms give an entity when they create it: the
    identifier and the name of its logic. *)
Record DHDEntity : Type := mkEntity {
  _logic_id : Z;
  _attr_name : string;
}.

(** ** The coordinator ([coordinator.py]) *)

(** The coordinator: its [config_entry], the [data] of the base class, and
    the data it handed to [async_set_updated_data], in order. *)
Record DHDCoordinator : Type := mkCoordinator {
  c_config_entry : ConfigEntry;
  c_data : option (gmap Z bool);
  c_updated : list (gmap Z bool);
}.

(** [DHDCoordinator._get_logic_ids] *)
Definition _get_logic_ids (c : DHDCoordinator) : list Z :=
  map l_logic_id (configured_logics (c_config_entry c)).

(** [DHDCoordinator._handle_logic_push] *)
Definition _handle_logic_push (logic_id : Z) (state : bool)
    (c : DHDCoordinator) : DHDCoordinator :=
  let tracked := _get_logic_ids c in
  if negb (bool_decide (logic_id ∈ tracked)) then c
  else
    let d := match c_data c with Some d => d | None => ∅ end in
    if bool_decide (d !! logic_id = Some state)
    then mkCoordinator (c_config_entry c) (Some d) (c_updated c)
    else
      let d' := <[logic_id := state]> d in
      mkCoordinator (c_config_entry c) (Some d') (c_updated c ++ [d']).

(** The coordinator after the calls the listener made to the callback. *)
Definition handle_pushes (cs : list (Z * bool)) (c : DHDCoordinator)
    : DHDCoordinator :=
  fold_left (fun c call => _handle_logic_push call.1 call.2 c) cs c.

(** [is_on] of [DHDSwitch] and of [DHDBinarySensor] *)
Definition is_on (c : DHDCoordinator) (e : DHDEntity) : option bool :=
  match c_data c with
  | None => None
  | Some d => d !! _logic_id e
  end.

(** [DHDEntity.available]; [super_available] is what the base class
    answers. *)
Definition available (super_available : bool) (cl : DHDClient)
    (c : DHDCoordinator) (e : DHDEntity) : bool :=
  super_available && connected cl
  && bool_decide
       (is_Some ((match c_data c with Some d => d | None => ∅ end) !! _logic_id e)).

(** ** Setting up the entry ([__init__.py]) *)

(** How the connection part of [async_setup_entry] ends: the setup goes
    on, or raises [ConfigEntryNotReady], or another exception leaves it. *)
Inductive setup_outcome : Type :=
  | SetupGoesOn
  | ConfigEntryNotReady
  | SetupRaises (e : exn).

(** [async_setup_entry] up to the creation of the coordinator: a new
    client, and [connect] under [except (OSError, TimeoutError)]. *)
Definition async_setup_entry_connect
    (opened : result (StreamReader * StreamWriter)) (w : World)
    : setup_outcome * World :=
  match connect opened (with_client DHDClient_init w) with
  | (Return _, w1) => (SetupGoesOn, w1)
  | (Raise err, w1) =>
      if is_OSError_or_TimeoutError err then (ConfigEntryNotReady, w1)
      else (SetupRaises err, w1)
  end.

(** ** Polling ([coordinator.py]) *)

(** The two exception classes of the client. *)
Definition is_DHDConnectionError (e : exn) : bool :=
  match e with
  | DHDConnectionError_failed_to_connect | DHDConnectionError_disconnected => true
  | _ => false
  end.

Definition is_DHDProtocolError (e : exn) : bool :=
  match e with
  | DHDProtocolError_block_size _ | DHDProtocolError_timeout _
  | DHDProtocolError_response_length _ => true
  | _ => false
  end.

(** What the outside world answers during one update: to the reconnection
    ([disconnect], then [connect]), to each query in turn (the connection
    attempt, the drain, and what the other tasks do during the wait), and
    to the [disconnect] that follows a lost connection. *)
Record update_env : Type := mkUpdateEnv {
  reconnect_closed : option exn;
  reconnect_opened : result (StreamReader * StreamWriter);
  query_opened : nat -> result (StreamReader * StreamWriter);
  query_drained : nat -> option exn;
  query_meanwhile : nat -> World -> World;
  lost_closed : option exn;
}.

(** How [_async_update_data] ends: with the states, with [UpdateFailed]
    raised in one of its three places, or with another exception. *)
Inductive update_outcome : Type :=
  | Updated (states : gmap Z bool)
  | UpdateFailed_cannot_reconnect (err : exn)
  | UpdateFailed_lost_connection (err : exn)
  | UpdateFailed_protocol_error (err : exn)
  | UpdateRaises (e : exn).

(** The loop [for logic_id in logic_ids] of [_async_update_data], from
    its query number [i] on. *)
Fixpoint poll_logics (env : update_env) (logic_ids : list Z) (i : nat)
    (states : gmap Z bool) (w : World) : result (gmap Z bool) * World :=
  match logic_ids with
  | [] => (Return states, w)
  | logic_id :: rest =>
      match get_logic_state logic_id (query_opened env i) (query_drained env i)
              (query_meanwhile env i) w with
      | (Return state, w1) =>
          poll_logics env rest (S i) (<[logic_id := state]> states) w1
      | (Raise e, w1) => (Raise e, w1)
      end
  end.

(** [DHDCoordinator._async_update_data]; the records it writes go to the
    logger of its own module, which is not the client's. *)
Definition _async_update_data (env : update_env) (c : DHDCoordinator)
    (w : World) : update_outcome * World :=
  let logic_ids := _get_logic_ids c in
  match logic_ids with
  | [] => (Updated ∅, w)
  | _ =>
      let reconnected : option exn * World :=
        if negb (connected (client w))
        then
          match disconnect (reconnect_closed env) w with
          | (Raise e, w1) => (Some e, w1)
          | (Return _, w1) =>
              match connect (reconnect_opened env) w1 with
              | (Raise e, w2) => (Some e, w2)
              | (Return _, w2) => (None, w2)
              end
          end
        else (None, w) in
      match reconnected with
      | (Some e, w1) =>
          if is_DHDConnectionError e || is_OSError_or_TimeoutError e
          then (UpdateFailed_cannot_reconnect e, w1)
          else (UpdateRaises e, w1)
      | (None, w1) =>
          match poll_logics env logic_ids 0 ∅ w1 with
          | (Return states, w2) => (Updated states, w2)
          | (Raise e, w2) =>
              if is_DHDConnectionError e
              then
                match disconnect (lost_closed env) w2 with
                | (Raise e', w3) => (UpdateRaises e', w3)
                | (Return _, w3) => (UpdateFailed_lost_connection e, w3)
                end
              else if is_DHDProtocolError e
              then (UpdateFailed_protocol_error e, w2)
              else (UpdateRaises e, w2)
          end
      end
  end.

(** ** Switching ([switch.py]) *)

(** How [async_turn_on] and [async_turn_off] end: they return, or
    [set_logic_state] raises, or the assignment to an item of
    [coordinator.data] raises [TypeError] because the data is [None]. *)
Inductive turn_outcome : Type :=
  | Turned
  | TurnRaises (e : exn)
  | TurnTypeError.

(** [DHDSwitch.async_turn_on]; [c] is the coordinator as it is when
    [set_logic_state] returns. *)
Definition async_turn_on (e : DHDEntity)
    (opened : result (StreamReader * StreamWriter)) (drained : option exn)
    (meanwhile : World -> World) (c : DHDCoordinator) (w : World)
    : turn_outcome * DHDCoordinator * World :=
  match set_logic_state (_logic_id e) true opened drained meanwhile w with
  | (Raise err, w1) => (TurnRaises err, c, w1)
  | (Return _, w1) =>
      match c_data c with
      | None => (TurnTypeError, c, w1)
      | Some d =>
          (Turned,
           mkCoordinator (c_config_entry c) (Some (<[_logic_id e := true]> d))
             (c_updated c),
           w1)
      end
  end.

(** [DHDSwitch.async_turn_off] *)
Definition async_turn_off (e : DHDEntity)
    (opened : result (StreamReader * StreamWriter)) (drained : option exn)
    (meanwhile : World -> World) (c : DHDCoordinator) (w : World)
    : turn_outcome * DHDCoordinator * World :=
  match set_logic_state (_logic_id e) false opened drained meanwhile w with
  | (Raise err, w1) => (TurnRaises err, c, w1)
  | (Return _, w1) =>
      match c_data c with
      | None => (TurnTypeError, c, w1)
      | Some d =>
          (Turned,
           mkCoordinator (c_config_entry c) (Some (<[_logic_id e := false]> d))
             (c_updated c),
           w1)
      end
  end.

(** ** The first step of the config flow ([config_flow.py]) *)

(** The form of the step [user]. *)
Record UserInput : Type := mkUserInput {
  ui_host : string;
  ui_port : Z;
  ui_logic : Logic;
}.

(** How [async_step_user] ends: the form, with its errors; the abort of
    [_async_abort_entries_match]; the entry, with its title and data; or
    an exception. *)
Inductive user_step_result : Type :=
  | UserForm (errors : list (string * string))
  | UserAbort
  | UserCreateEntry (title host : string) (port : Z) (logics : list Logic)
  | UserRaises (e : exn).

(** [DHDConfigFlow.async_step_user].  [entry_exists] is whether
    [_async_abort_entries_match] finds an entry for the host; [opened] is
    the answer to the connection attempt of [test_connection], [closed]
    and [meanwhile] those of [disconnect]. *)
Definition async_step_user (user_input : option UserInput)
    (entry_exists : bool) (opened : result (StreamReader * StreamWriter))
    (closed : option exn) (meanwhile : World -> World) (w : World)
    : user_step_result * World :=
  match user_input with
  | None => (UserForm [], w)
  | Some input =>
      if entry_exists then (UserAbort, w)
      else
        match test_connection opened (with_client DHDClient_init w) with
        | (Raise e, w1) =>
            if is_DHDConnectionError e || is_OSError_or_TimeoutError e
            then (UserForm [("base"%string, "cannot_connect"%string)], w1)
            else (UserRaises e, w1)
        | (Return _, w1) =>
            match disconnect_awaiting closed meanwhile w1 with
            | (Raise e, w2) => (UserRaises e, w2)
            | (Return _, w2) =>
                (UserCreateEntry
                   ("HA DHD Audio (" +:+ ui_host input +:+ ")")
                   (ui_host input) (ui_port input) [ui_logic input],
                 w2)
            end
        end
  end.

(** * Properties *)

(** ** Bytes and big-endian integers *)

Section Bytes.

Lemma Z_of_byte_range (b : byte) : 0 <= Z_of_byte b < 256.
Proof.
  unfold Z_of_byte. pose proof (Byte.to_N_bounded b). lia.
Qed.

Lemma Z_of_byte_of_Z (z : Z) : Z_of_byte (byte_of_Z z) = z mod 256.
Proof.
  unfold Z_of_byte, byte_of_Z.
  pose proof (Z.mod_pos_bound z 256 ltac:(lia)) as Hm.
  destruct (Byte.of_N (Z.to_N (z mod 256))) as [b|] eqn:E.
  - apply Byte.to_of_N in E. rewrite E. lia.
  - apply Byte.of_N_None_iff in E. lia.
Qed.

Lemma byte_of_Z_of_byte (b : byte) : byte_of_Z (Z_of_byte b) = b.
Proof.
  unfold byte_of_Z. pose proof (Z_of_byte_range b) as Hr.
  rewrite Z.mod_small by lia. unfold Z_of_byte.
  rewrite N2Z.id, Byte.of_to_N. reflexivity.
Qed.

Lemma Z_of_byte_small (z : Z) : 0 <= z < 256 -> Z_of_byte (byte_of_Z z) = z.
Proof. intros Hz. rewrite Z_of_byte_of_Z. apply Z.mod_small, Hz. Qed.

Lemma int_from_bytes_big_snoc (bs : bytes) (b : byte) :
  int_from_bytes_big (bs ++ [b]) = int_from_bytes_big bs * 256 + Z_of_byte b.
Proof. unfold int_from_bytes_big. rewrite fold_left_app. reflexivity. Qed.

Lemma length_be_digits (len : nat) (n : Z) : length (be_digits len n) = len.
Proof.
  revert n. induction len as [|k IH]; intros n; simpl; [reflexivity|].
  rewrite length_app, IH. simpl. lia.
Qed.

Lemma int_from_bytes_big_be_digits (len : nat) (n : Z) :
  0 <= n -> int_from_bytes_big (be_digits len n) = n mod 256 ^ Z.of_nat len.
Proof.
  revert n. induction len as [|k IH]; intros n Hn.
  - simpl. rewrite Z.mod_1_r. reflexivity.
  - cbn [be_digits]. rewrite int_from_bytes_big_snoc, Z_of_byte_of_Z.
    rewrite IH by (apply Z.div_pos; lia).
    rewrite Nat2Z.inj_succ, Z.pow_succ_r by lia.
    rewrite Z.mod_mod, Z.rem_mul_r by lia. lia.
Qed.

Lemma byte_of_Z_mod (z : Z) : byte_of_Z (z mod 256) = byte_of_Z z.
Proof. unfold byte_of_Z. rewrite Z.mod_mod by lia. reflexivity. Qed.

Lemma be_digits_4 (n : Z) :
  be_digits 4 n =
    [byte_of_Z (n / 2 ^ 24); byte_of_Z (n / 2 ^ 16); byte_of_Z (n / 2 ^ 8);
     byte_of_Z n].
Proof.
  cbn [be_digits app]. rewrite !byte_of_Z_mod, !Z.div_div by lia.
  reflexivity.
Qed.

Lemma be_digits_2 (n : Z) :
  be_digits 2 n = [byte_of_Z (n / 2 ^ 8); byte_of_Z n].
Proof. cbn [be_digits app]. rewrite !byte_of_Z_mod. reflexivity. Qed.

Lemma length_ljust (width : nat) (data : bytes) :
  (length data <= width)%nat -> length (ljust width data) = width.
Proof.
  intros H. unfold ljust. rewrite length_app, repeat_length. lia.
Qed.

End Bytes.

(** ** The frame codec *)

Section Codec.

Variables (command_id : Z) (data : bytes).
Hypothesis command_32 : 0 <= command_id < 2 ^ 32.

Lemma int_to_bytes_big_4 :
  int_to_bytes_big 4 command_id = Return (be_digits 4 command_id).
Proof.
  unfold int_to_bytes_big.
  replace (256 ^ Z.of_nat 4) with (2 ^ 32) by reflexivity.
  destruct (Z.leb_spec 0 command_id); [|lia].
  destruct (Z.ltb_spec command_id (2 ^ 32)); [|lia]. reflexivity.
Qed.

Lemma _build_block_ok :
  (length data <= 8)%nat ->
  _build_block command_id data =
    Return ([byte_of_Z (Z.of_nat (length data)); x00]
              ++ be_digits 4 command_id ++ ljust 8 data ++ [x00; x00]).
Proof.
  intros Hlen. unfold _build_block.
  destruct (Nat.ltb_spec 8 (length data)); [lia|].
  rewrite int_to_bytes_big_4. reflexivity.
Qed.

Lemma _build_block_too_long :
  (8 < length data)%nat ->
  _build_block command_id data = Raise (ValueError_data_too_long (length data)).
Proof.
  intros Hlen. unfold _build_block.
  destruct (Nat.ltb_spec 8 (length data)); [reflexivity|lia].
Qed.

End Codec.

(** C3. Building a block from a 32-bit command and a payload of at most 8
    bytes and parsing it again gives the payload's length, the command and
    the payload, without the padding. *)
Theorem C3_parse_build_roundtrip (command_id : Z) (data : bytes) :
  0 <= command_id < 2 ^ 32 ->
  (length data <= 8)%nat ->
  exists block,
    _build_block command_id data = Return block /\
    _parse_block block = Return (length data, command_id, data).
Proof.
  intros Hc Hlen. eexists. split; [apply _build_block_ok; assumption|].
  unfold _parse_block.
  set (cmd4 := be_digits 4 command_id).
  assert (Hl4 : length cmd4 = 4%nat) by apply length_be_digits.
  assert (Hl8 : length (ljust 8 data) = 8%nat) by (apply length_ljust; lia).
  assert (Hlen16 :
    length ([byte_of_Z (Z.of_nat (length data)); x00]
              ++ cmd4 ++ ljust 8 data ++ [x00; x00]) = ECP_BLOCK_SIZE).
  { rewrite !length_app, Hl4, Hl8. reflexivity. }
  rewrite Hlen16, Nat.eqb_refl. cbn [negb].
  f_equal. f_equal; [f_equal|].
  - cbn [app nth]. rewrite Z_of_byte_small by lia. lia.
  - unfold slice. cbn [app drop Nat.sub]. rewrite drop_0.
    rewrite take_app_length' by (symmetry; exact Hl4).
    unfold cmd4. rewrite int_from_bytes_big_be_digits by lia.
    apply Z.mod_small. exact Hc.
  - cbn [app nth]. rewrite Z_of_byte_small by lia. rewrite Nat2Z.id.
    unfold slice.
    replace (6 + length data - 6)%nat with (length data) by lia.
    change (drop 6 (byte_of_Z (Z.of_nat (length data)) :: x00
                      :: cmd4 ++ ljust 8 data ++ [x00; x00]))
      with (drop 4 (cmd4 ++ ljust 8 data ++ [x00; x00])).
    rewrite drop_app_length' by (symmetry; exact Hl4).
    unfold ljust. rewrite <- app_assoc. apply take_app_length.
Qed.

Lemma C3_parse_build_roundtrip_witness :
  exists block,
    _build_block 0x110E0000 [x00; x42; x01] = Return block /\
    _parse_block block = Return (3%nat, 0x110E0000, [x00; x42; x01]).
Proof.
  apply (C3_parse_build_roundtrip 0x110E0000 [x00; x42; x01]).
  - lia.
  - simpl. lia.
Defined.

(** C4. For a 32-bit command, [_build_block] returns a block exactly when
    the payload has at most 8 bytes.  The block then has 16 bytes: the
    payload's length, a zero byte, the command most significant byte first,
    the payload followed by zero bytes up to 8, and two zero bytes.  A
    payload of 9 bytes or more raises the ValueError that rejects the
    payload. *)
Theorem C4_build_block_layout (command_id : Z) (data : bytes) :
  0 <= command_id < 2 ^ 32 ->
  ((exists block, _build_block command_id data = Return block)
     <-> (length data <= 8)%nat) /\
  ((length data <= 8)%nat ->
     exists block,
       _build_block command_id data = Return block /\
       length block = 16%nat /\
       block =
         [byte_of_Z (Z.of_nat (length data)); x00;
          byte_of_Z (command_id / 2 ^ 24); byte_of_Z (command_id / 2 ^ 16);
          byte_of_Z (command_id / 2 ^ 8); byte_of_Z command_id]
           ++ data ++ repeat x00 (8 - length data)%nat ++ [x00; x00] /\
       Z_of_byte (nth 0 block x00) = Z.of_nat (length data) /\
       int_from_bytes_big (slice 2 6 block) = command_id) /\
  ((9 <= length data)%nat ->
     _build_block command_id data = Raise (ValueError_data_too_long (length data))).
Proof.
  intros Hc. split; [|split].
  - split.
    + intros [block Hb]. destruct (Nat.le_gt_cases (length data) 8) as [|Hgt]; [assumption|].
      rewrite _build_block_too_long in Hb by assumption. discriminate.
    + intros Hlen. eexists. apply _build_block_ok; assumption.
  - intros Hlen. eexists. split; [apply _build_block_ok; assumption|].
    rewrite be_digits_4. unfold ljust. cbn [app].
    split; [|split; [|split]].
    + cbn [length]. rewrite !length_app, repeat_length. cbn [length]. lia.
    + rewrite <- app_assoc. reflexivity.
    + cbn [nth]. apply Z_of_byte_small. lia.
    + unfold slice. cbn [drop take Nat.sub].
      rewrite <- be_digits_4. rewrite int_from_bytes_big_be_digits by lia.
      apply Z.mod_small. exact Hc.
  - intros Hlen. apply _build_block_too_long. lia.
Qed.

Lemma C4_build_block_layout_witness :
  _build_block 0x110E0000 [] =
    Return [x00; x00; x11; x0e; x00; x00; x00; x00; x00; x00; x00; x00; x00;
            x00; x00; x00] /\
  _build_block 0x110E0000 (repeat x00 9) = Raise (ValueError_data_too_long 9).
Proof.
  pose proof (C4_build_block_layout 0x110E0000 [] ltac:(lia)) as [_ [Hok _]].
  pose proof (C4_build_block_layout 0x110E0000 (repeat x00 9) ltac:(lia))
    as [_ [_ Hbad]].
  split.
  - destruct (Hok ltac:(simpl; lia)) as (block & Hb & _ & Hlayout & _).
    rewrite Hb, Hlayout. reflexivity.
  - apply Hbad. simpl. lia.
Defined.

(** C9. [_parse_block] does not check the length byte against the bound of
    8: it returns for every block of 16 bytes, the data being the bytes from
    offset 6 on, as many as the length byte says and at most the 10 that
    the block has left. *)
Theorem C9_parse_block_length_unchecked (block : bytes) :
  length block = 16%nat ->
  exists data,
    let length_ := Z.to_nat (Z_of_byte (nth 0 block x00)) in
    _parse_block block =
      Return (length_, int_from_bytes_big (slice 2 6 block), data) /\
    data = take length_ (drop 6 block) /\
    length data = Nat.min length_ 10 /\
    ((8 < length_)%nat -> (9 <= length data <= 10)%nat).
Proof.
  intros Hlen. eexists. cbn zeta. split; [|split; [|split]].
  - unfold _parse_block. rewrite Hlen. cbn [Nat.eqb ECP_BLOCK_SIZE negb].
    unfold slice at 2.
    replace (6 + Z.to_nat (Z_of_byte (nth 0 block x00)) - 6)%nat
      with (Z.to_nat (Z_of_byte (nth 0 block x00))) by lia.
    reflexivity.
  - reflexivity.
  - rewrite length_take, length_drop, Hlen. reflexivity.
  - intros Hgt. rewrite length_take, length_drop, Hlen. lia.
Qed.

Lemma C9_parse_block_length_unchecked_witness :
  _parse_block
    [xff; x00; x11; x0e; x00; x00; x01; x02; x03; x04; x05; x06; x07; x08;
     x09; x0a] =
    Return (255%nat, 0x110E0000,
            [x01; x02; x03; x04; x05; x06; x07; x08; x09; x0a]).
Proof.
  destruct (C9_parse_block_length_unchecked
    [xff; x00; x11; x0e; x00; x00; x01; x02; x03; x04; x05; x06; x07; x08;
     x09; x0a] eq_refl) as (data & Hp & Hd & _).
  cbn zeta in Hp. rewrite Hp, Hd. reflexivity.
Defined.

(** ** The delivery loop *)

Section Delivery.

Variables (cmd : Z) (data : bytes).

Lemma deliver_dangling pid a rest (fs : list Future) :
  fs !! a = None ->
  deliver cmd data ((pid, a) :: rest) fs = deliver cmd data rest fs.
Proof. intros H. cbn [deliver]. rewrite H. reflexivity. Qed.

Lemma deliver_skip pid a rest (fs : list Future) fut :
  fs !! a = Some fut -> answers cmd data fut = false ->
  deliver cmd data ((pid, a) :: rest) fs = deliver cmd data rest fs.
Proof.
  intros Hl Ha. cbn [deliver]. rewrite Hl. unfold answers in Ha.
  destruct (done fut); [reflexivity|].
  destruct (_dhd_match fut) as [expected_cmd expected_logic].
  cbn [fst snd negb andb] in Ha.
  destruct (cmd =? expected_cmd); [|reflexivity]. cbn [negb andb] in Ha |- *.
  destruct expected_logic as [expected|]; [|discriminate].
  rewrite Nat.ltb_antisym in Ha.
  destruct (2 <=? length data)%nat; cbn [negb orb] in Ha; [|discriminate].
  rewrite Ha. reflexivity.
Qed.

Lemma deliver_hit pid a rest (fs : list Future) fut :
  fs !! a = Some fut -> answers cmd data fut = true ->
  deliver cmd data ((pid, a) :: rest) fs =
    Return (<[a := completed cmd data fut]> fs, true).
Proof.
  intros Hl Ha. cbn [deliver]. rewrite Hl. unfold answers in Ha.
  unfold set_result.
  destruct (done fut); [discriminate|].
  destruct (_dhd_match fut) as [expected_cmd expected_logic] eqn:Em.
  cbn [fst snd negb andb] in Ha.
  destruct (cmd =? expected_cmd); [|discriminate]. cbn [negb andb] in Ha |- *.
  unfold completed. rewrite Em.
  destruct expected_logic as [expected|]; [|reflexivity].
  rewrite Nat.ltb_antisym in Ha.
  destruct (2 <=? length data)%nat; cbn [negb orb] in Ha; [|reflexivity].
  rewrite Ha. reflexivity.
Qed.

(** The loop either finds nothing, or completes the first future that
    answers and stops. *)
Lemma deliver_cases (items : list (Z * nat)) (fs : list Future) :
  (unsolicited cmd data items fs /\
   deliver cmd data items fs = Return (fs, false))
  \/
  (exists pre pid a post fut,
     items = pre ++ (pid, a) :: post /\
     unsolicited cmd data pre fs /\
     fs !! a = Some fut /\
     answers cmd data fut = true /\
     deliver cmd data items fs =
       Return (<[a := completed cmd data fut]> fs, true)).
Proof.
  induction items as [|[pid a] rest IH].
  - left. split; [|reflexivity]. intros ? ? ? Hin. inversion Hin.
  - destruct (fs !! a) as [fut|] eqn:Hl.
    + destruct (answers cmd data fut) eqn:Ha.
      * right. exists [], pid, a, rest, fut.
        split; [reflexivity|]. split; [intros ? ? ? Hin; inversion Hin|].
        split; [assumption|]. split; [assumption|].
        apply deliver_hit; assumption.
      * rewrite (deliver_skip _ _ _ _ _ Hl Ha).
        destruct IH as [[Hun Hd]|(pre & p & b & post & g & -> & Hun & Hg & Hag & Hd)].
        -- left. split; [|assumption].
           intros p b g Hin Hg. apply elem_of_cons in Hin as [Heq|Hin].
           ++ inversion Heq; subst. congruence.
           ++ eapply Hun; eassumption.
        -- right. exists ((pid, a) :: pre), p, b, post, g.
           split; [reflexivity|]. split; [|auto].
           intros p' b' g' Hin Hg'. apply elem_of_cons in Hin as [Heq|Hin].
           ++ inversion Heq; subst. congruence.
           ++ eapply Hun; eassumption.
    + rewrite (deliver_dangling _ _ _ _ Hl).
      destruct IH as [[Hun Hd]|(pre & p & b & post & g & -> & Hun & Hg & Hag & Hd)].
      * left. split; [|assumption].
        intros p b g Hin Hg. apply elem_of_cons in Hin as [Heq|Hin].
        -- inversion Heq; subst. congruence.
        -- eapply Hun; eassumption.
      * right. exists ((pid, a) :: pre), p, b, post, g.
        split; [reflexivity|]. split; [|auto].
        intros p' b' g' Hin Hg'. apply elem_of_cons in Hin as [Heq|Hin].
        -- inversion Heq; subst. congruence.
        -- eapply Hun; eassumption.
Qed.

Lemma deliver_unsolicited (items : list (Z * nat)) (fs : list Future) :
  unsolicited cmd data items fs ->
  deliver cmd data items fs = Return (fs, false).
Proof.
  intros Hun.
  destruct (deliver_cases items fs)
    as [[_ Hd]|(pre & p & b & post & g & -> & _ & Hg & Hag & _)];
    [assumption|].
  rewrite (Hun p b g) in Hag; [discriminate| |assumption].
  apply elem_of_app. right. apply elem_of_cons. left. reflexivity.
Qed.

(** A future that is done is out of the loop's reach. *)
Lemma deliver_keeps_done (items : list (Z * nat)) (fs fs' : list Future)
    delivered a fut :
  fs !! a = Some fut -> done fut = true ->
  deliver cmd data items fs = Return (fs', delivered) ->
  fs' !! a = Some fut.
Proof.
  intros Hl Hdone Hd.
  destruct (deliver_cases items fs)
    as [[_ Hd']|(pre & p & b & post & g & -> & _ & Hg & Hag & Hd')];
    rewrite Hd' in Hd; inversion Hd; subst; [assumption|].
  destruct (decide (b = a)) as [->|Hne].
  - rewrite Hl in Hg. inversion Hg; subst.
    unfold answers in Hag. rewrite Hdone in Hag. discriminate.
  - rewrite list_lookup_insert_ne by assumption. assumption.
Qed.

End Delivery.

Lemma answers_done cmd data fut : done fut = true -> answers cmd data fut = false.
Proof. intros H. unfold answers. rewrite H. reflexivity. Qed.

Lemma answers_iff cmd data fut :
  answers cmd data fut = true <->
    done fut = false /\
    cmd = (_dhd_match fut).1 /\
    ((_dhd_match fut).2 = None \/
     (length data < 2)%nat \/
     (_dhd_match fut).2 = Some (int_from_bytes_big (take 2 data))).
Proof.
  unfold answers, slice. rewrite drop_0. cbn [Nat.sub].
  destruct (done fut); cbn [negb andb]; [intuition discriminate|].
  destruct (Z.eqb_spec cmd (_dhd_match fut).1) as [Hc|Hc]; cbn [andb];
    [|intuition discriminate].
  destruct (_dhd_match fut).2 as [expected|]; [|intuition].
  destruct (Nat.ltb_spec (length data) 2) as [Hl|Hl]; cbn [orb]; [intuition|].
  destruct (Z.eqb_spec (int_from_bytes_big (take 2 data)) expected) as [He|He].
  - subst. intuition.
  - split; [discriminate|]. intros (_ & _ & [H|[H|H]]);
      [discriminate|lia|congruence].
Qed.

(** Where the test of the loop and the match of the specification part:
    on futures that are done, and on data shorter than two bytes. *)
Lemma answers_spec_matches cmd data fut :
  done fut = false -> (2 <= length data)%nat ->
  answers cmd data fut = spec_matches cmd data fut.
Proof.
  intros Hdone Hlen. unfold answers, spec_matches. rewrite Hdone.
  destruct (Nat.ltb_spec (length data) 2); [lia|].
  destruct (Nat.leb_spec 2 (length data)); [|lia]. reflexivity.
Qed.

Lemma dict_set_fresh (k : Z) (v : nat) (d : list (Z * nat)) :
  k ∉ map fst d -> dict_set k v d = d ++ [(k, v)].
Proof.
  induction d as [|[k' v'] d IH]; intros Hk; [reflexivity|].
  cbn [dict_set]. cbn [map fst] in Hk. apply not_elem_of_cons in Hk as [Hne Hk].
  destruct (Z.eqb_spec k' k) as [E|E]; [congruence|].
  rewrite IH by assumption. reflexivity.
Qed.

Lemma dict_pop_absent (k : Z) (d : list (Z * nat)) : k ∉ map fst (dict_pop k d).
Proof.
  unfold dict_pop. intros Hin. apply list_elem_of_In, in_map_iff in Hin.
  destruct Hin as ([k' v] & Hk & Hin). cbn in Hk. subst k'.
  apply list_elem_of_In, list_elem_of_filter in Hin. destruct Hin as [Hne _].
  cbn in Hne. congruence.
Qed.

Lemma dict_pop_other (k p : Z) (b : nat) (d : list (Z * nat)) :
  p <> k -> ((p, b) ∈ dict_pop k d <-> (p, b) ∈ d).
Proof.
  intros Hne. unfold dict_pop. rewrite list_elem_of_filter. cbn. intuition.
Qed.

(** The listener never touches the client object: a delivered request
    stays in the dictionary. *)
Lemma push_client delivered cmd data w r w' :
  push delivered cmd data w = (r, w') ->
  client w' = client w /\ futures w' = futures w.
Proof.
  unfold push.
  destruct (negb delivered && (cmd =? ECP_CMD_SET_LOGIC) && (3 <=? length data)%nat);
    [|intros H; inversion H; auto].
  cbn [logging client].
  destruct (_logic_callback (client w)) as [cb|]; [|intros H; inversion H; auto].
  destruct (cb _ _) as [e|]; [|intros H; inversion H; auto].
  destruct (is_Exception e); intros H; inversion H; auto.
Qed.

Lemma listener_body_client raw w r w' :
  listener_body raw w = (r, w') -> client w' = client w.
Proof.
  unfold listener_body. destruct raw as [raw|e].
  - destruct (_parse_block raw) as [[[len cmd] data]|e];
      [|intros H; inversion H; reflexivity].
    cbn [logging client futures].
    destruct (deliver cmd data _ _) as [[fs delivered]|e];
      [|intros H; inversion H; reflexivity].
    destruct (push delivered cmd data _) as [[u|e] w2] eqn:Hp;
      apply push_client in Hp as [Hc _]; intros H; inversion H; subst;
      rewrite Hc; reflexivity.
  - destruct e; intros H; inversion H; reflexivity.
Qed.

(** ** Dispatch of a frame to the requests in flight *)

(** C1, as the specification states it, fails: a request that expects
    logic 0x0042 is completed by a frame of its command whose data has one
    byte only, which the stated match excludes; and whether the frame is
    that one or the echo of logic 0x0042, the listener completes the future
    and leaves its entry in the dictionary. *)
Lemma C1_counterexample :
  spec_matches ECP_CMD_SET_LOGIC [x00] request_0x42 = false /\
  (exists w',
     listener_body (Return frame_one_byte) world_one_request
       = (Return Continue, w') /\
     futures w' =
       [mkFuture (ECP_CMD_SET_LOGIC, Some 0x42)
          (FResult (ECP_CMD_SET_LOGIC, [x00]))] /\
     _pending (client w') = [(1, 0%nat)]) /\
  (exists w',
     listener_body (Return frame_0x42_active) world_one_request
       = (Return Continue, w') /\
     futures w' =
       [mkFuture (ECP_CMD_SET_LOGIC, Some 0x42)
          (FResult (ECP_CMD_SET_LOGIC, [x00; x42; x01]))] /\
     _pending (client w') = [(1, 0%nat)]).
Proof.
  split; [reflexivity|].
  split; eexists; (split; [vm_compute; reflexivity|]); split; reflexivity.
Qed.

(** C1, amended.  The delivery loop goes through the dictionary in
    insertion order.  A request answers the frame iff its future is not
    done, the frame's command is the request's, and the secondary key is
    absent, or the data has fewer than 2 bytes, or the big-endian uint16 of
    its first 2 bytes is the key.  The first request that answers is
    completed with the frame's (command, data) and the loop stops: no other
    future changes, and the completed one answers no later frame.  The
    listener leaves the dictionary as it is; the entry goes when the
    [send_command] that awaits the future resumes. *)
Theorem C1_first_answering_request_completed
    (cmd : Z) (data : bytes) (w : World) :
  (forall fut,
     answers cmd data fut = true <->
       done fut = false /\
       cmd = (_dhd_match fut).1 /\
       ((_dhd_match fut).2 = None \/
        (length data < 2)%nat \/
        (_dhd_match fut).2 = Some (int_from_bytes_big (take 2 data)))) /\
  ((unsolicited cmd data (_pending (client w)) (futures w) /\
    deliver cmd data (_pending (client w)) (futures w)
      = Return (futures w, false))
   \/
   (exists pre pid a post fut,
      _pending (client w) = pre ++ (pid, a) :: post /\
      unsolicited cmd data pre (futures w) /\
      futures w !! a = Some fut /\
      answers cmd data fut = true /\
      deliver cmd data (_pending (client w)) (futures w)
        = Return (<[a := completed cmd data fut]> (futures w), true) /\
      (forall b, b <> a ->
         <[a := completed cmd data fut]> (futures w) !! b = futures w !! b) /\
      (forall cmd' data',
         answers cmd' data' (completed cmd data fut) = false))) /\
  (forall raw r w',
     listener_body raw w = (r, w') ->
     _pending (client w') = _pending (client w)) /\
  (forall command_id pid a,
     pid ∉ map fst (_pending (client (send_command_finish command_id pid a w).2))).
Proof.
  split; [intros fut; apply answers_iff|].
  split; [|split].
  - destruct (deliver_cases cmd data (_pending (client w)) (futures w))
      as [H|(pre & pid & a & post & fut & Hp & Hun & Hl & Ha & Hd)];
      [left; exact H|].
    right. exists pre, pid, a, post, fut. repeat (split; [assumption|]).
    split.
    + intros b Hb. apply list_lookup_insert_ne. congruence.
    + intros cmd' data'. apply answers_done. reflexivity.
  - intros raw r w' H. apply listener_body_client in H. rewrite H. reflexivity.
  - intros command_id pid a. unfold send_command_finish.
    destruct (wait_for a (futures w)) as [r fs]. cbn.
    apply dict_pop_absent.
Qed.

Lemma C1_first_answering_request_completed_witness :
  deliver ECP_CMD_SET_LOGIC [x00; x42; x01] [(1, 0%nat)] [request_0x42]
    = Return ([completed ECP_CMD_SET_LOGIC [x00; x42; x01] request_0x42], true).
Proof.
  destruct (C1_first_answering_request_completed
              ECP_CMD_SET_LOGIC [x00; x42; x01] world_one_request)
    as (_ & [[Hun _]|(pre & pid & a & post & fut & _ & _ & _ & _ & _)] & _ & _).
  - exfalso.
    assert (Hin : (1, 0%nat) ∈ _pending (client world_one_request))
      by (apply list_elem_of_singleton; reflexivity).
    specialize (Hun 1 0%nat request_0x42 Hin eq_refl). discriminate Hun.
  - reflexivity.
Defined.

(** ** End of stream *)

(** What the listener does when the reader reports the end of the stream:
    it logs a warning and leaves the loop; no future and no entry of the
    dictionary changes. *)
Lemma listener_while_eof (rest : list (result bytes)) (w : World) :
  listener_while (Raise IncompleteReadError :: rest) w
    = (Returned, logging Warning_connection_lost w).
Proof. reflexivity. Qed.

(** C2, evaluated where the code departs from it: with a request in
    flight, the end of the stream ends the listener task and leaves the
    request as it was, pending and registered, where [_stop_listener] fails
    it with Disconnected and empties the dictionary. *)
Theorem C2_eof_leaves_requests_pending :
  (exists w',
     _listener_loop 0 [Raise IncompleteReadError] world_one_request
       = (Returned, w') /\
     futures w' = [request_0x42] /\
     fstate request_0x42 = FPending /\
     _pending (client w') = [(1, 0%nat)] /\
     tasks w' = [TaskDone] /\
     log w' = [Warning_connection_lost]) /\
  (exists w',
     _stop_listener world_one_request = (Return tt, w') /\
     futures w' =
       [mkFuture (ECP_CMD_SET_LOGIC, Some 0x42)
          (FException DHDConnectionError_disconnected)] /\
     _pending (client w') = []).
Proof.
  split; eexists; (split; [vm_compute; reflexivity|]); repeat split.
Qed.

(** ** One turn of the listener *)

Lemma _parse_block_16 (raw : bytes) :
  length raw = 16%nat ->
  exists len cmd data, _parse_block raw = Return (len, cmd, data).
Proof.
  intros H. unfold _parse_block. rewrite H. cbn [Nat.eqb ECP_BLOCK_SIZE negb].
  eauto.
Qed.

Lemma _parse_block_not_16 (raw : bytes) :
  length raw <> 16%nat ->
  _parse_block raw = Raise (DHDProtocolError_block_size (length raw)).
Proof.
  intros H. unfold _parse_block.
  destruct (Nat.eqb_spec (length raw) ECP_BLOCK_SIZE) as [E|E];
    [contradiction|reflexivity].
Qed.

Lemma deliver_returns cmd data (items : list (Z * nat)) (fs : list Future) :
  exists fs' delivered, deliver cmd data items fs = Return (fs', delivered).
Proof.
  destruct (deliver_cases cmd data items fs)
    as [[_ H]|(pre & p & b & post & g & _ & _ & _ & _ & H)]; eauto.
Qed.

(** The push branch when it is taken with a callback registered: one call,
    and a log record when the callback raises an [Exception]. *)
Lemma push_taken (data : bytes) (w : World) callback :
  (3 <= length data)%nat ->
  _logic_callback (client w) = Some callback ->
  let logic_id := int_from_bytes_big (slice 0 2 data) in
  let state := negb (Z_of_byte (nth 2 data x00) =? 0) in
  let w2 := calling logic_id state (logging (Debug_push logic_id state) w) in
  push false ECP_CMD_SET_LOGIC data w =
    match callback logic_id state with
    | None => (Return tt, w2)
    | Some e =>
        if is_Exception e
        then (Return tt, logging (Exception_logic_callback e) w2)
        else (Raise e, w2)
    end.
Proof.
  intros Hlen Hcb. cbn zeta. unfold push.
  rewrite Z.eqb_refl. destruct (Nat.leb_spec 3 (length data)); [|lia].
  cbn [negb andb logging client]. rewrite Hcb. reflexivity.
Qed.

Lemma push_returns delivered cmd data (w : World) :
  callback_raises_Exception_only w ->
  exists w', push delivered cmd data w = (Return tt, w').
Proof.
  intros Hcb. unfold push.
  destruct (negb delivered && (cmd =? ECP_CMD_SET_LOGIC) && (3 <=? length data)%nat);
    [|eauto].
  cbn [logging client].
  destruct (_logic_callback (client w)) as [cb|] eqn:Ecb; [|eauto].
  destruct (cb _ _) as [e|] eqn:Ee; [|eauto].
  rewrite (Hcb _ _ _ _ Ecb Ee). eauto.
Qed.

Lemma listener_body_continues (raw : bytes) (w : World) :
  length raw = 16%nat ->
  callback_raises_Exception_only w ->
  exists w', listener_body (Return raw) w = (Return Continue, w').
Proof.
  intros Hlen Hcb. unfold listener_body.
  destruct (_parse_block_16 raw Hlen) as (len & cmd & data & ->).
  destruct (deliver_returns cmd data
              (_pending (client (logging (Debug_rx cmd data) w)))
              (futures (logging (Debug_rx cmd data) w)))
    as (fs & delivered & ->).
  destruct (push_returns delivered cmd data
              (with_futures fs (logging (Debug_rx cmd data) w)) Hcb)
    as (w' & ->).
  eauto.
Qed.

(** C7. A frame of the logic command with 3 bytes of data or more that no
    request in flight answers makes the listener call the registered
    callback once, with the big-endian uint16 of the first two bytes and
    with whether the third byte is non-zero.  When the callback raises an
    [Exception] it is logged and the loop goes on to the next read, as it
    does when the callback returns. *)
Theorem C7_unsolicited_logic_frame_pushed
    (raw : bytes) (len : nat) (data : bytes)
    (callback : Z -> bool -> option exn) (w : World)
    (rest : list (result bytes)) :
  _parse_block raw = Return (len, ECP_CMD_SET_LOGIC, data) ->
  unsolicited ECP_CMD_SET_LOGIC data (_pending (client w)) (futures w) ->
  (3 <= length data)%nat ->
  _logic_callback (client w) = Some callback ->
  (forall logic_id state e,
     callback logic_id state = Some e -> is_Exception e = true) ->
  exists third w',
    data !! 2%nat = Some third /\
    let logic_id := int_from_bytes_big (take 2 data) in
    let active := negb (Z_of_byte third =? 0) in
    listener_body (Return raw) w = (Return Continue, w') /\
    calls w' = calls w ++ [(logic_id, active)] /\
    log w' =
      log w ++ [Debug_rx ECP_CMD_SET_LOGIC data; Debug_push logic_id active]
        ++ match callback logic_id active with
           | Some e => [Exception_logic_callback e]
           | None => []
           end /\
    futures w' = futures w /\
    client w' = client w /\
    listener_while (Return raw :: rest) w = listener_while rest w'.
Proof.
  intros Hparse Hun Hlen Hcb Hexc.
  destruct (data !! 2%nat) as [third|] eqn:Hthird;
    [|apply lookup_ge_None in Hthird; lia].
  assert (Hnth : nth 2 data x00 = third).
  { apply nth_lookup_Some with (d := x00) in Hthird. exact Hthird. }
  assert (Hbody :
    listener_body (Return raw) w =
      match push false ECP_CMD_SET_LOGIC data
              (with_futures (futures w)
                 (logging (Debug_rx ECP_CMD_SET_LOGIC data) w)) with
      | (Return _, w2) => (Return Continue, w2)
      | (Raise e, w2) => (Raise e, w2)
      end).
  { unfold listener_body. rewrite Hparse.
    cbn [logging client futures]. rewrite (deliver_unsolicited _ _ _ _ Hun).
    reflexivity. }
  rewrite (push_taken data _ callback) in Hbody by assumption.
  cbn zeta in Hbody.
  unfold slice in Hbody. rewrite drop_0, Hnth in Hbody. cbn [Nat.sub] in Hbody.
  cbn [listener_while]. rewrite Hbody. clear Hbody.
  destruct (callback (int_from_bytes_big (take 2 data))
              (negb (Z_of_byte third =? 0))) as [e|] eqn:Ecall.
  - rewrite (Hexc _ _ _ Ecall).
    eexists third, _. split; [reflexivity|]. cbn zeta. rewrite Ecall.
    split; [reflexivity|]. split; [reflexivity|].
    split; [cbn; rewrite <- !app_assoc; reflexivity|].
    split; [reflexivity|]. split; reflexivity.
  - eexists third, _. split; [reflexivity|]. cbn zeta. rewrite Ecall.
    split; [reflexivity|]. split; [reflexivity|].
    split; [cbn; rewrite <- !app_assoc; reflexivity|].
    split; [reflexivity|]. split; reflexivity.
Qed.

Lemma C7_unsolicited_logic_frame_pushed_witness :
  exists w',
    listener_body (Return frame_0x42_active) world_raising_callback
      = (Return Continue, w') /\
    calls w' = [(0x42, true)] /\
    log w' =
      [Debug_rx ECP_CMD_SET_LOGIC [x00; x42; x01]; Debug_push 0x42 true;
       Exception_logic_callback (OtherException 0)].
Proof.
  destruct (C7_unsolicited_logic_frame_pushed
              frame_0x42_active 3 [x00; x42; x01]
              (fun _ _ => Some (OtherException 0)) world_raising_callback [])
    as (third & w' & Hthird & Hbody & Hcalls & Hlog & _).
  - reflexivity.
  - intros pid a fut Hin. inversion Hin.
  - simpl. lia.
  - reflexivity.
  - intros logic_id state e He. inversion He. reflexivity.
  - cbn in Hthird. inversion Hthird; subst third. cbn zeta in *.
    exists w'. split; [exact Hbody|]. split; [exact Hcalls|exact Hlog].
Defined.

(** ** How the listener loop ends *)

Lemma callback_raises_Exception_only_client (w w' : World) :
  client w' = client w ->
  callback_raises_Exception_only w -> callback_raises_Exception_only w'.
Proof. unfold callback_raises_Exception_only. intros ->. trivial. Qed.

(** Blocks of 16 bytes are handled one after the other, and the loop
    goes on to the read that follows them. *)
Lemma listener_while_blocks (blocks : list bytes) (rest : list (result bytes))
    (w : World) :
  Forall (fun block => length block = 16%nat) blocks ->
  callback_raises_Exception_only w ->
  exists w',
    listener_while (map Return blocks ++ rest) w = listener_while rest w' /\
    client w' = client w.
Proof.
  intros Hblocks. revert w.
  induction Hblocks as [|block blocks Hlen _ IH]; intros w Hcb.
  - exists w. split; reflexivity.
  - destruct (listener_body_continues block w Hlen Hcb) as (w1 & Hb).
    pose proof (listener_body_client _ _ _ _ Hb) as Hcl.
    destruct (IH w1 (callback_raises_Exception_only_client _ _ Hcl Hcb))
      as (w' & Hrun & Hcl').
    exists w'. split; [|congruence].
    cbn [map app listener_while]. rewrite Hb. exact Hrun.
Qed.

(** C8, as the specification states it, fails: the end of the stream and
    a cancellation are not the only things that end the loop.  An error of
    the socket, which is neither, makes the read raise [OSError]; the
    handler around the loop catches it and logs it as a crash, and the
    listener task is done.  The frame that follows is never read: the
    request it would have completed (second part) stays pending. *)
Lemma C8_counterexample :
  (exists w',
     _listener_loop 0 [Raise OSError; Return frame_0x42_active]
       world_one_request = (Returned, w') /\
     tasks w' = [TaskDone] /\
     futures w' = [request_0x42] /\
     log w' = [Exception_listener_crashed OSError]) /\
  (exists w',
     _listener_loop 0 [Return frame_0x42_active] world_one_request
       = (Suspended, w') /\
     tasks w' = [TaskRunning] /\
     futures w' =
       [completed ECP_CMD_SET_LOGIC [x00; x42; x01] request_0x42]).
Proof.
  split; eexists; (split; [vm_compute; reflexivity|]); repeat split.
Qed.

(** C8, amended.  No frame ends the loop.  What [readexactly] returns is
    a block of 16 bytes: such a block always decodes and its dispatch
    raises nothing, so that, as long as what the callback raises is an
    [Exception], the turn ends with the loop going on to the next read,
    and so after any number of frames.  An [Exception] raised by the
    callback is caught and logged.  What ends the loop is a read that
    raises: the end of the stream (logged as a warning), a cancellation,
    and also any other [Exception], such as the [OSError] of a broken
    connection, which the handler around the loop logs as a crash; the
    loop then ends without raising. *)
Theorem C8_listener_loop_endings (w : World) (rest : list (result bytes)) :
  (forall raw,
     length raw = 16%nat ->
     callback_raises_Exception_only w ->
     exists w',
       listener_body (Return raw) w = (Return Continue, w') /\
       listener_while (Return raw :: rest) w = listener_while rest w') /\
  (forall raw,
     length raw = 16%nat ->
     exists len cmd data fs delivered,
       _parse_block raw = Return (len, cmd, data) /\
       deliver cmd data (_pending (client w)) (futures w)
         = Return (fs, delivered)) /\
  (forall blocks,
     Forall (fun block => length block = 16%nat) blocks ->
     callback_raises_Exception_only w ->
     exists w',
       listener_while (map Return blocks ++ rest) w = listener_while rest w' /\
       client w' = client w) /\
  (forall data callback e,
     (3 <= length data)%nat ->
     _logic_callback (client w) = Some callback ->
     let logic_id := int_from_bytes_big (slice 0 2 data) in
     let state := negb (Z_of_byte (nth 2 data x00) =? 0) in
     callback logic_id state = Some e ->
     is_Exception e = true ->
     push false ECP_CMD_SET_LOGIC data w =
       (Return tt,
        logging (Exception_logic_callback e)
          (calling logic_id state (logging (Debug_push logic_id state) w)))) /\
  (forall e,
     is_Exception e = true -> e <> IncompleteReadError ->
     listener_while (Raise e :: rest) w =
       (Returned, logging (Exception_listener_crashed e) w)) /\
  listener_while (Raise IncompleteReadError :: rest) w =
    (Returned, logging Warning_connection_lost w) /\
  listener_while (Raise CancelledError :: rest) w = (Returned, w).
Proof.
  split; [|split; [|split; [|split; [|split; [|split]]]]].
  - intros raw Hlen Hcb.
    destruct (listener_body_continues raw w Hlen Hcb) as (w' & Hb).
    exists w'. split; [assumption|]. cbn [listener_while]. rewrite Hb.
    reflexivity.
  - intros raw Hlen.
    destruct (_parse_block_16 raw Hlen) as (len & cmd & data & Hparse).
    destruct (deliver_returns cmd data (_pending (client w)) (futures w))
      as (fs & delivered & Hdeliver).
    exists len, cmd, data, fs, delivered. split; assumption.
  - intros blocks Hblocks Hcb.
    exact (listener_while_blocks blocks rest w Hblocks Hcb).
  - intros data callback e Hlen Hcb logic_id state Hcall Hexc.
    rewrite (push_taken data w callback Hlen Hcb). cbn zeta.
    fold logic_id state. rewrite Hcall, Hexc. reflexivity.
  - intros e Hexc Hne.
    destruct e; try discriminate Hexc; try contradiction; reflexivity.
  - reflexivity.
  - reflexivity.
Qed.

Lemma C8_listener_loop_endings_witness :
  (exists w',
     listener_while [Return frame_0x42_active; Raise CancelledError]
       world_raising_callback = (Returned, w') /\
     log w' =
       [Debug_rx ECP_CMD_SET_LOGIC [x00; x42; x01]; Debug_push 0x42 true;
        Exception_logic_callback (OtherException 0)]) /\
  (exists w',
     listener_while
       [Return frame_0x42_active; Return frame_one_byte;
        Raise IncompleteReadError] world_raising_callback
     = (Returned, logging Warning_connection_lost w')) /\
  listener_while [Raise OSError] world_idle =
    (Returned, logging (Exception_listener_crashed OSError) world_idle).
Proof.
  assert (Hraising : callback_raises_Exception_only world_raising_callback).
  { intros callback logic_id state e Hcb He.
    inversion Hcb; subst callback. inversion He. reflexivity. }
  split; [|split].
  - destruct (C8_listener_loop_endings world_raising_callback
                [Raise CancelledError]) as (Hframe & _).
    destruct (Hframe frame_0x42_active eq_refl Hraising)
      as (w' & Hbody & Hloop).
    rewrite Hloop. vm_compute in Hbody. inversion Hbody; subst w'.
    eexists. split; reflexivity.
  - destruct (C8_listener_loop_endings world_raising_callback
                [Raise IncompleteReadError]) as (_ & _ & Hblocks & _).
    destruct (Hblocks [frame_0x42_active; frame_one_byte]) as (w' & Hrun & _).
    + repeat constructor.
    + exact Hraising.
    + exists w'. cbn [map app] in Hrun. rewrite Hrun.
      destruct (C8_listener_loop_endings w' []) as (_ & _ & _ & _ & _ & Heof & _).
      exact Heof.
  - destruct (C8_listener_loop_endings world_idle [])
      as (_ & _ & _ & _ & Hread & _).
    apply (Hread OSError); [reflexivity|discriminate].
Defined.

(** ** Timeout of a request *)

Lemma listener_body_keeps_done raw (w w' : World) r a fut :
  futures w !! a = Some fut -> done fut = true ->
  listener_body raw w = (r, w') ->
  futures w' !! a = Some fut.
Proof.
  intros Hl Hdone. unfold listener_body. destruct raw as [raw|e].
  - destruct (_parse_block raw) as [[[len cmd] data]|e];
      [|intros H; inversion H; subst; assumption].
    cbn [logging client futures].
    destruct (deliver cmd data _ _) as [[fs delivered]|e] eqn:Hd;
      [|intros H; inversion H; subst; assumption].
    apply (deliver_keeps_done _ _ _ _ _ _ _ _ Hl Hdone) in Hd.
    destruct (push delivered cmd data _) as [[u|e] w2] eqn:Hp;
      apply push_client in Hp as [_ Hf]; intros H; inversion H; subst;
      rewrite Hf; exact Hd.
  - destruct e; intros H; inversion H; subst; assumption.
Qed.

Lemma listener_while_keeps_done (reads : list (result bytes)) :
  forall (w w' : World) st a fut,
    futures w !! a = Some fut -> done fut = true ->
    listener_while reads w = (st, w') ->
    futures w' !! a = Some fut.
Proof.
  induction reads as [|raw rest IH]; intros w w' st a fut Hl Hdone.
  - cbn. intros H. inversion H; subst. assumption.
  - cbn [listener_while].
    destruct (listener_body raw w) as [[[|]|e] w1] eqn:Hb;
      pose proof (listener_body_keeps_done _ _ _ _ _ _ Hl Hdone Hb) as Hl1.
    + apply IH; assumption.
    + intros H. inversion H; subst. assumption.
    + destruct e; cbn; intros H; inversion H; subst; assumption.
  Qed.

(** C5. When the timer of [wait_for] expires on a request whose future is
    still pending, that is when no frame has answered it in the window,
    [send_command] raises the protocol error that reports the timeout, the
    request is out of the dictionary while the other entries stay, its
    future is cancelled, and whatever the listener reads afterwards leaves
    that future alone. *)
Theorem C5_timeout_removes_request
    (command_id : Z) (data : bytes) (logic_id : option Z)
    (opened : result (StreamReader * StreamWriter)) (drained : option exn)
    (meanwhile : World -> World) (w w1 : World)
    (pid : Z) (a : nat) (fut : Future) :
  send_command_begin command_id data logic_id opened drained w
    = (Return (pid, a), w1) ->
  futures (meanwhile w1) !! a = Some fut ->
  fstate fut = FPending ->
  exists w',
    send_command command_id data logic_id opened drained meanwhile w
      = (Raise (DHDProtocolError_timeout command_id), w') /\
    (pid ∉ map fst (_pending (client w'))) /\
    (forall p b, p <> pid ->
       ((p, b) ∈ _pending (client w')
          <-> (p, b) ∈ _pending (client (meanwhile w1)))) /\
    futures w' =
      <[a := mkFuture (_dhd_match fut) FCancelled]> (futures (meanwhile w1)) /\
    futures w' !! a = Some (mkFuture (_dhd_match fut) FCancelled) /\
    (forall reads st w'',
       listener_while reads w' = (st, w'') ->
       futures w'' !! a = Some (mkFuture (_dhd_match fut) FCancelled)).
Proof.
  intros Hbegin Hl Hpend.
  assert (Hcancel : cancel fut = mkFuture (_dhd_match fut) FCancelled).
  { unfold cancel, done. rewrite Hpend. reflexivity. }
  assert (Hfin :
    send_command_finish command_id pid a (meanwhile w1) =
      (Raise (DHDProtocolError_timeout command_id),
       with_client
         (set_pending (dict_pop pid (_pending (client (meanwhile w1))))
            (client (meanwhile w1)))
         (with_futures
            (<[a := mkFuture (_dhd_match fut) FCancelled]>
               (futures (meanwhile w1)))
            (meanwhile w1)))).
  { unfold send_command_finish, wait_for. rewrite Hl, Hpend, Hcancel.
    reflexivity. }
  eexists. split; [unfold send_command; rewrite Hbegin; exact Hfin|].
  cbn [with_client with_futures set_pending client futures _pending].
  assert (Hla :
    <[a := mkFuture (_dhd_match fut) FCancelled]> (futures (meanwhile w1)) !! a
      = Some (mkFuture (_dhd_match fut) FCancelled)).
  { apply list_lookup_insert_eq. eapply lookup_lt_Some. exact Hl. }
  split; [apply dict_pop_absent|].
  split; [intros p b Hne; apply dict_pop_other; assumption|].
  split; [reflexivity|]. split; [exact Hla|].
  intros reads st w'' Hrun.
  eapply listener_while_keeps_done; [| |exact Hrun]; [exact Hla|reflexivity].
Qed.

Lemma C5_timeout_removes_request_witness :
  exists w',
    send_command ECP_CMD_SET_LOGIC [x00; x42] (Some 0x42) (Raise OSError) None
      (fun w => w) world_idle
      = (Raise (DHDProtocolError_timeout ECP_CMD_SET_LOGIC), w') /\
    _pending (client w') = [] /\
    futures w' = [mkFuture (ECP_CMD_SET_LOGIC, Some 0x42) FCancelled].
Proof.
  edestruct (C5_timeout_removes_request
               ECP_CMD_SET_LOGIC [x00; x42] (Some 0x42) (Raise OSError) None
               (fun w => w) world_idle)
    as (w' & Hsend & _).
  - vm_compute. reflexivity.
  - reflexivity.
  - reflexivity.
  - exists w'. split; [exact Hsend|].
    vm_compute in Hsend. inversion Hsend; subst w'. split; reflexivity.
Defined.

(** ** Query of a logic state *)

Lemma int_to_bytes_big_2 (logic_id : Z) :
  0 <= logic_id < 2 ^ 16 ->
  int_to_bytes_big 2 logic_id =
    Return [byte_of_Z (logic_id / 2 ^ 8); byte_of_Z logic_id].
Proof.
  intros H. unfold int_to_bytes_big.
  replace (256 ^ Z.of_nat 2) with (2 ^ 16) by reflexivity.
  destruct (Z.leb_spec 0 logic_id); [|lia].
  destruct (Z.ltb_spec logic_id (2 ^ 16)); [|lia].
  cbn [andb]. rewrite be_digits_2. reflexivity.
Qed.

(** C6. [get_logic_state] calls [send_command] with the logic command, the
    two bytes of the logic identifier most significant first, and the
    identifier as the key of the reply: on a connected client that puts the
    block of that command and data on the wire and registers a future that
    expects that command and that identifier.  What [send_command] raises
    is raised; a reply of fewer than 3 bytes raises the protocol error on
    its length; otherwise the answer is whether the third byte of the reply
    is non-zero. *)
Theorem C6_get_logic_state
    (logic_id : Z) (opened : result (StreamReader * StreamWriter))
    (drained : option exn) (meanwhile : World -> World) (w : World) :
  0 <= logic_id < 2 ^ 16 ->
  let hi := byte_of_Z (logic_id / 2 ^ 8) in
  let lo := byte_of_Z logic_id in
  int_from_bytes_big [hi; lo] = logic_id /\
  (forall e w1,
     send_command ECP_CMD_SET_LOGIC [hi; lo] (Some logic_id)
       opened drained meanwhile w = (Raise e, w1) ->
     get_logic_state logic_id opened drained meanwhile w = (Raise e, w1)) /\
  (forall resp_cmd resp_data w1,
     send_command ECP_CMD_SET_LOGIC [hi; lo] (Some logic_id)
       opened drained meanwhile w = (Return (resp_cmd, resp_data), w1) ->
     ((length resp_data < 3)%nat ->
        get_logic_state logic_id opened drained meanwhile w
          = (Raise (DHDProtocolError_response_length (length resp_data)), w1)) /\
     (forall third,
        resp_data !! 2%nat = Some third ->
        get_logic_state logic_id opened drained meanwhile w
          = (Return (negb (Z_of_byte third =? 0)), w1) /\
        (negb (Z_of_byte third =? 0) = true <-> third <> x00))) /\
  (forall wr,
     _writer (client w) = Some wr -> is_closing wr = false ->
     exists w1,
       send_command_begin ECP_CMD_SET_LOGIC [hi; lo] (Some logic_id)
         opened None w
         = (Return (_pending_id (client w) + 1, length (futures w)), w1) /\
       _writer (client w1) =
         Some (mkWriter false
                 (written wr ++
                    [[x02; x00; x11; x0e; x00; x00; hi; lo; x00; x00; x00;
                      x00; x00; x00; x00; x00]])) /\
       futures w1 =
         futures w ++ [mkFuture (ECP_CMD_SET_LOGIC, Some logic_id) FPending] /\
       _pending (client w1) =
         dict_set (_pending_id (client w) + 1) (length (futures w))
           (_pending (client w))).
Proof.
  intros Hid hi lo.
  assert (Hdata : int_to_bytes_big 2 logic_id = Return [hi; lo])
    by (apply int_to_bytes_big_2; assumption).
  split; [|split; [|split]].
  - unfold hi, lo. rewrite <- (be_digits_2 logic_id).
    rewrite int_from_bytes_big_be_digits by lia. apply Z.mod_small.
    replace (256 ^ Z.of_nat 2) with (2 ^ 16) by reflexivity. assumption.
  - intros e w1 Hsend. unfold get_logic_state. rewrite Hdata, Hsend.
    reflexivity.
  - intros resp_cmd resp_data w1 Hsend. split.
    + intros Hlen. unfold get_logic_state. rewrite Hdata, Hsend.
      destruct (Nat.ltb_spec (length resp_data) 3); [reflexivity|lia].
    + intros third Hthird. split.
      * unfold get_logic_state. rewrite Hdata, Hsend.
        pose proof (lookup_lt_Some _ _ _ Hthird) as Hlt.
        destruct (Nat.ltb_spec (length resp_data) 3); [lia|].
        apply nth_lookup_Some with (d := x00) in Hthird. rewrite Hthird.
        reflexivity.
      * rewrite negb_true_iff, Z.eqb_neq. split.
        -- intros Hz ->. apply Hz. reflexivity.
        -- intros Hne Hz. apply Hne.
           rewrite <- (byte_of_Z_of_byte third), Hz. reflexivity.
  - intros wr Hwr Hclosing. eexists.
    unfold send_command_begin, _ensure_connected, connected.
    rewrite Hwr, Hclosing. cbn [negb]. rewrite Hwr.
    unfold _build_block. cbn [length Nat.ltb Nat.leb].
    replace (int_to_bytes_big 4 ECP_CMD_SET_LOGIC)
      with (Return [x11; x0e; x00; x00] : result bytes) by reflexivity.
    cbn [mbind result_bind ljust length Nat.sub repeat app].
    replace (byte_of_Z (Z.of_nat 2)) with x02 by reflexivity.
    rewrite Hclosing.
    split; [reflexivity|]. split; [reflexivity|]. split; reflexivity.
Qed.

Lemma C6_get_logic_state_witness :
  get_logic_state 0x42 (Raise OSError) None
    (fun w =>
       with_futures
         [mkFuture (ECP_CMD_SET_LOGIC, Some 0x42)
            (FResult (ECP_CMD_SET_LOGIC, [x00; x42; x01]))] w)
    world_idle
  = (Return true,
     with_futures
       [mkFuture (ECP_CMD_SET_LOGIC, Some 0x42)
          (FResult (ECP_CMD_SET_LOGIC, [x00; x42; x01]))]
       (with_client
          (mkClient (Some (mkReader 0))
             (Some (mkWriter false
                      [[x02; x00; x11; x0e; x00; x00; x00; x42; x00; x00; x00;
                        x00; x00; x00; x00; x00]]))
             (Some 0%nat) [] 1 None)
          (logging (Debug_tx ECP_CMD_SET_LOGIC [x00; x42]) world_idle))).
Proof.
  destruct (C6_get_logic_state 0x42 (Raise OSError) None
              (fun w =>
                 with_futures
                   [mkFuture (ECP_CMD_SET_LOGIC, Some 0x42)
                      (FResult (ECP_CMD_SET_LOGIC, [x00; x42; x01]))] w)
              world_idle ltac:(lia))
    as (_ & _ & Hreply & _).
  edestruct Hreply as [_ Hthird].
  - vm_compute. reflexivity.
  - destruct (Hthird x01 eq_refl) as [Hget _]. exact Hget.
Defined.

(** ** A connection attempt that fails *)

(** C10. When the attempt to open the connection raises [OSError] or
    [TimeoutError] on a client that is not connected, [connect] raises the
    connection error with the reader and the writer both reset to [None]:
    the client is not connected, no listener task was created, and nothing
    else in the world has changed.  On a client that had neither reader nor
    writer, the world is the one before the call. *)
Theorem C10_failed_connect_resets_streams (err : exn) (w : World) :
  is_OSError_or_TimeoutError err = true ->
  connected (client w) = false ->
  exists w',
    connect (Raise err) w = (Raise DHDConnectionError_failed_to_connect, w') /\
    _reader (client w') = None /\
    _writer (client w') = None /\
    connected (client w') = false /\
    _listener_task (client w') = _listener_task (client w) /\
    tasks w' = tasks w /\
    _pending (client w') = _pending (client w) /\
    _pending_id (client w') = _pending_id (client w) /\
    _logic_callback (client w') = _logic_callback (client w) /\
    futures w' = futures w /\
    log w' = log w /\
    calls w' = calls w /\
    (_reader (client w) = None -> _writer (client w) = None -> w' = w).
Proof.
  intros Herr Hconn. eexists. split.
  - unfold connect. rewrite Hconn, Herr. reflexivity.
  - repeat (split; [reflexivity|]).
    intros Hr Hw. destruct w as [[r wr t p n cb] fs ts lg cs].
    cbn in Hr, Hw. subst r wr. reflexivity.
Qed.

Lemma C10_failed_connect_resets_streams_witness :
  connect (Raise OSError) world_init
    = (Raise DHDConnectionError_failed_to_connect, world_init).
Proof.
  destruct (C10_failed_connect_resets_streams OSError world_init eq_refl eq_refl)
    as (w' & Hconnect & _ & _ & _ & _ & _ & _ & _ & _ & _ & _ & _ & Hsame).
  rewrite Hconnect, (Hsame eq_refl eq_refl). reflexivity.
Defined.

(** * Further properties of the codec *)

(** The digits of an integer read back from bytes are those bytes. *)
Lemma be_digits_int_from_bytes_big (bs : bytes) :
  be_digits (length bs) (int_from_bytes_big bs) = bs.
Proof.
  induction bs as [|b bs IH] using rev_ind; [reflexivity|].
  rewrite length_app, Nat.add_comm. cbn [length Nat.add be_digits].
  rewrite int_from_bytes_big_snoc.
  pose proof (Z_of_byte_range b) as Hb.
  replace ((int_from_bytes_big bs * 256 + Z_of_byte b) / 256)
    with (int_from_bytes_big bs)
    by (apply Z.div_unique with (r := Z_of_byte b); lia).
  replace ((int_from_bytes_big bs * 256 + Z_of_byte b) mod 256)
    with (Z_of_byte b)
    by (apply Z.mod_unique with (q := int_from_bytes_big bs); lia).
  rewrite IH, byte_of_Z_of_byte. reflexivity.
Qed.

Lemma int_from_bytes_big_range (bs : bytes) :
  0 <= int_from_bytes_big bs < 256 ^ Z.of_nat (length bs).
Proof.
  induction bs as [|b bs IH] using rev_ind; [cbn; lia|].
  rewrite int_from_bytes_big_snoc, length_app, Nat.add_comm.
  cbn [length Nat.add]. rewrite Nat2Z.inj_succ, Z.pow_succ_r by lia.
  pose proof (Z_of_byte_range b). lia.
Qed.

(** What [_build_block] returns tells the arguments were in range. *)
Lemma _build_block_returns_inv (command_id : Z) (data block : bytes) :
  _build_block command_id data = Return block ->
  0 <= command_id < 2 ^ 32 /\ (length data <= 8)%nat.
Proof.
  unfold _build_block, int_to_bytes_big.
  destruct (Nat.ltb_spec 8 (length data)); [discriminate|].
  replace (256 ^ Z.of_nat 4) with (2 ^ 32) by reflexivity.
  destruct (Z.leb_spec 0 command_id); [|discriminate].
  destruct (Z.ltb_spec command_id (2 ^ 32)); [|discriminate].
  intros _. lia.
Qed.

(** Parsing what was built, for use in the proofs below. *)
Lemma _parse_block_build_block (command_id : Z) (data block : bytes) :
  _build_block command_id data = Return block ->
  _parse_block block = Return (length data, command_id, data).
Proof.
  intros Hb. destruct (_build_block_returns_inv _ _ _ Hb) as [Hc Hlen].
  rewrite (_build_block_ok command_id data Hc Hlen) in Hb.
  assert (Hblock :
    block = [byte_of_Z (Z.of_nat (length data)); x00]
              ++ be_digits 4 command_id ++ ljust 8 data ++ [x00; x00])
    by congruence.
  rewrite Hblock. clear Hb Hblock block.
  unfold _parse_block.
  set (cmd4 := be_digits 4 command_id).
  assert (Hl4 : length cmd4 = 4%nat) by apply length_be_digits.
  assert (Hl8 : length (ljust 8 data) = 8%nat) by (apply length_ljust; lia).
  assert (Hlen16 :
    length ([byte_of_Z (Z.of_nat (length data)); x00]
              ++ cmd4 ++ ljust 8 data ++ [x00; x00]) = ECP_BLOCK_SIZE).
  { rewrite !length_app, Hl4, Hl8. reflexivity. }
  rewrite Hlen16, Nat.eqb_refl. cbn [negb].
  assert (Hb0 : Z.to_nat (Z_of_byte (byte_of_Z (Z.of_nat (length data))))
                = length data)
    by (rewrite Z_of_byte_small by lia; lia).
  cbn [app nth]. rewrite Hb0. f_equal. f_equal; [f_equal|].
  - unfold slice. cbn [drop Nat.sub]. rewrite drop_0.
    rewrite take_app_length' by (symmetry; exact Hl4).
    unfold cmd4. rewrite int_from_bytes_big_be_digits by lia.
    apply Z.mod_small. exact Hc.
  - unfold slice.
    replace (6 + length data - 6)%nat with (length data) by lia.
    change (drop 6 (byte_of_Z (Z.of_nat (length data)) :: x00
                      :: cmd4 ++ ljust 8 data ++ [x00; x00]))
      with (drop 4 (cmd4 ++ ljust 8 data ++ [x00; x00])).
    rewrite drop_app_length' by (symmetry; exact Hl4).
    unfold ljust. rewrite <- app_assoc. apply take_app_length.
Qed.

(** X1. A block of 16 bytes whose length byte is at most 8, whose byte 1
    is zero and whose bytes after the data are all zero is the block
    [_build_block] makes of what [_parse_block] reads from it. *)
Theorem X1_build_parse_roundtrip
    (block : bytes) (len : nat) (command_id : Z) (data : bytes) :
  _parse_block block = Return (len, command_id, data) ->
  (len <= 8)%nat ->
  block !! 1%nat = Some x00 ->
  drop (6 + len) block = repeat x00 (10 - len) ->
  _build_block command_id data = Return block.
Proof.
  intros Hparse Hlen Hb1 Hzero.
  assert (Hlen16 : length block = 16%nat).
  { destruct (Nat.eq_dec (length block) 16%nat) as [E|E]; [exact E|].
    rewrite (_parse_block_not_16 block E) in Hparse. discriminate. }
  unfold _parse_block in Hparse. rewrite Hlen16 in Hparse.
  cbn [Nat.eqb ECP_BLOCK_SIZE negb] in Hparse.
  injection Hparse as Hl Hc Hd. rewrite Hl in Hd.
  do 6 (destruct block as [|? block]; [discriminate Hlen16|]).
  cbn [nth] in Hl. cbn [lookup list_lookup] in Hb1. inversion Hb1; subst b0.
  assert (Hc' : int_from_bytes_big [b1; b2; b3; b4] = command_id)
    by (rewrite <- Hc; reflexivity).
  assert (Hd' : take len block = data).
  { rewrite <- Hd. unfold slice. cbn [drop]. rewrite ?drop_0. f_equal. lia. }
  clear Hc Hd. rename Hc' into Hc. rename Hd' into Hd.
  change (drop (6 + len) _) with (drop len block) in Hzero.
  cbn [length] in Hlen16.
  assert (Hdata : length data = len).
  { rewrite <- Hd, length_take. lia. }
  assert (Hcmd : 0 <= command_id < 2 ^ 32).
  { rewrite <- Hc. apply (int_from_bytes_big_range [b1; b2; b3; b4]). }
  rewrite (_build_block_ok command_id data Hcmd) by lia.
  f_equal. rewrite Hdata, <- Hl.
  rewrite Z2Nat.id by (pose proof (Z_of_byte_range b); lia).
  rewrite byte_of_Z_of_byte. cbn [app]. f_equal. f_equal.
  rewrite <- Hc.
  pose proof (be_digits_int_from_bytes_big [b1; b2; b3; b4]) as Hdig.
  cbn [length] in Hdig. rewrite Hdig. cbn [app].
  do 4 f_equal.
  unfold ljust. rewrite Hdata, <- app_assoc.
  replace (repeat x00 (8 - len) ++ [x00; x00]) with (repeat x00 (10 - len)).
  - rewrite <- Hzero, <- Hd. apply take_drop.
  - replace (10 - len)%nat with ((8 - len) + 2)%nat by lia.
    rewrite repeat_app. reflexivity.
Qed.

Lemma X1_build_parse_roundtrip_witness :
  _build_block 0x110E0000 [x00; x42; x01] = Return frame_0x42_active.
Proof.
  apply (X1_build_parse_roundtrip frame_0x42_active 3).
  - reflexivity.
  - lia.
  - reflexivity.
  - reflexivity.
Defined.

(** X2. [_parse_block] reads byte 0, bytes 2 to 5 and the data bytes
    only: whatever byte 1, the padding after the data and the last two
    bytes hold, a block parses as the block that has zeros there. *)
Theorem X2_parse_block_ignores_reserved
    (len byte1 : byte) (cmd4 data pad trailer : bytes) :
  length cmd4 = 4%nat ->
  length data = Z.to_nat (Z_of_byte len) ->
  (length data + length pad = 8)%nat ->
  length trailer = 2%nat ->
  _parse_block ([len; byte1] ++ cmd4 ++ data ++ pad ++ trailer)
    = Return (length data, int_from_bytes_big cmd4, data) /\
  _parse_block ([len; byte1] ++ cmd4 ++ data ++ pad ++ trailer)
    = _parse_block ([len; x00] ++ cmd4 ++ ljust 8 data ++ [x00; x00]).
Proof.
  intros H4 Hd Hp Ht.
  assert (Hgen : forall b1 rest,
    (length data + length rest = 10)%nat ->
    _parse_block ([len; b1] ++ cmd4 ++ data ++ rest)
      = Return (length data, int_from_bytes_big cmd4, data)).
  { intros b1 rest Hrest. unfold _parse_block.
    assert (H16 : length ([len; b1] ++ cmd4 ++ data ++ rest) = ECP_BLOCK_SIZE).
    { rewrite !length_app, H4. unfold ECP_BLOCK_SIZE. cbn [length]. lia. }
    rewrite H16, Nat.eqb_refl. cbn [negb app nth]. rewrite <- Hd.
    unfold slice. cbn [drop Nat.sub]. rewrite drop_0.
    rewrite take_app_length' by (symmetry; exact H4).
    replace (6 + length data - 6)%nat with (length data) by lia.
    change (drop 6 (len :: b1 :: cmd4 ++ data ++ rest))
      with (drop 4 (cmd4 ++ data ++ rest)).
    rewrite drop_app_length' by (symmetry; exact H4).
    rewrite take_app_length. reflexivity. }
  split.
  - apply Hgen. rewrite length_app. lia.
  - rewrite (Hgen byte1 (pad ++ trailer)) by (rewrite length_app; lia).
    unfold ljust. rewrite <- app_assoc.
    rewrite (Hgen x00); [reflexivity|].
    rewrite length_app, repeat_length. cbn [length]. lia.
Qed.

Lemma X2_parse_block_ignores_reserved_witness :
  _parse_block
    [x02; xff; x11; x0e; x00; x00; x00; x42; xaa; xbb; xcc; xdd; xee; xff;
     x01; x02]
  = Return (2%nat, 0x110E0000, [x00; x42]).
Proof.
  destruct (X2_parse_block_ignores_reserved x02 xff [x11; x0e; x00; x00]
              [x00; x42] [xaa; xbb; xcc; xdd; xee; xff] [x01; x02]
              eq_refl eq_refl eq_refl eq_refl)
    as [Hparse _].
  exact Hparse.
Defined.

(** X3. [_build_block] is injective: two calls that return the same block
    were given the same command and the same data. *)
Theorem X3_build_block_injective
    (command_id command_id' : Z) (data data' block : bytes) :
  _build_block command_id data = Return block ->
  _build_block command_id' data' = Return block ->
  command_id = command_id' /\ data = data'.
Proof.
  intros H H'.
  apply _parse_block_build_block in H. apply _parse_block_build_block in H'.
  rewrite H in H'. inversion H'. auto.
Qed.

Lemma X3_build_block_injective_witness :
  2 ^ 32 + 0x110E0000 - 2 ^ 32 = 0x110E0000 /\
  [x00; x42] ++ [x01] = [x00; x42; x01].
Proof.
  apply (X3_build_block_injective (2 ^ 32 + 0x110E0000 - 2 ^ 32) 0x110E0000
           ([x00; x42] ++ [x01]) [x00; x42; x01] frame_0x42_active).
  - reflexivity.
  - reflexivity.
Defined.

(** X4. The two ways [_build_block] fails: data of more than 8 bytes
    raises the ValueError whatever the command is, and with data that fits,
    a command outside 32 bits raises the OverflowError of [to_bytes]; it
    returns in no other case. *)
Theorem X4_build_block_failures (command_id : Z) (data : bytes) :
  ((8 < length data)%nat ->
     _build_block command_id data = Raise (ValueError_data_too_long (length data))) /\
  ((length data <= 8)%nat -> ~ 0 <= command_id < 2 ^ 32 ->
     _build_block command_id data = Raise OverflowError) /\
  ((exists block, _build_block command_id data = Return block) <->
     (length data <= 8)%nat /\ 0 <= command_id < 2 ^ 32).
Proof.
  split; [|split].
  - apply _build_block_too_long.
  - intros Hlen Hc. unfold _build_block, int_to_bytes_big.
    destruct (Nat.ltb_spec 8 (length data)); [lia|].
    replace (256 ^ Z.of_nat 4) with (2 ^ 32) by reflexivity.
    destruct (Z.leb_spec 0 command_id); [|reflexivity].
    destruct (Z.ltb_spec command_id (2 ^ 32)); [lia|reflexivity].
  - split.
    + intros [block Hb]. apply _build_block_returns_inv in Hb. tauto.
    + intros [Hlen Hc]. eexists. apply _build_block_ok; assumption.
Qed.

Lemma X4_build_block_failures_witness :
  _build_block (2 ^ 32) [x00] = Raise OverflowError /\
  _build_block (2 ^ 32) (repeat x00 9) = Raise (ValueError_data_too_long 9) /\
  _build_block (-1) [] = Raise OverflowError.
Proof.
  destruct (X4_build_block_failures (2 ^ 32) [x00]) as (_ & Hover & _).
  destruct (X4_build_block_failures (2 ^ 32) (repeat x00 9)) as (Hlong & _).
  destruct (X4_build_block_failures (-1) []) as (_ & Hneg & _).
  split; [|split].
  - apply Hover; [simpl; lia|lia].
  - apply Hlong. simpl. lia.
  - apply Hneg; [simpl; lia|lia].
Defined.

(** * Further properties of the client *)

(** ** Stopping the listener and disconnecting *)

Lemma failed_by_disconnect_done (fut : Future) :
  done (failed_by_disconnect fut) = true.
Proof.
  unfold failed_by_disconnect. destruct (done fut) eqn:E; [exact E|reflexivity].
Qed.

Lemma failed_by_disconnect_idem (fut : Future) :
  failed_by_disconnect (failed_by_disconnect fut) = failed_by_disconnect fut.
Proof.
  unfold failed_by_disconnect at 1. rewrite failed_by_disconnect_done.
  reflexivity.
Qed.

(** The loop over the values of the dictionary returns, and fails exactly
    the futures it is given that are not done. *)
Lemma fail_pending_spec (vals : list nat) :
  forall fs : list Future,
    exists fs',
      fail_pending vals fs = Return fs' /\
      length fs' = length fs /\
      forall a,
        fs' !! a =
          if decide (a ∈ vals) then failed_by_disconnect <$> fs !! a
          else fs !! a.
Proof.
  induction vals as [|a0 rest IH]; intros fs.
  - exists fs. split; [reflexivity|]. split; [reflexivity|].
    intros a. case_decide as Hin; [inversion Hin|reflexivity].
  - cbn [fail_pending]. destruct (fs !! a0) as [fut|] eqn:Hl.
    + destruct (done fut) eqn:Hdone; cbn [negb].
      * destruct (IH fs) as (fs' & -> & Hlen & Hlook).
        exists fs'. split; [reflexivity|]. split; [exact Hlen|].
        intros a. rewrite Hlook.
        destruct (decide (a = a0)) as [->|Hne].
        -- rewrite Hl. cbn [fmap option_fmap option_map].
           assert (Hf : failed_by_disconnect fut = fut)
             by (unfold failed_by_disconnect; rewrite Hdone; reflexivity).
           rewrite Hf. rewrite (decide_True (P := a0 ∈ a0 :: rest))
             by (apply elem_of_cons; left; reflexivity).
           case_decide; reflexivity.
        -- destruct (decide (a ∈ rest)) as [Hin|Hin].
           ++ rewrite decide_True by (apply elem_of_cons; right; exact Hin).
              reflexivity.
           ++ rewrite decide_False; [reflexivity|].
              intros [?|?]%elem_of_cons; contradiction.
      * unfold set_exception. rewrite Hdone.
        cbn [mbind result_bind].
        assert (Hf : mkFuture (_dhd_match fut)
                       (FException DHDConnectionError_disconnected)
                     = failed_by_disconnect fut)
          by (unfold failed_by_disconnect; rewrite Hdone; reflexivity).
        rewrite Hf.
        destruct (IH (<[a0 := failed_by_disconnect fut]> fs))
          as (fs' & -> & Hlen & Hlook).
        exists fs'. split; [reflexivity|].
        split; [rewrite Hlen; apply length_insert|].
        intros a. rewrite Hlook.
        destruct (decide (a = a0)) as [->|Hne].
        -- rewrite list_lookup_insert_eq by (eapply lookup_lt_Some; exact Hl).
           rewrite Hl. cbn [fmap option_fmap option_map].
           rewrite failed_by_disconnect_idem.
           rewrite (decide_True (P := a0 ∈ a0 :: rest))
             by (apply elem_of_cons; left; reflexivity).
           case_decide; reflexivity.
        -- rewrite list_lookup_insert_ne by congruence.
           destruct (decide (a ∈ rest)) as [Hin|Hin].
           ++ rewrite decide_True by (apply elem_of_cons; right; exact Hin).
              reflexivity.
           ++ rewrite decide_False; [reflexivity|].
              intros [?|?]%elem_of_cons; contradiction.
    + destruct (IH fs) as (fs' & -> & Hlen & Hlook).
      exists fs'. split; [reflexivity|]. split; [exact Hlen|].
      intros a. rewrite Hlook.
      destruct (decide (a = a0)) as [->|Hne].
      * rewrite Hl. cbn [fmap option_fmap option_map].
        repeat case_decide; reflexivity.
      * destruct (decide (a ∈ rest)) as [Hin|Hin].
        -- rewrite decide_True by (apply elem_of_cons; right; exact Hin).
           reflexivity.
        -- rewrite decide_False; [reflexivity|].
           intros [?|?]%elem_of_cons; contradiction.
Qed.

(** [_stop_listener] spelled out. *)
Lemma _stop_listener_spec (w : World) :
  exists fs,
    fail_pending (_pending (client w)).*2 (futures w) = Return fs /\
    length fs = length (futures w) /\
    (forall a,
       fs !! a =
         if decide (a ∈ (_pending (client w)).*2)
         then failed_by_disconnect <$> futures w !! a
         else futures w !! a) /\
    _stop_listener w =
      (Return tt,
       mkWorld
         (mkClient (_reader (client w)) (_writer (client w)) None []
            (_pending_id (client w)) (_logic_callback (client w)))
         fs
         (match _listener_task (client w) with
          | Some t => cancel_task t (tasks w)
          | None => tasks w
          end)
         (log w) (calls w)).
Proof.
  destruct (fail_pending_spec (_pending (client w)).*2 (futures w))
    as (fs & Hfail & Hlen & Hlook).
  exists fs. split; [exact Hfail|]. split; [exact Hlen|].
  split; [exact Hlook|].
  unfold _stop_listener.
  destruct w as [[r wr t p n cb] fs0 ts lg cs]. cbn in *.
  destruct t as [t|]; cbn; change (map snd p) with (p.*2); rewrite Hfail;
    reflexivity.
Qed.

(** [disconnect] when nothing else runs during the wait: the writer that
    was closed is dropped by the [finally] clause. *)
Lemma disconnect_alone closed (w : World) :
  disconnect closed w =
    match _stop_listener w with
    | (Raise e, w1) => (Raise e, w1)
    | (Return _, w1) =>
        match _writer (client w1) with
        | Some _ =>
            let w2 :=
              logging Debug_disconnected
                (with_client (set_reader None (set_writer None (client w1))) w1) in
            match closed with
            | None => (Return tt, w2)
            | Some e =>
                if is_OSError_or_TimeoutError e
                then (Return tt, w2)
                else (Raise e, w2)
            end
        | None => (Return tt, w1)
        end
    end.
Proof.
  unfold disconnect, disconnect_awaiting.
  destruct (_stop_listener w) as [[u|e] w1]; [|reflexivity].
  destruct (_writer (client w1)); reflexivity.
Qed.

(** X5. [_stop_listener] always returns.  It leaves the dictionary empty
    and the client without listener task, asks the task it had to cancel,
    and fails with Disconnected every future of the dictionary that was not
    done; futures that were done and futures outside the dictionary are
    left as they were, as are the streams. *)
Theorem X5_stop_listener_fails_pending (w : World) :
  exists w',
    _stop_listener w = (Return tt, w') /\
    _pending (client w') = [] /\
    _listener_task (client w') = None /\
    (forall pid a fut,
       (pid, a) ∈ _pending (client w) -> futures w !! a = Some fut ->
       futures w' !! a = Some (failed_by_disconnect fut) /\
       done (failed_by_disconnect fut) = true /\
       (fstate fut = FPending ->
        fstate (failed_by_disconnect fut)
          = FException DHDConnectionError_disconnected) /\
       (done fut = true -> failed_by_disconnect fut = fut)) /\
    (forall a, a ∉ (_pending (client w)).*2 -> futures w' !! a = futures w !! a) /\
    length (futures w') = length (futures w) /\
    tasks w' =
      match _listener_task (client w) with
      | Some t => cancel_task t (tasks w)
      | None => tasks w
      end /\
    _reader (client w') = _reader (client w) /\
    _writer (client w') = _writer (client w).
Proof.
  destruct (_stop_listener_spec w) as (fs & _ & Hlen & Hlook & Hstop).
  eexists. split; [exact Hstop|]. cbn.
  split; [reflexivity|]. split; [reflexivity|].
  split; [|split; [|split; [exact Hlen|repeat split]]].
  - intros pid a fut Hin Hl. rewrite Hlook.
    rewrite decide_True
      by (apply list_elem_of_fmap; exists (pid, a); split; [reflexivity|exact Hin]).
    rewrite Hl. split; [reflexivity|].
    split; [apply failed_by_disconnect_done|]. split.
    + intros Hp. unfold failed_by_disconnect, done. rewrite Hp. reflexivity.
    + intros Hd. unfold failed_by_disconnect. rewrite Hd. reflexivity.
  - intros a Hnin. rewrite Hlook. rewrite decide_False by exact Hnin.
    reflexivity.
Qed.


(** ** Starting the listener and connecting *)

Lemma _start_listener_cases (w : World) :
  (_start_listener w = w /\
   exists t ts,
     _listener_task (client w) = Some t /\ tasks w !! t = Some ts /\
     task_done ts = false)
  \/
  (_start_listener w =
     with_client (set_listener_task (Some (length (tasks w))) (client w))
       (with_tasks (tasks w ++ [TaskRunning]) w) /\
   forall t ts,
     _listener_task (client w) = Some t -> tasks w !! t = Some ts ->
     task_done ts = true).
Proof.
  unfold _start_listener.
  destruct (_listener_task (client w)) as [t|] eqn:Ht.
  - destruct (tasks w !! t) as [ts|] eqn:Hts.
    + destruct (task_done ts) eqn:Hd; cbn [negb].
      * right. split; [reflexivity|]. intros t' ts' E1 E2. congruence.
      * left. split; [reflexivity|]. eauto.
    + right. split; [reflexivity|]. intros t' ts' E1 E2. congruence.
  - right. split; [reflexivity|]. intros t' ts' E1. discriminate.
Qed.

(** What [_start_listener] keeps, for the proofs below. *)
Lemma _start_listener_keeps (w : World) :
  _reader (client (_start_listener w)) = _reader (client w) /\
  _writer (client (_start_listener w)) = _writer (client w) /\
  _pending (client (_start_listener w)) = _pending (client w) /\
  _pending_id (client (_start_listener w)) = _pending_id (client w) /\
  _logic_callback (client (_start_listener w)) = _logic_callback (client w) /\
  futures (_start_listener w) = futures w /\
  log (_start_listener w) = log w /\
  calls (_start_listener w) = calls w /\
  (exists t ts,
     _listener_task (client (_start_listener w)) = Some t /\
     tasks (_start_listener w) !! t = Some ts /\
     task_done ts = false).
Proof.
  destruct (_start_listener_cases w) as [[Heq (t & ts & Ht & Hts & Hd)]|[Heq _]];
    rewrite Heq.
  - repeat (split; [reflexivity|]). eauto.
  - repeat (split; [reflexivity|]).
    exists (length (tasks w)), TaskRunning. split; [reflexivity|].
    split; [cbn; apply list_lookup_middle; reflexivity|reflexivity].
Qed.

(** X7. [_start_listener] leaves the client with a listener task that is
    not done.  When it already has one, nothing changes; otherwise one task
    is added to the event loop and the tasks that were there stay.  Only
    the task field of the client changes, and a second call changes
    nothing. *)
Theorem X7_start_listener_single (w : World) :
  (exists t ts,
     _listener_task (client (_start_listener w)) = Some t /\
     tasks (_start_listener w) !! t = Some ts /\
     task_done ts = false) /\
  (forall t ts,
     _listener_task (client w) = Some t -> tasks w !! t = Some ts ->
     task_done ts = false -> _start_listener w = w) /\
  (_start_listener w = w \/
   tasks (_start_listener w) = tasks w ++ [TaskRunning] /\
   _listener_task (client (_start_listener w)) = Some (length (tasks w))) /\
  set_listener_task (_listener_task (client w)) (client (_start_listener w))
    = client w /\
  futures (_start_listener w) = futures w /\
  _start_listener (_start_listener w) = _start_listener w.
Proof.
  destruct (_start_listener_cases w) as [[Heq (t & ts & Ht & Hts & Hd)]|[Heq Hdone]].
  - rewrite Heq. split; [eauto|]. split; [auto|]. split; [auto|].
    split; [destruct w as [[]]; reflexivity|]. split; [reflexivity|].
    exact Heq.
  - assert (Hnew :
      tasks (_start_listener w)
        !! length (tasks w) = Some TaskRunning).
    { rewrite Heq. cbn. apply list_lookup_middle. reflexivity. }
    split; [|split; [|split; [|split; [|split]]]].
    + exists (length (tasks w)), TaskRunning.
      split; [rewrite Heq; reflexivity|]. split; [exact Hnew|reflexivity].
    + intros t ts Ht Hts Hd. rewrite (Hdone t ts Ht Hts) in Hd. discriminate.
    + right. rewrite Heq. split; reflexivity.
    + rewrite Heq. destruct w as [[]]; reflexivity.
    + rewrite Heq. reflexivity.
    + destruct (_start_listener_cases (_start_listener w))
        as [[Heq' _]|[_ Hdone']]; [exact Heq'|].
      specialize (Hdone' (length (tasks w)) TaskRunning).
      rewrite Heq in Hdone' at 1. cbn in Hdone'.
      specialize (Hdone' eq_refl Hnew). discriminate.
Qed.

(** X8. [connect] on a connected client returns without looking at the
    answer of the connection attempt and changes nothing.  On a client
    that is not connected, an attempt that gives streams makes them the
    client's, logs the connection and leaves a listener task that is not
    done; the dictionary and the futures stay.  With a writer that is not
    closing the client is then connected, so that a second [connect], or
    [test_connection], returns whatever a new attempt would answer and
    leaves the world as it is. *)
Theorem X8_connect_once
    (r : StreamReader) (wr : StreamWriter)
    (opened' : result (StreamReader * StreamWriter)) (w : World) :
  (connected (client w) = true -> connect opened' w = (Return tt, w)) /\
  (connected (client w) = false ->
   exists w',
     connect (Return (r, wr)) w = (Return tt, w') /\
     _reader (client w') = Some r /\
     _writer (client w') = Some wr /\
     connected (client w') = negb (is_closing wr) /\
     (exists t ts,
        _listener_task (client w') = Some t /\ tasks w' !! t = Some ts /\
        task_done ts = false) /\
     _pending (client w') = _pending (client w) /\
     futures w' = futures w /\
     log w' = log w ++ [Debug_connected] /\
     (is_closing wr = false ->
      connect opened' w' = (Return tt, w') /\
      test_connection opened' w' = (Return true, w'))).
Proof.
  split.
  - intros Hc. unfold connect. rewrite Hc. reflexivity.
  - intros Hc. eexists. split; [unfold connect; rewrite Hc; reflexivity|].
    set (w1 := logging Debug_connected
                 (with_client
                    (set_writer (Some wr) (set_reader (Some r) (client w))) w)).
    destruct (_start_listener_keeps w1)
      as (Hreader & Hwriter & Hpending & _ & _ & Hfut & Hlog & _ & Htask).
    assert (Hconn : connected (client (_start_listener w1)) = negb (is_closing wr))
      by (unfold connected; rewrite Hwriter; reflexivity).
    split; [rewrite Hreader; reflexivity|].
    split; [rewrite Hwriter; reflexivity|]. split; [exact Hconn|].
    split; [exact Htask|].
    split; [rewrite Hpending; reflexivity|].
    split; [rewrite Hfut; reflexivity|]. split; [rewrite Hlog; reflexivity|].
    intros Hopen. rewrite Hopen in Hconn. cbn [negb] in Hconn.
    unfold test_connection, _ensure_connected, connect. rewrite Hconn.
    split; reflexivity.
Qed.

(** ** The shape of the dictionary of requests *)

Lemma pending_wf_ext (w w' : World) :
  _pending (client w') = _pending (client w) ->
  _pending_id (client w') = _pending_id (client w) ->
  length (futures w') = length (futures w) ->
  pending_wf w -> pending_wf w'.
Proof.
  unfold pending_wf. intros -> -> ->. trivial.
Qed.

Lemma pending_wf_empty (w : World) : _pending (client w) = [] -> pending_wf w.
Proof.
  unfold pending_wf. intros ->. cbn.
  split; [constructor|]. split; [constructor|]. split; constructor.
Qed.

Lemma pending_wf_fresh (w : World) :
  pending_wf w -> _pending_id (client w) + 1 ∉ map fst (_pending (client w)).
Proof.
  intros (_ & Hle & _) Hin. change (map fst ?l) with (l.*1) in Hin.
  rewrite Forall_forall in Hle. specialize (Hle _ Hin). lia.
Qed.

Lemma dict_pop_fst_sorted (k : Z) (d : list (Z * nat)) :
  StronglySorted Z.lt d.*1 -> StronglySorted Z.lt (dict_pop k d).*1.
Proof.
  unfold dict_pop. induction d as [|[k' v'] d IH]; intros Hs; [constructor|].
  cbn [fmap list_fmap] in Hs. apply StronglySorted_cons in Hs as [Hall Hs].
  rewrite filter_cons. case_decide as Hk.
  - cbn [fmap list_fmap]. apply StronglySorted_cons. split; [|apply IH, Hs].
    rewrite Forall_forall in Hall |- *. intros x Hx. apply Hall.
    apply list_elem_of_fmap in Hx as ([k0 v0] & -> & Hx).
    apply list_elem_of_filter in Hx as [_ Hx].
    apply list_elem_of_fmap. exists (k0, v0). auto.
  - apply IH, Hs.
Qed.

Lemma dict_pop_elem_of (k : Z) (d : list (Z * nat)) kv :
  kv ∈ dict_pop k d -> kv ∈ d.
Proof. unfold dict_pop. intros H. apply list_elem_of_filter in H. tauto. Qed.

Lemma dict_pop_snd_NoDup (k : Z) (d : list (Z * nat)) :
  NoDup d.*2 -> NoDup (dict_pop k d).*2.
Proof.
  unfold dict_pop. induction d as [|[k' v'] d IH]; intros Hn; [constructor|].
  cbn [fmap list_fmap] in Hn. apply NoDup_cons in Hn as [Hnin Hn].
  rewrite filter_cons. case_decide as Hk; [|apply IH, Hn].
  cbn [fmap list_fmap]. apply NoDup_cons. split; [|apply IH, Hn].
  intros Hin. apply Hnin.
  apply list_elem_of_fmap in Hin as ([k0 v0] & E & Hx).
  apply list_elem_of_filter in Hx as [_ Hx].
  apply list_elem_of_fmap. exists (k0, v0). auto.
Qed.

Lemma dict_pop_wf (k : Z) (w w' : World) :
  _pending (client w') = dict_pop k (_pending (client w)) ->
  _pending_id (client w') = _pending_id (client w) ->
  length (futures w') = length (futures w) ->
  pending_wf w -> pending_wf w'.
Proof.
  unfold pending_wf. intros -> -> -> (Hs & Hle & Hlt & Hn).
  split; [apply dict_pop_fst_sorted, Hs|].
  split; [|split; [|apply dict_pop_snd_NoDup, Hn]].
  - rewrite Forall_forall in Hle |- *. intros x Hx. apply Hle.
    apply list_elem_of_fmap in Hx as (kv & -> & Hx).
    apply list_elem_of_fmap. exists kv. split; [reflexivity|].
    eapply dict_pop_elem_of, Hx.
  - rewrite Forall_forall in Hlt |- *. intros x Hx. apply Hlt.
    apply list_elem_of_fmap in Hx as (kv & -> & Hx).
    apply list_elem_of_fmap. exists kv. split; [reflexivity|].
    eapply dict_pop_elem_of, Hx.
Qed.

(** Registering a request under the next identifier, with a future added
    at the end of the store. *)
Lemma register_wf (w w' : World) (fut : Future) :
  _pending (client w') =
    _pending (client w) ++ [(_pending_id (client w) + 1, length (futures w))] ->
  _pending_id (client w') = _pending_id (client w) + 1 ->
  futures w' = futures w ++ [fut] ->
  pending_wf w -> pending_wf w'.
Proof.
  unfold pending_wf. intros -> -> -> (Hs & Hle & Hlt & Hn).
  rewrite !fmap_app, length_app. cbn [fmap list_fmap fst snd length].
  split; [|split; [|split]].
  - apply StronglySorted_app. split; [|split; [exact Hs|]].
    + intros x y Hx Hy. apply list_elem_of_singleton in Hy as ->.
      rewrite Forall_forall in Hle. specialize (Hle _ Hx). lia.
    + apply StronglySorted_cons. split; constructor.
  - apply Forall_app. split.
    + eapply Forall_impl; [exact Hle|]. cbn. intros; lia.
    + constructor; [lia|constructor].
  - apply Forall_app. split.
    + eapply Forall_impl; [exact Hlt|]. cbn. intros; lia.
    + constructor; [lia|constructor].
  - apply NoDup_app. split; [exact Hn|]. split; [|apply NoDup_singleton].
    intros a Ha Ha'. apply list_elem_of_singleton in Ha' as ->.
    rewrite Forall_forall in Hlt. specialize (Hlt _ Ha). lia.
Qed.

Lemma deliver_length cmd data (items : list (Z * nat)) (fs fs' : list Future)
    delivered :
  deliver cmd data items fs = Return (fs', delivered) -> length fs' = length fs.
Proof.
  intros Hd.
  destruct (deliver_cases cmd data items fs)
    as [[_ Hd']|(pre & p & b & post & g & _ & _ & _ & _ & Hd')];
    rewrite Hd' in Hd; inversion Hd; subst; [reflexivity|].
  apply length_insert.
Qed.

Lemma listener_body_length raw (w w' : World) r :
  listener_body raw w = (r, w') -> length (futures w') = length (futures w).
Proof.
  unfold listener_body. destruct raw as [raw|e].
  - destruct (_parse_block raw) as [[[len cmd] data]|e];
      [|intros H; inversion H; reflexivity].
    cbn [logging client futures].
    destruct (deliver cmd data _ _) as [[fs delivered]|e] eqn:Hd;
      [|intros H; inversion H; reflexivity].
    apply deliver_length in Hd.
    destruct (push delivered cmd data _) as [[u|e] w2] eqn:Hp;
      apply push_client in Hp as [_ Hf]; intros H; inversion H; subst;
      rewrite Hf; exact Hd.
  - destruct e; intros H; inversion H; reflexivity.
Qed.

Lemma listener_while_keeps (reads : list (result bytes)) :
  forall (w w' : World) st,
    listener_while reads w = (st, w') ->
    client w' = client w /\ length (futures w') = length (futures w).
Proof.
  induction reads as [|raw rest IH]; intros w w' st.
  - cbn. intros H. inversion H; subst. auto.
  - cbn [listener_while].
    destruct (listener_body raw w) as [[[|]|e] w1] eqn:Hb;
      pose proof (listener_body_client _ _ _ _ Hb) as Hc;
      pose proof (listener_body_length _ _ _ _ Hb) as Hl.
    + intros H. apply IH in H as [Hc' Hl']. split; congruence.
    + intros H. inversion H; subst. auto.
    + destruct e; cbn; intros H; inversion H; subst; auto.
Qed.

Lemma connect_keeps opened (w : World) :
  _pending (client (connect opened w).2) = _pending (client w) /\
  _pending_id (client (connect opened w).2) = _pending_id (client w) /\
  futures (connect opened w).2 = futures w.
Proof.
  unfold connect. destruct (connected (client w)); [auto|].
  destruct opened as [[r wr]|e].
  - cbn [snd].
    destruct (_start_listener_keeps
                (logging Debug_connected
                   (with_client
                      (set_writer (Some wr) (set_reader (Some r) (client w))) w)))
      as (_ & _ & Hp & Hid & _ & Hf & _).
    rewrite Hp, Hid, Hf. auto.
  - destruct (is_OSError_or_TimeoutError e); auto.
Qed.

Lemma _ensure_connected_keeps opened (w : World) :
  _pending (client (_ensure_connected opened w).2) = _pending (client w) /\
  _pending_id (client (_ensure_connected opened w).2) = _pending_id (client w) /\
  futures (_ensure_connected opened w).2 = futures w.
Proof.
  unfold _ensure_connected. destruct (negb (connected (client w))); [|auto].
  apply connect_keeps.
Qed.

(** [send_command_begin] on a connected client: the request is registered
    at the end of the dictionary before anything else is tried. *)
Lemma send_command_begin_connected
    (command_id : Z) (data : bytes) (logic_id : option Z)
    (opened : result (StreamReader * StreamWriter)) (drained : option exn)
    (w : World) (wr : StreamWriter) :
  _writer (client w) = Some wr -> is_closing wr = false -> pending_wf w ->
  let pid := _pending_id (client w) + 1 in
  let a := length (futures w) in
  let registered wr' lg :=
    mkWorld
      (mkClient (_reader (client w)) (Some wr') (_listener_task (client w))
         (_pending (client w) ++ [(pid, a)]) pid (_logic_callback (client w)))
      (futures w ++ [mkFuture (command_id, logic_id) FPending])
      (tasks w) lg (calls w) in
  send_command_begin command_id data logic_id opened drained w =
    match _build_block command_id data with
    | Raise e => (Raise e, registered wr (log w))
    | Return block =>
        let w4 :=
          registered (mkWriter false (written wr ++ [block]))
            (log w ++ [Debug_tx command_id data]) in
        match drained with
        | Some e => (Raise e, w4)
        | None => (Return (pid, a), w4)
        end
    end.
Proof.
  intros Hwr Hopen Hwf. cbn zeta.
  unfold send_command_begin, _ensure_connected, connected.
  rewrite Hwr, Hopen. cbn [negb]. rewrite Hwr.
  rewrite (dict_set_fresh _ _ _ (pending_wf_fresh w Hwf)).
  destruct w as [[r wr0 t p n cb] fs ts lg cs]. cbn in Hwr. subst wr0.
  destruct wr as [closing out]. cbn in Hopen. subst closing. cbn.
  destruct (_build_block command_id data); [|reflexivity].
  destruct drained; reflexivity.
Qed.

Lemma disconnect_pending closed (w : World) :
  _pending (client (disconnect closed w).2) = [].
Proof.
  destruct (_stop_listener_spec w) as (fs & _ & _ & _ & Hstop).
  rewrite disconnect_alone, Hstop. cbn [client _writer].
  destruct (_writer (client w)); [|reflexivity].
  destruct closed as [e|]; [destruct e|]; reflexivity.
Qed.

Lemma client_step_wf (w w' : World) :
  pending_wf w -> client_step w w' -> pending_wf w'.
Proof.
  intros Hwf Hstep. destruct Hstep.
  - eapply pending_wf_ext; [| | |exact Hwf]; reflexivity.
  - destruct (connect_keeps opened w) as (Hp & Hid & Hf).
    eapply pending_wf_ext; [exact Hp|exact Hid|rewrite Hf; reflexivity|exact Hwf].
  - apply pending_wf_empty, disconnect_pending.
  - unfold test_connection.
    destruct (_ensure_connected_keeps opened w) as (Hp & Hid & Hf).
    destruct (_ensure_connected opened w) as [[u|e] w1]; cbn [snd] in *;
      (eapply pending_wf_ext; [exact Hp|exact Hid|rewrite Hf; reflexivity|exact Hwf]).
  - destruct (listener_body raw w) as [r w1] eqn:Hb. cbn [snd].
    eapply pending_wf_ext; [| | |exact Hwf].
    + rewrite (listener_body_client _ _ _ _ Hb). reflexivity.
    + rewrite (listener_body_client _ _ _ _ Hb). reflexivity.
    + apply (listener_body_length _ _ _ _ Hb).
  - unfold _listener_loop. destruct (_reader (client w));
      [|eapply pending_wf_ext; [| | |exact Hwf]; reflexivity].
    destruct (listener_while reads w) as [st w1] eqn:Hrun.
    apply listener_while_keeps in Hrun as [Hc Hl].
    destruct st; cbn [snd];
      (eapply pending_wf_ext; [| | |exact Hwf];
       [rewrite <- Hc; reflexivity|rewrite <- Hc; reflexivity|exact Hl]).
  - unfold send_command_begin.
    destruct (_ensure_connected_keeps opened w) as (Hp & Hid & Hf).
    destruct (_ensure_connected opened w) as [[u|e] w1]; cbn [snd] in *.
    + assert (Hwf1 : pending_wf w1)
        by (eapply pending_wf_ext;
            [exact Hp|exact Hid|rewrite Hf; reflexivity|exact Hwf]).
      destruct (_writer (client w1)) as [wr|]; [|exact Hwf1].
      rewrite (dict_set_fresh _ _ _ (pending_wf_fresh w1 Hwf1)).
      destruct (_build_block command_id data) as [block|e];
        [destruct drained|]; cbn [snd];
        (eapply register_wf; [| | |exact Hwf1]; reflexivity).
    + eapply pending_wf_ext;
        [exact Hp|exact Hid|rewrite Hf; reflexivity|exact Hwf].
  - unfold send_command_finish.
    destruct (wait_for a (futures w)) as [r fs] eqn:Hwait. cbn [snd].
    apply (dict_pop_wf pid w); [reflexivity|reflexivity| |exact Hwf].
    cbn. unfold wait_for in Hwait.
    destruct (futures w !! a) as [fut|]; [|inversion Hwait; reflexivity].
    destruct (fstate fut); inversion Hwait; subst; try reflexivity.
    apply length_insert.
  - unfold transport_closing. destruct (_writer (client w));
      [eapply pending_wf_ext; [| | |exact Hwf]; reflexivity|exact Hwf].
Qed.

(** X9. From a client with no request in flight, whatever steps are taken
    (methods of the client up to their suspensions, turns and runs of the
    listener, the transport closing), the identifiers of the dictionary
    grow strictly along it and none exceeds the counter, every entry refers
    to a future of the store, and no two entries to the same future. *)
Theorem X9_pending_shape_invariant (w0 w : World) :
  _pending (client w0) = [] ->
  rtc client_step w0 w ->
  StronglySorted Z.lt (_pending (client w)).*1 /\
  Forall (fun pid => pid <= _pending_id (client w)) (_pending (client w)).*1 /\
  Forall (fun a => (a < length (futures w))%nat) (_pending (client w)).*2 /\
  NoDup (_pending (client w)).*2.
Proof.
  intros Hempty Hrun. change (pending_wf w).
  apply pending_wf_empty in Hempty.
  induction Hrun as [w|w1 w2 w3 Hstep _ IH]; [exact Hempty|].
  apply IH. eapply client_step_wf; eassumption.
Qed.

Lemma X9_pending_shape_invariant_witness :
  pending_wf
    (send_command_begin 7 [x01] None (Raise OSError) None
       (send_command_begin ECP_CMD_SET_LOGIC [x00; x42] (Some 0x42)
          (Raise OSError) None world_idle).2).2.
Proof.
  apply (X9_pending_shape_invariant world_idle); [reflexivity|].
  eapply rtc_l; [apply step_send_command_begin|].
  eapply rtc_l; [apply step_send_command_begin|].
  apply rtc_refl.
Defined.

(** X10. On a connected client, [send_command] registers the request
    before it encodes anything: whatever the outcome, the dictionary has
    one more entry, at its end, under the next identifier, which is above
    all the others, for a new pending future that expects the command and
    the key.  When the data does not encode, the error is raised with
    nothing written; otherwise the block is written, and the call goes on
    to wait unless draining the writer raises. *)
Theorem X10_request_registered_first
    (command_id : Z) (data : bytes) (logic_id : option Z)
    (opened : result (StreamReader * StreamWriter)) (drained : option exn)
    (w : World) (wr : StreamWriter) :
  _writer (client w) = Some wr -> is_closing wr = false -> pending_wf w ->
  exists r w',
    send_command_begin command_id data logic_id opened drained w = (r, w') /\
    _pending (client w') =
      _pending (client w) ++ [(_pending_id (client w) + 1, length (futures w))] /\
    futures w' = futures w ++ [mkFuture (command_id, logic_id) FPending] /\
    _pending_id (client w') = _pending_id (client w) + 1 /\
    Forall (fun pid => pid < _pending_id (client w) + 1) (_pending (client w)).*1 /\
    match _build_block command_id data with
    | Raise e =>
        r = Raise e /\ _writer (client w') = Some wr /\ log w' = log w
    | Return block =>
        _writer (client w') = Some (mkWriter false (written wr ++ [block])) /\
        log w' = log w ++ [Debug_tx command_id data] /\
        r = match drained with
            | Some e => Raise e
            | None => Return (_pending_id (client w) + 1, length (futures w))
            end
    end.
Proof.
  intros Hwr Hopen Hwf.
  assert (Hlt : Forall (fun pid => pid < _pending_id (client w) + 1)
                  (_pending (client w)).*1).
  { destruct Hwf as (_ & Hle & _). eapply Forall_impl; [exact Hle|].
    cbn. intros; lia. }
  rewrite (send_command_begin_connected command_id data logic_id opened
             drained w wr Hwr Hopen Hwf). cbn zeta.
  destruct (_build_block command_id data) as [block|e].
  - destruct drained as [e|]; eexists _, _; (split; [reflexivity|]); cbn;
      repeat (split; [first [reflexivity|exact Hlt]|]); reflexivity.
  - eexists _, _. split; [reflexivity|]. cbn.
    repeat (split; [first [reflexivity|exact Hlt]|]). reflexivity.
Qed.

Lemma X10_request_registered_first_witness :
  exists w',
    send_command_begin ECP_CMD_SET_LOGIC (repeat x00 9) (Some 0x42)
      (Raise OSError) None world_one_request
      = (Raise (ValueError_data_too_long 9), w') /\
    _pending (client w') = [(1, 0%nat); (2, 1%nat)] /\
    futures w' =
      [request_0x42; mkFuture (ECP_CMD_SET_LOGIC, Some 0x42) FPending].
Proof.
  destruct (X10_request_registered_first ECP_CMD_SET_LOGIC (repeat x00 9)
              (Some 0x42) (Raise OSError) None world_one_request
              (mkWriter false []) eq_refl eq_refl)
    as (r & w' & Hbegin & Hpending & Hfutures & _ & _ & Hr & _).
  - unfold pending_wf. cbn.
    split; [repeat constructor|]. split; [repeat constructor; lia|].
    split; [repeat constructor|]. apply NoDup_singleton.
  - exists w'. rewrite Hbegin, Hr. split; [reflexivity|].
    split; [exact Hpending|exact Hfutures].
Defined.

(** ** A request and its reply *)

Lemma deliver_app_unsolicited cmd data (pre post : list (Z * nat))
    (fs : list Future) :
  unsolicited cmd data pre fs ->
  deliver cmd data (pre ++ post) fs = deliver cmd data post fs.
Proof.
  induction pre as [|[pid a] pre IH]; intros Hun; [reflexivity|].
  assert (Hun' : unsolicited cmd data pre fs).
  { intros p b g Hin Hg.
    apply (Hun p b g); [apply elem_of_cons; right; exact Hin|exact Hg]. }
  cbn [app]. destruct (fs !! a) as [fut|] eqn:Hl.
  - rewrite (deliver_skip cmd data pid a _ fs fut Hl); [apply IH, Hun'|].
    apply (Hun pid a fut); [apply elem_of_cons; left; reflexivity|exact Hl].
  - rewrite (deliver_dangling cmd data pid a _ fs Hl). apply IH, Hun'.
Qed.

Lemma unsolicited_store_app cmd data (items : list (Z * nat))
    (fs extra : list Future) :
  Forall (fun a => (a < length fs)%nat) items.*2 ->
  unsolicited cmd data items fs ->
  unsolicited cmd data items (fs ++ extra).
Proof.
  intros Hlt Hun pid a fut Hin Hl. apply (Hun pid a fut Hin).
  rewrite Forall_forall in Hlt.
  rewrite <- Hl. symmetry. apply lookup_app_l. apply Hlt.
  apply list_elem_of_fmap. exists (pid, a). auto.
Qed.

Lemma dict_pop_snoc_fresh (k : Z) (v : nat) (d : list (Z * nat)) :
  k ∉ map fst d -> dict_pop k (d ++ [(k, v)]) = d.
Proof.
  intros Hk. unfold dict_pop. rewrite filter_app.
  replace (filter (fun kv : Z * nat => kv.1 <> k) [(k, v)]) with (@nil (Z * nat)).
  - rewrite app_nil_r. induction d as [|[k' v'] d IH]; [reflexivity|].
    cbn [map fst] in Hk. apply not_elem_of_cons in Hk as [Hne Hk].
    rewrite filter_cons. rewrite decide_True by (cbn; congruence).
    rewrite IH by exact Hk. reflexivity.
  - rewrite filter_cons. rewrite decide_False by (cbn; tauto). reflexivity.
Qed.

(** A turn of the listener on a frame that a request answers, all the
    requests registered before it leaving the frame alone. *)
Lemma listener_body_answered (raw : bytes) (len : nat) cmd data (w : World)
    (pre post : list (Z * nat)) pid a fut :
  _parse_block raw = Return (len, cmd, data) ->
  _pending (client w) = pre ++ (pid, a) :: post ->
  unsolicited cmd data pre (futures w) ->
  futures w !! a = Some fut ->
  answers cmd data fut = true ->
  listener_body (Return raw) w =
    (Return Continue,
     with_futures (<[a := completed cmd data fut]> (futures w))
       (logging (Debug_rx cmd data) w)).
Proof.
  intros Hparse Hp Hun Hl Ha. unfold listener_body. rewrite Hparse.
  cbn [logging client futures]. rewrite Hp.
  rewrite (deliver_app_unsolicited cmd data pre _ _ Hun).
  rewrite (deliver_hit cmd data pid a post _ fut Hl Ha).
  reflexivity.
Qed.

Lemma answers_pending cmd data (logic_id : option Z) :
  logic_id = None \/ (length data < 2)%nat
    \/ logic_id = Some (int_from_bytes_big (take 2 data)) ->
  answers cmd data (mkFuture (cmd, logic_id) FPending) = true.
Proof.
  intros H. apply answers_iff. cbn. auto.
Qed.

(** [send_command] when the listener reads the reply while the caller
    waits. *)
Lemma send_command_answered
    (command_id : Z) (data : bytes) (logic_id : option Z)
    (opened : result (StreamReader * StreamWriter))
    (w : World) (wr : StreamWriter) (block raw : bytes) (len : nat)
    (reply : bytes) :
  _writer (client w) = Some wr -> is_closing wr = false -> pending_wf w ->
  _build_block command_id data = Return block ->
  _parse_block raw = Return (len, command_id, reply) ->
  logic_id = None \/ (length reply < 2)%nat
    \/ logic_id = Some (int_from_bytes_big (take 2 reply)) ->
  unsolicited command_id reply (_pending (client w)) (futures w) ->
  send_command command_id data logic_id opened None
    (fun w1 => (listener_body (Return raw) w1).2) w
  = (Return (command_id, reply),
     mkWorld
       (mkClient (_reader (client w))
          (Some (mkWriter false (written wr ++ [block])))
          (_listener_task (client w)) (_pending (client w))
          (_pending_id (client w) + 1) (_logic_callback (client w)))
       (futures w ++ [mkFuture (command_id, logic_id) (FResult (command_id, reply))])
       (tasks w)
       (log w ++ [Debug_tx command_id data; Debug_rx command_id reply])
       (calls w)).
Proof.
  intros Hwr Hopen Hwf Hbuild Hparse Hkey Hun.
  unfold send_command.
  rewrite (send_command_begin_connected command_id data logic_id opened None
             w wr Hwr Hopen Hwf). cbn zeta. rewrite Hbuild.
  set (pid := _pending_id (client w) + 1).
  set (a := length (futures w)).
  set (fut := mkFuture (command_id, logic_id) FPending).
  match goal with
  | |- send_command_finish _ _ _ (listener_body _ ?w1).2 = _ => set (w4 := w1)
  end.
  assert (Hturn :
    listener_body (Return raw) w4 =
      (Return Continue,
       with_futures (<[a := completed command_id reply fut]> (futures w4))
         (logging (Debug_rx command_id reply) w4))).
  { apply (listener_body_answered raw len command_id reply w4
             (_pending (client w)) [] pid a fut Hparse).
    - reflexivity.
    - apply unsolicited_store_app; [|exact Hun]. apply Hwf.
    - apply list_lookup_middle. reflexivity.
    - apply answers_pending, Hkey. }
  rewrite Hturn. cbn [snd].
  unfold send_command_finish, wait_for.
  cbn [with_futures logging futures w4].
  rewrite list_lookup_insert_eq by (rewrite length_app; cbn; lia).
  cbn [completed fstate]. cbn.
  match goal with
  | |- context [filter ?P (_pending (client w) ++ [(pid, a)])] =>
      change (filter P (_pending (client w) ++ [(pid, a)]))
        with (dict_pop pid (_pending (client w) ++ [(pid, a)]))
  end.
  rewrite (dict_pop_snoc_fresh pid a _ (pending_wf_fresh w Hwf)).
  unfold a. rewrite insert_app_r_alt by lia. rewrite Nat.sub_diag.
  subst w4 fut.
  unfold completed, with_client, with_futures, logging, set_pending. cbn.
  rewrite <- app_assoc. reflexivity.
Qed.

(** X11. On a connected client, when the listener reads, while the caller
    waits, a frame of the request's command whose data fits the key (no
    key, or fewer than 2 bytes, or the key in its first 2 bytes), and no
    request registered earlier answers that frame, [send_command] returns
    the frame's command and data.  The dictionary is again what it was
    before the call, the future holds the reply, and the callback was not
    called. *)
Theorem X11_send_command_returns_reply
    (command_id : Z) (data : bytes) (logic_id : option Z)
    (opened : result (StreamReader * StreamWriter))
    (w : World) (wr : StreamWriter) (block raw : bytes) (len : nat)
    (reply : bytes) :
  _writer (client w) = Some wr -> is_closing wr = false -> pending_wf w ->
  _build_block command_id data = Return block ->
  _parse_block raw = Return (len, command_id, reply) ->
  logic_id = None \/ (length reply < 2)%nat
    \/ logic_id = Some (int_from_bytes_big (take 2 reply)) ->
  unsolicited command_id reply (_pending (client w)) (futures w) ->
  exists w',
    send_command command_id data logic_id opened None
      (fun w1 => (listener_body (Return raw) w1).2) w
    = (Return (command_id, reply), w') /\
    _pending (client w') = _pending (client w) /\
    futures w' =
      futures w ++ [mkFuture (command_id, logic_id) (FResult (command_id, reply))] /\
    _writer (client w') = Some (mkWriter false (written wr ++ [block])) /\
    calls w' = calls w.
Proof.
  intros Hwr Hopen Hwf Hbuild Hparse Hkey Hun. eexists. split.
  - eapply send_command_answered; eassumption.
  - repeat split.
Qed.

Lemma X11_send_command_returns_reply_witness :
  exists w',
    send_command ECP_CMD_SET_LOGIC [x00; x42] (Some 0x42) (Raise OSError) None
      (fun w1 => (listener_body (Return frame_0x42_active) w1).2) world_idle
    = (Return (ECP_CMD_SET_LOGIC, [x00; x42; x01]), w') /\
    _pending (client w') = [] /\
    calls w' = [].
Proof.
  destruct (X11_send_command_returns_reply ECP_CMD_SET_LOGIC [x00; x42]
              (Some 0x42) (Raise OSError) world_idle (mkWriter false [])
              [x02; x00; x11; x0e; x00; x00; x00; x42; x00; x00; x00; x00;
               x00; x00; x00; x00]
              frame_0x42_active 3 [x00; x42; x01])
    as (w' & Hsend & Hpending & _ & _ & Hcalls).
  - reflexivity.
  - reflexivity.
  - apply pending_wf_empty. reflexivity.
  - reflexivity.
  - reflexivity.
  - right. right. reflexivity.
  - intros pid a fut Hin. inversion Hin.
  - exists w'. split; [exact Hsend|]. split; [exact Hpending|exact Hcalls].
Defined.

(** X12. A query of a logic state, end to end.  On a connected client,
    when the device's echo, the block that encodes the logic command with
    the two bytes of the identifier and a state byte, is read by the
    listener while the caller waits, and no earlier request answers it,
    [get_logic_state] returns whether the state byte is non-zero.  The
    query went out as the block of the logic command with the two bytes of
    the identifier, the dictionary is what it was, and the callback was not
    called. *)
Theorem X12_get_logic_state_over_the_wire
    (logic_id : Z) (state_byte : byte)
    (opened : result (StreamReader * StreamWriter))
    (w : World) (wr : StreamWriter) (raw : bytes) :
  0 <= logic_id < 2 ^ 16 ->
  _writer (client w) = Some wr -> is_closing wr = false -> pending_wf w ->
  let hi := byte_of_Z (logic_id / 2 ^ 8) in
  let lo := byte_of_Z logic_id in
  _build_block ECP_CMD_SET_LOGIC [hi; lo; state_byte] = Return raw ->
  unsolicited ECP_CMD_SET_LOGIC [hi; lo; state_byte]
    (_pending (client w)) (futures w) ->
  exists w',
    get_logic_state logic_id opened None
      (fun w1 => (listener_body (Return raw) w1).2) w
    = (Return (negb (Z_of_byte state_byte =? 0)), w') /\
    _pending (client w') = _pending (client w) /\
    calls w' = calls w /\
    _writer (client w') =
      Some (mkWriter false
              (written wr ++
                 [[x02; x00; x11; x0e; x00; x00; hi; lo; x00; x00; x00; x00;
                   x00; x00; x00; x00]])).
Proof.
  intros Hid Hwr Hopen Hwf hi lo Hecho Hun.
  assert (Hdata : int_to_bytes_big 2 logic_id = Return [hi; lo])
    by (apply int_to_bytes_big_2; assumption).
  assert (Hkey : int_from_bytes_big (take 2 [hi; lo; state_byte]) = logic_id).
  { cbn [take]. unfold hi, lo. rewrite <- (be_digits_2 logic_id).
    rewrite int_from_bytes_big_be_digits by lia. apply Z.mod_small.
    replace (256 ^ Z.of_nat 2) with (2 ^ 16) by reflexivity. assumption. }
  assert (Hquery :
    _build_block ECP_CMD_SET_LOGIC [hi; lo] =
      Return [x02; x00; x11; x0e; x00; x00; hi; lo; x00; x00; x00; x00; x00;
              x00; x00; x00]) by reflexivity.
  eexists. unfold get_logic_state. rewrite Hdata.
  rewrite (send_command_answered ECP_CMD_SET_LOGIC [hi; lo] (Some logic_id)
             opened w wr _ raw 3 [hi; lo; state_byte] Hwr Hopen Hwf Hquery
             (_parse_block_build_block _ _ _ Hecho)
             (or_intror (or_intror (f_equal Some (eq_sym Hkey)))) Hun).
  cbn [length Nat.ltb Nat.leb nth]. split; [reflexivity|]. repeat split.
Qed.

Lemma X12_get_logic_state_over_the_wire_witness :
  exists w',
    get_logic_state 0x42 (Raise OSError) None
      (fun w1 => (listener_body (Return frame_0x42_active) w1).2) world_idle
    = (Return true, w') /\
    _pending (client w') = [].
Proof.
  destruct (X12_get_logic_state_over_the_wire 0x42 x01 (Raise OSError)
              world_idle (mkWriter false []) frame_0x42_active)
    as (w' & Hget & Hpending & _).
  - lia.
  - reflexivity.
  - reflexivity.
  - apply pending_wf_empty. reflexivity.
  - reflexivity.
  - intros pid a fut Hin. inversion Hin.
  - exists w'. split; [exact Hget|exact Hpending].
Defined.

(** What [disconnect] leaves, for the proofs below. *)
Lemma disconnect_effect closed (w : World) :
  (forall a,
     futures (disconnect closed w).2 !! a =
       if decide (a ∈ (_pending (client w)).*2)
       then failed_by_disconnect <$> futures w !! a
       else futures w !! a) /\
  _pending (client (disconnect closed w).2) = [] /\
  _writer (client (disconnect closed w).2) = None.
Proof.
  destruct (_stop_listener_spec w) as (fs & _ & _ & Hlook & Hstop).
  rewrite disconnect_alone, Hstop. cbn [client _writer].
  destruct (_writer (client w)) eqn:Hwr.
  - destruct closed as [e|]; [destruct e|]; cbn; auto.
  - cbn. auto.
Qed.

(** X13. On a connected client, when [disconnect] runs while the caller
    of [send_command] waits for its reply, the call raises the connection
    error Disconnected: the future of the request was failed with it.  The
    dictionary is then empty and the client not connected. *)
Theorem X13_disconnect_fails_waiting_caller
    (command_id : Z) (data : bytes) (logic_id : option Z)
    (opened : result (StreamReader * StreamWriter)) (closed : option exn)
    (w : World) (wr : StreamWriter) (block : bytes) :
  _writer (client w) = Some wr -> is_closing wr = false -> pending_wf w ->
  _build_block command_id data = Return block ->
  exists w',
    send_command command_id data logic_id opened None
      (fun w1 => (disconnect closed w1).2) w
    = (Raise DHDConnectionError_disconnected, w') /\
    futures w' !! length (futures w) =
      Some (mkFuture (command_id, logic_id)
              (FException DHDConnectionError_disconnected)) /\
    _pending (client w') = [] /\
    connected (client w') = false.
Proof.
  intros Hwr Hopen Hwf Hbuild. unfold send_command.
  rewrite (send_command_begin_connected command_id data logic_id opened None
             w wr Hwr Hopen Hwf). cbn zeta. rewrite Hbuild.
  match goal with
  | |- context [send_command_finish _ _ _ (disconnect closed ?w1).2] =>
      set (w4 := w1)
  end.
  destruct (disconnect_effect closed w4) as (Hlook & Hpending & Hwriter).
  assert (Hfut :
    futures (disconnect closed w4).2 !! length (futures w) =
      Some (mkFuture (command_id, logic_id)
              (FException DHDConnectionError_disconnected))).
  { rewrite Hlook. rewrite decide_True.
    - unfold w4. cbn [futures]. rewrite list_lookup_middle by reflexivity.
      reflexivity.
    - unfold w4. cbn [client _pending]. rewrite fmap_app.
      apply elem_of_app. right. apply list_elem_of_singleton. reflexivity. }
  eexists. unfold send_command_finish, wait_for. rewrite Hfut.
  cbn [fstate]. split; [reflexivity|].
  cbn [with_client with_futures set_pending client futures _pending _writer].
  split; [exact Hfut|]. rewrite Hpending. split; [reflexivity|].
  unfold connected. cbn. rewrite Hwriter. reflexivity.
Qed.

Lemma X13_disconnect_fails_waiting_caller_witness :
  exists w',
    send_command ECP_CMD_SET_LOGIC [x00; x42] (Some 0x42) (Raise OSError) None
      (fun w1 => (disconnect None w1).2) world_idle
    = (Raise DHDConnectionError_disconnected, w') /\
    _pending (client w') = [] /\
    connected (client w') = false.
Proof.
  destruct (X13_disconnect_fails_waiting_caller ECP_CMD_SET_LOGIC [x00; x42]
              (Some 0x42) (Raise OSError) None world_idle (mkWriter false [])
              [x02; x00; x11; x0e; x00; x00; x00; x42; x00; x00; x00; x00;
               x00; x00; x00; x00])
    as (w' & Hsend & _ & Hpending & Hconn).
  - reflexivity.
  - reflexivity.
  - apply pending_wf_empty. reflexivity.
  - reflexivity.
  - exists w'. split; [exact Hsend|]. split; [exact Hpending|exact Hconn].
Defined.

(** X14. A request that [send_command] registered and then gave up,
    because the data has more than 8 bytes, stays in the dictionary with
    its future pending; nothing was written.  The next frame of its command
    that fits its key, if no earlier request answers it, is delivered to
    that future: the callback is not called for it, and the entry is still
    in the dictionary afterwards. *)
Theorem X14_abandoned_request_takes_frame
    (command_id : Z) (data : bytes) (logic_id : option Z)
    (opened : result (StreamReader * StreamWriter)) (drained : option exn)
    (meanwhile : World -> World)
    (w : World) (wr : StreamWriter) (raw : bytes) (len : nat) (reply : bytes) :
  _writer (client w) = Some wr -> is_closing wr = false -> pending_wf w ->
  (8 < length data)%nat ->
  _parse_block raw = Return (len, command_id, reply) ->
  logic_id = None \/ (length reply < 2)%nat
    \/ logic_id = Some (int_from_bytes_big (take 2 reply)) ->
  unsolicited command_id reply (_pending (client w)) (futures w) ->
  exists w1 w2,
    send_command command_id data logic_id opened drained meanwhile w
      = (Raise (ValueError_data_too_long (length data)), w1) /\
    _pending (client w1) =
      _pending (client w) ++ [(_pending_id (client w) + 1, length (futures w))] /\
    futures w1 = futures w ++ [mkFuture (command_id, logic_id) FPending] /\
    _writer (client w1) = Some wr /\
    listener_body (Return raw) w1 = (Return Continue, w2) /\
    futures w2 =
      futures w ++ [mkFuture (command_id, logic_id) (FResult (command_id, reply))] /\
    calls w2 = calls w /\
    _pending (client w2) = _pending (client w1).
Proof.
  intros Hwr Hopen Hwf Hlong Hparse Hkey Hun. unfold send_command.
  rewrite (send_command_begin_connected command_id data logic_id opened
             drained w wr Hwr Hopen Hwf). cbn zeta.
  rewrite (_build_block_too_long command_id data Hlong).
  eexists _, _. split; [reflexivity|]. cbn [client _pending futures _writer].
  do 3 (split; [reflexivity|]).
  split.
  - apply (listener_body_answered raw len command_id reply _
             (_pending (client w)) []
             (_pending_id (client w) + 1) (length (futures w))
             (mkFuture (command_id, logic_id) FPending) Hparse).
    + reflexivity.
    + apply unsolicited_store_app; [|exact Hun]. apply Hwf.
    + apply list_lookup_middle. reflexivity.
    + apply answers_pending, Hkey.
  - cbn. rewrite insert_app_r_alt by lia. rewrite Nat.sub_diag.
    repeat split.
Qed.

Lemma X14_abandoned_request_takes_frame_witness :
  exists w1 w2,
    send_command ECP_CMD_SET_LOGIC (repeat x00 9) (Some 0x42) (Raise OSError)
      None (fun w => w) world_raising_callback
      = (Raise (ValueError_data_too_long 9), w1) /\
    listener_body (Return frame_0x42_active) w1 = (Return Continue, w2) /\
    calls w2 = [] /\
    _pending (client w2) = [(1, 0%nat)].
Proof.
  destruct (X14_abandoned_request_takes_frame ECP_CMD_SET_LOGIC (repeat x00 9)
              (Some 0x42) (Raise OSError) None (fun w => w)
              world_raising_callback (mkWriter false [])
              frame_0x42_active 3 [x00; x42; x01])
    as (w1 & w2 & Hsend & Hp1 & _ & _ & Hturn & _ & Hcalls & Hp2).
  - reflexivity.
  - reflexivity.
  - apply pending_wf_empty. reflexivity.
  - simpl. lia.
  - reflexivity.
  - right. right. reflexivity.
  - intros pid a fut Hin. inversion Hin.
  - exists w1, w2. split; [exact Hsend|]. split; [exact Hturn|].
    split; [exact Hcalls|]. rewrite Hp2, Hp1. reflexivity.
Defined.

(** ** What a turn of the listener does and does not do *)

Lemma deliver_keeps_unanswering cmd data (items : list (Z * nat))
    (fs fs' : list Future) delivered a fut :
  fs !! a = Some fut -> answers cmd data fut = false ->
  deliver cmd data items fs = Return (fs', delivered) ->
  fs' !! a = Some fut.
Proof.
  intros Hl Hno Hd.
  destruct (deliver_cases cmd data items fs)
    as [[_ Hd']|(pre & p & b & post & g & -> & _ & Hg & Hag & Hd')];
    rewrite Hd' in Hd; inversion Hd; subst; [assumption|].
  destruct (decide (b = a)) as [->|Hne].
  - rewrite Hl in Hg. inversion Hg; subst. congruence.
  - rewrite list_lookup_insert_ne by assumption. assumption.
Qed.

(** X15. A frame leaves alone every future it does not fit: one that is
    done, one that expects another command, and one that expects another
    logic identifier than the one in the first two bytes of the frame's
    data.  After the listener's turn such a future is what it was. *)
Theorem X15_frame_leaves_other_requests
    (raw : bytes) (len : nat) (cmd : Z) (data : bytes) (w w' : World)
    (r : result loop_ctl) (a : nat) (fut : Future) :
  _parse_block raw = Return (len, cmd, data) ->
  listener_body (Return raw) w = (r, w') ->
  futures w !! a = Some fut ->
  done fut = true \/
  cmd <> (_dhd_match fut).1 \/
  (exists key,
     (_dhd_match fut).2 = Some key /\ (2 <= length data)%nat /\
     int_from_bytes_big (take 2 data) <> key) ->
  futures w' !! a = Some fut.
Proof.
  intros Hparse Hbody Hl Hcond.
  assert (Hno : answers cmd data fut = false).
  { destruct (answers cmd data fut) eqn:Ha; [|reflexivity].
    apply answers_iff in Ha as (Hd & Hc & Hk).
    destruct Hcond as [Hdone|[Hcmd|(key & Hkey & Hlen & Hne)]];
      [congruence|contradiction|].
    destruct Hk as [Hk|[Hk|Hk]]; [congruence|lia|congruence]. }
  unfold listener_body in Hbody. rewrite Hparse in Hbody.
  cbn [logging client futures] in Hbody.
  destruct (deliver cmd data _ _) as [[fs delivered]|e] eqn:Hd;
    [|inversion Hbody; subst; assumption].
  apply (deliver_keeps_unanswering _ _ _ _ _ _ _ _ Hl Hno) in Hd.
  destruct (push delivered cmd data _) as [[u|e] w2] eqn:Hp;
    apply push_client in Hp as [_ Hf]; inversion Hbody; subst;
    rewrite Hf; exact Hd.
Qed.

Lemma X15_frame_leaves_other_requests_witness :
  futures
    (listener_body (Return frame_0x42_active)
       (with_futures [mkFuture (ECP_CMD_SET_LOGIC, Some 0x43) FPending]
          world_one_request)).2 !! 0%nat
  = Some (mkFuture (ECP_CMD_SET_LOGIC, Some 0x43) FPending).
Proof.
  apply (X15_frame_leaves_other_requests frame_0x42_active 3 ECP_CMD_SET_LOGIC
           [x00; x42; x01]
           (with_futures [mkFuture (ECP_CMD_SET_LOGIC, Some 0x43) FPending]
              world_one_request)
           _
           (listener_body (Return frame_0x42_active)
              (with_futures [mkFuture (ECP_CMD_SET_LOGIC, Some 0x43) FPending]
                 world_one_request)).1
           0).
  - reflexivity.
  - apply surjective_pairing.
  - reflexivity.
  - right. right. exists 0x43. split; [reflexivity|].
    split; [simpl; lia|]. vm_compute. discriminate.
Defined.

Lemma push_not_taken delivered cmd data (w : World) :
  delivered = true \/ cmd <> ECP_CMD_SET_LOGIC \/ (length data < 3)%nat ->
  push delivered cmd data w = (Return tt, w).
Proof.
  intros H. unfold push.
  destruct delivered; [reflexivity|]. cbn [negb andb].
  destruct (Z.eqb_spec cmd ECP_CMD_SET_LOGIC) as [Hc|Hc]; [|reflexivity].
  destruct (Nat.leb_spec 3 (length data)) as [Hl|Hl]; [|reflexivity].
  destruct H as [H|[H|H]]; [discriminate|contradiction|lia].
Qed.

(** X16. When the callback is called.  A frame that some request answers
    is delivered and never pushed, whatever its command.  A frame that no
    request answers is dropped, with a debug record only, when its command
    is not the logic command or its data has fewer than 3 bytes; with the
    logic command and 3 bytes or more but no callback registered, the push
    is logged and nothing else happens.  In every case a turn of the
    listener makes at most one call. *)
Theorem X16_push_only_when_unsolicited
    (raw : bytes) (len : nat) (cmd : Z) (data : bytes) (w : World) :
  _parse_block raw = Return (len, cmd, data) ->
  exists r w',
    listener_body (Return raw) w = (r, w') /\
    (~ unsolicited cmd data (_pending (client w)) (futures w) ->
       r = Return Continue /\ calls w' = calls w /\
       log w' = log w ++ [Debug_rx cmd data]) /\
    (unsolicited cmd data (_pending (client w)) (futures w) ->
     cmd <> ECP_CMD_SET_LOGIC \/ (length data < 3)%nat ->
       r = Return Continue /\ calls w' = calls w /\ futures w' = futures w /\
       log w' = log w ++ [Debug_rx cmd data]) /\
    (unsolicited cmd data (_pending (client w)) (futures w) ->
     cmd = ECP_CMD_SET_LOGIC -> (3 <= length data)%nat ->
     _logic_callback (client w) = None ->
       r = Return Continue /\ calls w' = calls w /\ futures w' = futures w /\
       log w' =
         log w ++
           [Debug_rx cmd data;
            Debug_push (int_from_bytes_big (take 2 data))
              (negb (Z_of_byte (nth 2 data x00) =? 0))]) /\
    (calls w' = calls w \/
     calls w' =
       calls w ++
         [(int_from_bytes_big (take 2 data),
           negb (Z_of_byte (nth 2 data x00) =? 0))]).
Proof.
  intros Hparse. unfold listener_body. rewrite Hparse.
  cbn [logging client futures].
  destruct (deliver_cases cmd data (_pending (client w)) (futures w))
    as [[Hun Hd]|(pre & p & b & post & g & Hp & Hpre & Hg & Hag & Hd)];
    rewrite Hd.
  - (* nothing delivered *)
    unfold push. cbn [negb andb].
    destruct (Z.eqb_spec cmd ECP_CMD_SET_LOGIC) as [Hc|Hc]; cbn [andb].
    + destruct (Nat.leb_spec 3 (length data)) as [Hl|Hl].
      * cbn [logging with_futures client]. unfold slice. rewrite drop_0.
        cbn [Nat.sub].
        destruct (_logic_callback (client w)) as [cb|] eqn:Hcb.
        -- destruct (cb _ _) as [e|]; [destruct (is_Exception e)|];
             eexists _, _; (split; [reflexivity|]);
             (split; [intros Hn; contradiction|]);
             (split; [intros _ [Hx|Hx]; [contradiction|lia]|]);
             (split; [intros _ _ _ Hx; discriminate|]);
             right; reflexivity.
        -- eexists _, _. split; [reflexivity|].
           split; [intros Hn; contradiction|].
           split; [intros _ [Hx|Hx]; [contradiction|lia]|].
           split; [|left; reflexivity].
           intros _ _ _ _. cbn. rewrite <- app_assoc. repeat split.
      * eexists _, _. split; [reflexivity|].
        split; [intros Hn; contradiction|].
        split; [intros _ _; repeat split|].
        split; [intros _ _ Hx; lia|left; reflexivity].
    + eexists _, _. split; [reflexivity|].
      split; [intros Hn; contradiction|].
      split; [intros _ _; repeat split|].
      split; [intros _ Hx; contradiction|left; reflexivity].
  - (* delivered to the first request that answers *)
    rewrite push_not_taken by (left; reflexivity).
    assert (Hnot : ~ unsolicited cmd data (_pending (client w)) (futures w)).
    { intros Hun. rewrite (Hun p b g) in Hag; [discriminate| |exact Hg].
      rewrite Hp. apply elem_of_app. right. apply elem_of_cons. left.
      reflexivity. }
    eexists _, _. split; [reflexivity|].
    split; [intros _; repeat split|].
    split; [intros Hun; contradiction|].
    split; [intros Hun; contradiction|left; reflexivity].
Qed.

Lemma X16_push_only_when_unsolicited_witness :
  exists w',
    listener_body (Return frame_0x42_active) world_one_request
      = (Return Continue, w') /\
    calls w' = [] /\
    log w' = [Debug_rx ECP_CMD_SET_LOGIC [x00; x42; x01]].
Proof.
  destruct (X16_push_only_when_unsolicited frame_0x42_active 3
              ECP_CMD_SET_LOGIC [x00; x42; x01] world_one_request eq_refl)
    as (r & w' & Hbody & Hdelivered & _).
  destruct Hdelivered as (Hr & Hcalls & Hlog).
  - intros Hun.
    assert (Hin : (1, 0%nat) ∈ _pending (client world_one_request))
      by (apply list_elem_of_singleton; reflexivity).
    specialize (Hun 1 0%nat request_0x42 Hin eq_refl). discriminate Hun.
  - exists w'. rewrite Hbody, Hr. split; [reflexivity|].
    split; [exact Hcalls|exact Hlog].
Defined.

(** ** Setting a logic state *)

(** [set_logic_state] when the listener reads a fitting frame while the
    caller waits. *)
Lemma set_logic_state_answered
    (logic_id : Z) (state : bool)
    (opened : result (StreamReader * StreamWriter))
    (w : World) (wr : StreamWriter) (raw : bytes) (len : nat) (reply : bytes) :
  0 <= logic_id < 2 ^ 16 ->
  _writer (client w) = Some wr -> is_closing wr = false -> pending_wf w ->
  _parse_block raw = Return (len, ECP_CMD_SET_LOGIC, reply) ->
  (length reply < 2)%nat \/ int_from_bytes_big (take 2 reply) = logic_id ->
  unsolicited ECP_CMD_SET_LOGIC reply (_pending (client w)) (futures w) ->
  let hi := byte_of_Z (logic_id / 2 ^ 8) in
  let lo := byte_of_Z logic_id in
  let sb := if state then x01 else x00 in
  let block :=
    [x03; x00; x11; x0e; x00; x00; hi; lo; sb; x00; x00; x00; x00; x00; x00;
     x00] in
  set_logic_state logic_id state opened None
    (fun w1 => (listener_body (Return raw) w1).2) w
  = (Return tt,
     mkWorld
       (mkClient (_reader (client w))
          (Some (mkWriter false (written wr ++ [block])))
          (_listener_task (client w)) (_pending (client w))
          (_pending_id (client w) + 1) (_logic_callback (client w)))
       (futures w ++
          [mkFuture (ECP_CMD_SET_LOGIC, Some logic_id)
             (FResult (ECP_CMD_SET_LOGIC, reply))])
       (tasks w)
       (log w ++
          [Debug_tx ECP_CMD_SET_LOGIC [hi; lo; sb];
           Debug_rx ECP_CMD_SET_LOGIC reply])
       (calls w)).
Proof.
  intros Hid Hwr Hopen Hwf Hparse Hkey Hun hi lo sb block.
  assert (Hdata : int_to_bytes_big 2 logic_id = Return [hi; lo])
    by (apply int_to_bytes_big_2; assumption).
  assert (Hbuild : _build_block ECP_CMD_SET_LOGIC [hi; lo; sb] = Return block)
    by reflexivity.
  assert (Hkey' :
    Some logic_id = None \/ (length reply < 2)%nat
      \/ Some logic_id = Some (int_from_bytes_big (take 2 reply)))
    by (destruct Hkey as [H|H]; [auto|right; right; congruence]).
  unfold set_logic_state. rewrite Hdata.
  replace ([hi; lo] ++ (if state then [x01] else [x00])) with [hi; lo; sb]
    by (unfold sb; destruct state; reflexivity).
  rewrite (send_command_answered ECP_CMD_SET_LOGIC [hi; lo; sb] (Some logic_id)
             opened w wr block raw len reply Hwr Hopen Hwf Hbuild Hparse
             Hkey' Hun).
  reflexivity.
Qed.

(** X17. [set_logic_state], end to end.  On a connected client the
    command goes out as the block of the logic command with three bytes of
    data: the identifier, most significant byte first, and 0x01 for on or
    0x00 for off, which is what [_parse_block] reads back from the block.
    Any frame of the logic command that fits the key and that the
    listener reads while the caller waits makes the call return, whatever
    it says: the reply is not inspected. *)
Theorem X17_set_logic_state_over_the_wire
    (logic_id : Z) (state : bool)
    (opened : result (StreamReader * StreamWriter))
    (w : World) (wr : StreamWriter) (raw : bytes) (len : nat) (reply : bytes) :
  0 <= logic_id < 2 ^ 16 ->
  _writer (client w) = Some wr -> is_closing wr = false -> pending_wf w ->
  _parse_block raw = Return (len, ECP_CMD_SET_LOGIC, reply) ->
  (length reply < 2)%nat \/ int_from_bytes_big (take 2 reply) = logic_id ->
  unsolicited ECP_CMD_SET_LOGIC reply (_pending (client w)) (futures w) ->
  let hi := byte_of_Z (logic_id / 2 ^ 8) in
  let lo := byte_of_Z logic_id in
  let sb := if state then x01 else x00 in
  let block :=
    [x03; x00; x11; x0e; x00; x00; hi; lo; sb; x00; x00; x00; x00; x00; x00;
     x00] in
  exists w',
    set_logic_state logic_id state opened None
      (fun w1 => (listener_body (Return raw) w1).2) w = (Return tt, w') /\
    _writer (client w') = Some (mkWriter false (written wr ++ [block])) /\
    _parse_block block = Return (3%nat, ECP_CMD_SET_LOGIC, [hi; lo; sb]) /\
    int_from_bytes_big [hi; lo] = logic_id /\
    _pending (client w') = _pending (client w) /\
    calls w' = calls w.
Proof.
  intros Hid Hwr Hopen Hwf Hparse Hkey Hun hi lo sb block.
  eexists.
  rewrite (set_logic_state_answered logic_id state opened w wr raw len reply
             Hid Hwr Hopen Hwf Hparse Hkey Hun).
  split; [reflexivity|]. split; [reflexivity|].
  split; [apply (_parse_block_build_block ECP_CMD_SET_LOGIC [hi; lo; sb]);
          reflexivity|].
  split; [|split; reflexivity].
  unfold hi, lo. rewrite <- (be_digits_2 logic_id).
  rewrite int_from_bytes_big_be_digits by lia. apply Z.mod_small.
  replace (256 ^ Z.of_nat 2) with (2 ^ 16) by reflexivity. assumption.
Qed.

Lemma X17_set_logic_state_over_the_wire_witness :
  exists w',
    set_logic_state 0x42 true (Raise OSError) None
      (fun w1 => (listener_body (Return frame_0x42_active) w1).2) world_idle
    = (Return tt, w') /\
    _writer (client w') = Some (mkWriter false [frame_0x42_active]).
Proof.
  destruct (X17_set_logic_state_over_the_wire 0x42 true (Raise OSError)
              world_idle (mkWriter false []) frame_0x42_active 3
              [x00; x42; x01])
    as (w' & Hset & Hwriter & _).
  - lia.
  - reflexivity.
  - reflexivity.
  - apply pending_wf_empty. reflexivity.
  - reflexivity.
  - right. reflexivity.
  - intros pid a fut Hin. inversion Hin.
  - exists w'. split; [exact Hset|exact Hwriter].
Defined.

(** ** How long the listener runs *)

Lemma listener_while_not_block (raw : result bytes) (rest : list (result bytes))
    (w : World) :
  ~ is_block raw -> (listener_while (raw :: rest) w).1 <> Suspended.
Proof.
  intros Hnb. cbn [listener_while]. destruct raw as [block|e].
  - unfold listener_body.
    rewrite _parse_block_not_16
      by (intros Hlen; apply Hnb; exists block; auto).
    cbn. discriminate.
  - destruct e; cbn; discriminate.
Qed.

(** X18. With a callback that raises nothing but [Exception]s, the
    listener is still reading after the reads it was given exactly when
    each of them was a block of 16 bytes: no content of a block ends the
    loop, and the first read that is anything else does.  And the listener
    coroutine ends by an exception only when a read raises one that is
    neither an [Exception] nor a cancellation. *)
Theorem X18_listener_reads_while_blocks (reads : list (result bytes)) (w : World) :
  callback_raises_Exception_only w ->
  ((listener_while reads w).1 = Suspended <-> Forall is_block reads) /\
  (forall e,
     (listener_while reads w).1 = Propagated e ->
     Raise e ∈ reads /\ is_Exception e = false /\ e <> CancelledError).
Proof.
  revert w. induction reads as [|raw rest IH]; intros w Hcb.
  - split; [split; [constructor|reflexivity]|]. cbn. discriminate.
  - destruct raw as [block|e0].
    + destruct (Nat.eq_dec (length block) 16%nat) as [Hlen|Hlen].
      * destruct (listener_body_continues block w Hlen Hcb) as (w1 & Hb).
        assert (Hcb1 : callback_raises_Exception_only w1).
        { eapply callback_raises_Exception_only_client; [|exact Hcb].
          apply (listener_body_client _ _ _ _ Hb). }
        cbn [listener_while]. rewrite Hb.
        destruct (IH w1 Hcb1) as [Hiff Hprop]. split.
        -- rewrite Hiff. split.
           ++ intros H. constructor; [exists block; auto|exact H].
           ++ intros H. inversion H; assumption.
        -- intros e He. destruct (Hprop e He) as (Hin & Hx).
           split; [apply elem_of_cons; right; exact Hin|exact Hx].
      * assert (Hnb : ~ is_block (Return block)).
        { intros (b & Hb & Hl). inversion Hb; subst. contradiction. }
        split.
        -- split.
           ++ intros H. exfalso.
              exact (listener_while_not_block _ rest w Hnb H).
           ++ intros H. inversion H; contradiction.
        -- cbn [listener_while]. unfold listener_body.
           rewrite (_parse_block_not_16 block Hlen). cbn. discriminate.
    + assert (Hnb : ~ is_block (Raise e0)).
      { intros (b & Hb & _). discriminate. }
      split.
      * split.
        -- intros H. exfalso. exact (listener_while_not_block _ rest w Hnb H).
        -- intros H. inversion H; contradiction.
      * intros e He. cbn [listener_while] in He.
        destruct e0; cbn in He; inversion He; subst;
          (split; [apply elem_of_cons; left; reflexivity|]);
          split; [reflexivity|discriminate].
Qed.

Lemma X18_listener_reads_while_blocks_witness :
  (listener_while [Return frame_0x42_active; Return frame_one_byte]
     world_raising_callback).1 = Suspended.
Proof.
  apply (X18_listener_reads_while_blocks
           [Return frame_0x42_active; Return frame_one_byte]
           world_raising_callback).
  - intros callback logic_id state e Hcb He.
    inversion Hcb; subst callback. inversion He. reflexivity.
  - repeat constructor; eexists; split; reflexivity.
Defined.

(** * Properties of the options flow *)

Lemma id_configured_elem (logic_id : Z) (logics : list Logic) :
  id_configured logic_id logics = true <-> logic_id ∈ l_logic_id <$> logics.
Proof.
  unfold id_configured. induction logics as [|l logics IH]; cbn.
  - split; [discriminate|]. intros H. inversion H.
  - rewrite orb_true_iff, IH, elem_of_cons, Z.eqb_eq. intuition.
Qed.

Lemma id_configured_false (logic_id : Z) (logics : list Logic) :
  id_configured logic_id logics = false <-> logic_id ∉ l_logic_id <$> logics.
Proof.
  rewrite <- id_configured_elem. destruct (id_configured logic_id logics);
    intuition congruence.
Qed.

Lemma elem_of_insert_inv {A} (l : list A) (i : nat) (x z : A) :
  z ∈ <[i := x]> l -> z = x \/ z ∈ l.
Proof.
  revert i. induction l as [|y l IH]; intros i Hz; [inversion Hz|].
  destruct i as [|i]; cbn in Hz; apply elem_of_cons in Hz as [->|Hz].
  - left. reflexivity.
  - right. apply elem_of_cons. right. exact Hz.
  - right. apply elem_of_cons. left. reflexivity.
  - destruct (IH i Hz) as [->|Hin]; [left; reflexivity|].
    right. apply elem_of_cons. right. exact Hin.
Qed.

Lemma NoDup_insert_fresh {A} (l : list A) (i : nat) (x : A) :
  NoDup l -> x ∉ l -> NoDup (<[i := x]> l).
Proof.
  revert i. induction l as [|y l IH]; intros i Hn Hx; [constructor|].
  apply NoDup_cons in Hn as [Hy Hn]. apply not_elem_of_cons in Hx as [Hxy Hx].
  destruct i as [|i]; cbn.
  - apply NoDup_cons. auto.
  - apply NoDup_cons. split; [|apply IH; assumption].
    intros Hin. apply elem_of_insert_inv in Hin as [->|Hin]; contradiction.
Qed.

Lemma NoDup_fmap_filter {A B} (f : A -> B) (P : A -> Prop)
    `{!forall x, Decision (P x)} (l : list A) :
  NoDup (f <$> l) -> NoDup (f <$> filter P l).
Proof.
  induction l as [|x l IH]; intros Hn; [constructor|].
  cbn [fmap list_fmap] in Hn. apply NoDup_cons in Hn as [Hx Hn].
  rewrite filter_cons. case_decide; [|apply IH, Hn].
  cbn [fmap list_fmap]. apply NoDup_cons. split; [|apply IH, Hn].
  intros Hin. apply Hx.
  apply list_elem_of_fmap in Hin as (y & -> & Hy).
  apply list_elem_of_filter in Hy as [_ Hy].
  apply list_elem_of_fmap. eauto.
Qed.

Lemma find_logic_spec (edit_id : Z) (logics : list Logic) :
  forall k,
    match find_logic edit_id k logics with
    | Some idx =>
        exists i current,
          idx = (k + i)%nat /\ logics !! i = Some current /\
          l_logic_id current = edit_id /\
          forall j other,
            (j < i)%nat -> logics !! j = Some other ->
            l_logic_id other <> edit_id
    | None => edit_id ∉ l_logic_id <$> logics
    end.
Proof.
  induction logics as [|l logics IH]; intros k; cbn [find_logic].
  - intros H. inversion H.
  - destruct (Z.eqb_spec (l_logic_id l) edit_id) as [E|E].
    + exists 0%nat, l. split; [lia|]. split; [reflexivity|].
      split; [exact E|]. intros j other Hj. lia.
    + specialize (IH (S k)). destruct (find_logic edit_id (S k) logics).
      * destruct IH as (i & current & -> & Hl & Hid & Hfirst).
        exists (S i), current. split; [lia|]. split; [exact Hl|].
        split; [exact Hid|]. intros [|j] other Hj Ho.
        -- inversion Ho; subst. exact E.
        -- apply (Hfirst j other); [lia|exact Ho].
      * cbn [fmap list_fmap]. apply not_elem_of_cons. auto.
Qed.

Lemma options_flow_step_unique (i : flow_input) (flow : DHDOptionsFlow) :
  NoDup (l_logic_id <$> _logics flow) ->
  NoDup (l_logic_id <$> _logics (options_flow_step i flow).2).
Proof.
  intros Hn. destruct i as [action|input|edit_id|input|remove_id|]; cbn.
  - destruct action as [action|]; [|exact Hn]. cbn.
    repeat (destruct (String.eqb action _)); exact Hn.
  - destruct input as [input|]; [|exact Hn]. cbn.
    destruct (id_configured (l_logic_id input) (_logics flow)) eqn:Hc;
      [exact Hn|].
    cbn. rewrite fmap_app. apply NoDup_app. split; [exact Hn|].
    split; [|apply NoDup_singleton].
    intros x Hx Hx'. apply list_elem_of_singleton in Hx' as ->.
    apply id_configured_false in Hc. contradiction.
  - destruct edit_id as [edit_id|]; [|exact Hn]. cbn.
    destruct (find_logic edit_id 0 (_logics flow)) as [idx|]; [|exact Hn].
    unfold async_step_edit_logic_detail. cbn.
    destruct (_logics flow !! idx); exact Hn.
  - unfold async_step_edit_logic_detail.
    destruct (_edit_index flow) as [idx|]; [|exact Hn].
    destruct (_logics flow !! idx) as [current|] eqn:Hcur; [|exact Hn].
    destruct input as [input|]; [|exact Hn].
    destruct (Z.eqb_spec (l_logic_id input) (l_logic_id current)) as [E|E];
      cbn [negb andb].
    + cbn. rewrite list_fmap_insert, E.
      rewrite list_insert_id; [exact Hn|].
      rewrite list_lookup_fmap, Hcur. reflexivity.
    + destruct (id_configured (l_logic_id input) (_logics flow)) eqn:Hc;
        [exact Hn|].
      cbn. rewrite list_fmap_insert. apply NoDup_insert_fresh; [exact Hn|].
      apply id_configured_false, Hc.
  - destruct remove_id as [remove_id|]; [|exact Hn]. cbn.
    apply NoDup_fmap_filter, Hn.
  - exact Hn.
Qed.

(** X19. The options flow keeps the logic identifiers distinct: if no two
    logics of the flow share an identifier, none do after any sequence of
    steps, whatever the inputs, and so none do in the options that the
    step [done] saves. *)
Theorem X19_options_flow_keeps_ids_distinct
    (inputs : list flow_input) (flow : DHDOptionsFlow) :
  NoDup (l_logic_id <$> _logics flow) ->
  NoDup (l_logic_id <$> _logics (options_flow_run inputs flow)) /\
  exists logics,
    (async_step_done (options_flow_run inputs flow)).1
      = FlowResult (CreateEntry_logics logics) /\
    NoDup (l_logic_id <$> logics).
Proof.
  intros Hn.
  assert (Hrun : NoDup (l_logic_id <$> _logics (options_flow_run inputs flow))).
  { unfold options_flow_run. revert flow Hn.
    induction inputs as [|i inputs IH]; intros flow Hn; [exact Hn|].
    cbn [fold_left]. apply IH, options_flow_step_unique, Hn. }
  split; [exact Hrun|]. eexists. split; [reflexivity|exact Hrun].
Qed.

Lemma X19_options_flow_keeps_ids_distinct_witness :
  NoDup
    (l_logic_id <$>
       _logics
         (options_flow_run
            [Input_add_logic (Some (mkLogic 7 "b" "sensor"));
             Input_add_logic (Some (mkLogic 5 "c" "switch"));
             Input_remove_logic (Some 5)]
            (DHDOptionsFlow_init
               (mkConfigEntry None (Some [mkLogic 5 "a" "switch"]))))).
Proof.
  apply (X19_options_flow_keeps_ids_distinct
           [Input_add_logic (Some (mkLogic 7 "b" "sensor"));
            Input_add_logic (Some (mkLogic 5 "c" "switch"));
            Input_remove_logic (Some 5)]
           (DHDOptionsFlow_init
              (mkConfigEntry None (Some [mkLogic 5 "a" "switch"])))).
  cbn. apply NoDup_singleton.
Defined.

(** X20. Adding a logic.  When a logic of the flow already has the
    identifier, the form comes back with the error
    [logic_already_configured] on the identifier and the flow is unchanged;
    otherwise the logic is appended, the others keeping their places, and
    the menu is shown again, counting one logic more and offering all four
    actions. *)
Theorem X20_add_logic (input : Logic) (flow : DHDOptionsFlow) :
  ((exists l, l ∈ _logics flow /\ l_logic_id l = l_logic_id input) ->
   async_step_add_logic (Some input) flow =
     (FlowResult
        (Form_add_logic [(CONF_LOGIC_ID, "logic_already_configured"%string)]),
      flow)) /\
  ((forall l, l ∈ _logics flow -> l_logic_id l <> l_logic_id input) ->
   async_step_add_logic (Some input) flow =
     (FlowResult
        (Form_init
           ["add_logic"%string; "edit_logic"%string; "remove_logic"%string;
            "done"%string]
           (S (length (_logics flow)))),
      mkOptionsFlow (_logics flow ++ [input]) (_edit_index flow))).
Proof.
  unfold async_step_add_logic. split.
  - intros (l & Hl & Hid).
    assert (Hc : id_configured (l_logic_id input) (_logics flow) = true).
    { apply id_configured_elem, list_elem_of_fmap. exists l. auto. }
    rewrite Hc. reflexivity.
  - intros Hfresh.
    assert (Hc : id_configured (l_logic_id input) (_logics flow) = false).
    { apply id_configured_false. intros Hin.
      apply list_elem_of_fmap in Hin as (l & Hid & Hl).
      apply (Hfresh l Hl). congruence. }
    rewrite Hc. unfold show_menu. cbn [_logics].
    rewrite length_app, Nat.add_comm. cbn [length Nat.add].
    destruct (_logics flow ++ [input]) eqn:E; [|reflexivity].
    apply app_eq_nil in E as [_ E]. discriminate.
Qed.

(** X21. Removing a logic.  The flow is left with the logics whose
    identifier is not the one given, in their order; none of them has that
    identifier, and an identifier that no logic has removes nothing.  With
    distinct identifiers, exactly one logic goes when the identifier is
    configured. *)
Theorem X21_remove_logic (remove_id : Z) (flow : DHDOptionsFlow) :
  exists r flow',
    async_step_remove_logic (Some remove_id) flow = (FlowResult r, flow') /\
    _logics flow' `sublist_of` _logics flow /\
    (forall l,
       l ∈ _logics flow' <-> l ∈ _logics flow /\ l_logic_id l <> remove_id) /\
    (remove_id ∉ l_logic_id <$> _logics flow -> _logics flow' = _logics flow) /\
    (NoDup (l_logic_id <$> _logics flow) ->
     remove_id ∈ l_logic_id <$> _logics flow ->
     S (length (_logics flow')) = length (_logics flow)) /\
    _edit_index flow' = _edit_index flow.
Proof.
  eexists _, _. split; [reflexivity|]. cbn [_logics _edit_index].
  split; [apply sublist_filter|]. split; [|split; [|split; [|reflexivity]]].
  - intros l. rewrite list_elem_of_filter. tauto.
  - induction (_logics flow) as [|l logics IH]; intros Hnin; [reflexivity|].
    cbn [fmap list_fmap] in Hnin. apply not_elem_of_cons in Hnin as [Hne Hnin].
    rewrite filter_cons, decide_True by congruence. rewrite IH by exact Hnin.
    reflexivity.
  - induction (_logics flow) as [|l logics IH]; intros Hn Hin;
      [inversion Hin|].
    cbn [fmap list_fmap] in Hn, Hin. apply NoDup_cons in Hn as [Hl Hn].
    rewrite filter_cons. case_decide as Hid.
    + cbn [length]. f_equal. apply IH; [exact Hn|].
      apply elem_of_cons in Hin as [E|Hin]; [congruence|exact Hin].
    + assert (E : l_logic_id l = remove_id)
        by (destruct (decide (l_logic_id l = remove_id)); tauto).
      cbn [length]. f_equal. f_equal.
      clear IH Hin Hid. subst remove_id.
      induction logics as [|l' logics IH]; [reflexivity|].
      cbn [fmap list_fmap] in Hl, Hn.
      apply not_elem_of_cons in Hl as [Hne Hl].
      apply NoDup_cons in Hn as [_ Hn].
      rewrite filter_cons, decide_True by congruence.
      rewrite IH by assumption. reflexivity.
Qed.

(** X22. Editing a logic.  Choosing an identifier that is configured
    selects the first logic that has it and shows its values; choosing one
    that is not goes back to the menu.  The detail step then puts the
    input in the place of the selected logic, the others and the length of
    the list staying, when the input keeps the identifier or brings one
    that no logic has; it refuses, with the error
    [logic_already_configured], an identifier that another logic has. *)
Theorem X22_edit_logic (edit_id : Z) (input : Logic) (flow : DHDOptionsFlow) :
  (edit_id ∉ l_logic_id <$> _logics flow ->
   async_step_edit_logic (Some edit_id) flow = show_menu flow) /\
  (edit_id ∈ l_logic_id <$> _logics flow ->
   exists idx current,
     async_step_edit_logic (Some edit_id) flow =
       (FlowResult (Form_edit_logic_detail current []),
        mkOptionsFlow (_logics flow) (Some idx)) /\
     _logics flow !! idx = Some current /\
     l_logic_id current = edit_id /\
     (forall j other,
        (j < idx)%nat -> _logics flow !! j = Some other ->
        l_logic_id other <> edit_id) /\
     (l_logic_id input = edit_id \/
      l_logic_id input ∉ l_logic_id <$> _logics flow ->
      async_step_edit_logic_detail (Some input)
        (mkOptionsFlow (_logics flow) (Some idx)) =
        show_menu (mkOptionsFlow (<[idx := input]> (_logics flow)) None) /\
      <[idx := input]> (_logics flow) !! idx = Some input /\
      length (<[idx := input]> (_logics flow)) = length (_logics flow) /\
      forall j, j <> idx ->
        <[idx := input]> (_logics flow) !! j = _logics flow !! j) /\
     (l_logic_id input <> edit_id ->
      l_logic_id input ∈ l_logic_id <$> _logics flow ->
      async_step_edit_logic_detail (Some input)
        (mkOptionsFlow (_logics flow) (Some idx)) =
        (FlowResult
           (Form_edit_logic_detail current
              [(CONF_LOGIC_ID, "logic_already_configured"%string)]),
         mkOptionsFlow (_logics flow) (Some idx)))).
Proof.
  pose proof (find_logic_spec edit_id (_logics flow) 0) as Hfind.
  unfold async_step_edit_logic.
  destruct (find_logic edit_id 0 (_logics flow)) as [idx|].
  - destruct Hfind as (i & current & -> & Hcur & Hid & Hfirst). cbn [Nat.add].
    split.
    + intros Hnin. exfalso. apply Hnin, list_elem_of_fmap.
      exists current. split; [auto|]. apply list_elem_of_lookup. eauto.
    + intros _. exists i, current.
      unfold async_step_edit_logic_detail. cbn [_edit_index _logics].
      rewrite Hcur. split; [reflexivity|]. split; [reflexivity|].
      split; [exact Hid|]. split; [exact Hfirst|]. split.
      * intros Hok.
        assert (Hcond :
          negb (l_logic_id input =? l_logic_id current)
          && id_configured (l_logic_id input) (_logics flow) = false).
        { destruct Hok as [E|Hnin].
          - rewrite Hid, <- E, Z.eqb_refl. reflexivity.
          - apply id_configured_false in Hnin. rewrite Hnin.
            apply andb_false_r. }
        rewrite Hcond. split; [reflexivity|].
        split; [apply list_lookup_insert_eq; eapply lookup_lt_Some, Hcur|].
        split; [apply length_insert|].
        intros j Hj. apply list_lookup_insert_ne. congruence.
      * intros Hne Hin.
        assert (Hcond :
          negb (l_logic_id input =? l_logic_id current)
          && id_configured (l_logic_id input) (_logics flow) = true).
        { apply id_configured_elem in Hin. rewrite Hin, Hid.
          destruct (Z.eqb_spec (l_logic_id input) edit_id);
            [contradiction|reflexivity]. }
        rewrite Hcond. reflexivity.
  - split; [reflexivity|]. intros Hin. contradiction.
Qed.

(** * Properties of the first step of the config flow *)

(** X23. The first step of the config flow probes the device with a
    client of its own and leaves no connection behind.  Without input it
    shows the form; when an entry for the host exists it aborts before any
    connection.  Otherwise an entry is created only when the attempt gave
    streams: it holds the one logic of the form, and by then, whatever the
    other tasks did while [disconnect] waited for the writer to close, the
    client is not connected and has neither writer nor reader.  When what
    happens during that wait is that the listener task, which [disconnect]
    asked to cancel, is resumed by the cancellation and ends, the step
    returns with that task done, the client without listener task and
    without request in flight, the futures untouched and two records in the
    log.  When the attempt fails with an [OSError] or a [TimeoutError], the
    form comes back with the error [cannot_connect], no task was started
    and the client is not connected. *)
Theorem X23_config_flow_probe
    (input : UserInput) (opened : result (StreamReader * StreamWriter))
    (closed : option exn) (meanwhile : World -> World) (w : World) :
  (forall entry_exists,
     async_step_user None entry_exists opened closed meanwhile w
       = (UserForm [], w)) /\
  async_step_user (Some input) true opened closed meanwhile w = (UserAbort, w) /\
  (forall title host port logics w',
     async_step_user (Some input) false opened closed meanwhile w
       = (UserCreateEntry title host port logics, w') ->
     (exists r wr, opened = Return (r, wr)) /\
     logics = [ui_logic input] /\ host = ui_host input /\
     port = ui_port input /\
     connected (client w') = false /\
     _writer (client w') = None /\
     _reader (client w') = None) /\
  (forall title host port logics w',
     async_step_user (Some input) false opened closed
       (fun w1 =>
          (_listener_loop (length (tasks w)) [Raise CancelledError] w1).2) w
       = (UserCreateEntry title host port logics, w') ->
     tasks w' = tasks w ++ [TaskDone] /\
     _listener_task (client w') = None /\
     _pending (client w') = [] /\
     futures w' = futures w /\
     log w' = log w ++ [Debug_connected; Debug_disconnected]) /\
  (forall e,
     opened = Raise e -> is_OSError_or_TimeoutError e = true ->
     exists w',
       async_step_user (Some input) false opened closed meanwhile w
         = (UserForm [("base"%string, "cannot_connect"%string)], w') /\
       connected (client w') = false /\
       tasks w' = tasks w).
Proof.
  split; [reflexivity|]. split; [reflexivity|]. split; [|split].
  - intros title host port logics w' Hstep.
    unfold async_step_user, test_connection, _ensure_connected, connect,
      connected in Hstep.
    cbn [with_client client DHDClient_init _writer negb] in Hstep.
    destruct opened as [[r wr]|e].
    + split; [eauto|].
      unfold _start_listener, disconnect_awaiting, _stop_listener, cancel_task
        in Hstep.
      cbn in Hstep.
      rewrite list_lookup_middle in Hstep by reflexivity.
      rewrite insert_app_r_alt in Hstep by lia.
      rewrite Nat.sub_diag in Hstep. cbn in Hstep.
      destruct closed as [e|];
        [destruct (is_OSError_or_TimeoutError e)|];
        inversion Hstep; subst; repeat split.
    + destruct (is_OSError_or_TimeoutError e); cbn in Hstep.
      * discriminate.
      * destruct (is_DHDConnectionError e || is_OSError_or_TimeoutError e);
          discriminate.
  - intros title host port logics w' Hstep.
    unfold async_step_user, test_connection, _ensure_connected, connect,
      connected in Hstep.
    cbn [with_client client DHDClient_init _writer negb] in Hstep.
    destruct opened as [[r wr]|e].
    + unfold _start_listener, disconnect_awaiting, _stop_listener, cancel_task
        in Hstep.
      cbn in Hstep.
      rewrite list_lookup_middle in Hstep by reflexivity.
      rewrite insert_app_r_alt in Hstep by lia.
      rewrite Nat.sub_diag in Hstep. cbn in Hstep.
      unfold finish_task, with_tasks in Hstep. cbn in Hstep.
      rewrite insert_app_r_alt in Hstep by lia.
      rewrite Nat.sub_diag in Hstep. cbn in Hstep.
      destruct closed as [e|];
        [destruct (is_OSError_or_TimeoutError e)|];
        inversion Hstep; subst; repeat split;
        cbn; rewrite <- app_assoc; reflexivity.
    + destruct (is_OSError_or_TimeoutError e); cbn in Hstep.
      * discriminate.
      * destruct (is_DHDConnectionError e || is_OSError_or_TimeoutError e);
          discriminate.
  - intros e -> He.
    unfold async_step_user, test_connection, _ensure_connected, connect,
      connected.
    cbn [with_client client DHDClient_init _writer negb]. rewrite He. cbn.
    eexists. split; [reflexivity|]. split; reflexivity.
Qed.

Lemma X23_config_flow_probe_witness :
  exists w',
    async_step_user
      (Some (mkUserInput "10.0.0.5" 2008 (mkLogic 0x42 "mic" "switch")))
      false (Return (mkReader 0, mkWriter false [])) None
      (fun w1 => (_listener_loop 0 [Raise CancelledError] w1).2) world_init
    = (UserCreateEntry "HA DHD Audio (10.0.0.5)" "10.0.0.5" 2008
         [mkLogic 0x42 "mic" "switch"], w') /\
    connected (client w') = false /\
    tasks w' = [TaskDone].
Proof.
  eexists. split; [vm_compute; reflexivity|].
  destruct (X23_config_flow_probe
              (mkUserInput "10.0.0.5" 2008 (mkLogic 0x42 "mic" "switch"))
              (Return (mkReader 0, mkWriter false [])) None
              (fun w1 => (_listener_loop 0 [Raise CancelledError] w1).2)
              world_init)
    as (_ & _ & Hcreated & Hcancelled & _).
  match goal with
  | |- connected (client ?w') = _ /\ _ =>
      destruct (Hcreated "HA DHD Audio (10.0.0.5)"%string "10.0.0.5"%string
                  2008 [mkLogic 0x42 "mic" "switch"] w')
        as (_ & _ & _ & _ & Hconn & _);
        [vm_compute; reflexivity|];
      destruct (Hcancelled "HA DHD Audio (10.0.0.5)"%string "10.0.0.5"%string
                  2008 [mkLogic 0x42 "mic" "switch"] w')
        as (Htasks & _);
        [vm_compute; reflexivity|]
  end.
  split; [exact Hconn|exact Htasks].
Defined.

(** * Properties of the coordinator *)

Lemma _handle_logic_push_tracked (logic_id : Z) (state : bool)
    (c : DHDCoordinator) :
  logic_id ∈ _get_logic_ids c ->
  let d := match c_data c with Some d => d | None => ∅ end in
  _handle_logic_push logic_id state c =
    mkCoordinator (c_config_entry c) (Some (<[logic_id := state]> d))
      (c_updated c ++
         if bool_decide (d !! logic_id = Some state) then []
         else [<[logic_id := state]> d]).
Proof.
  intros Hin. cbn zeta. unfold _handle_logic_push.
  rewrite (bool_decide_eq_true_2 _ Hin). cbn [negb].
  case_bool_decide as Hsame.
  - rewrite app_nil_r, insert_id by exact Hsame. reflexivity.
  - reflexivity.
Qed.

(** X24. A push for a logic that is not configured leaves the coordinator
    as it is.  A push for a configured logic leaves data in which the logic
    has the pushed state and every other logic what it had; the listeners
    are notified, once, only when that changes the stored state, so that
    pushing the same state again changes nothing and notifies nobody. *)
Theorem X24_handle_logic_push (logic_id : Z) (state : bool) (c : DHDCoordinator) :
  (logic_id ∉ _get_logic_ids c -> _handle_logic_push logic_id state c = c) /\
  (logic_id ∈ _get_logic_ids c ->
   let d := match c_data c with Some d => d | None => ∅ end in
   let c' := _handle_logic_push logic_id state c in
   exists d',
     c_data c' = Some d' /\
     d' !! logic_id = Some state /\
     (forall other, other <> logic_id -> d' !! other = d !! other) /\
     (d !! logic_id = Some state -> c_updated c' = c_updated c) /\
     (d !! logic_id <> Some state -> c_updated c' = c_updated c ++ [d']) /\
     c_config_entry c' = c_config_entry c /\
     _handle_logic_push logic_id state c' = c').
Proof.
  split.
  - intros Hnin. unfold _handle_logic_push.
    rewrite (bool_decide_eq_false_2 _ Hnin). reflexivity.
  - intros Hin. cbn zeta.
    rewrite (_handle_logic_push_tracked logic_id state c Hin). cbn zeta.
    eexists. split; [reflexivity|].
    split; [apply lookup_insert_eq|].
    split; [intros other Hne; apply lookup_insert_ne; congruence|].
    split; [|split; [|split; [reflexivity|]]].
    + intros Hsame. rewrite (bool_decide_eq_true_2 _ Hsame).
      apply app_nil_r.
    + intros Hdiff. rewrite (bool_decide_eq_false_2 _ Hdiff). reflexivity.
    + unfold _handle_logic_push at 1. unfold _get_logic_ids in Hin |- *.
      cbn [c_config_entry c_data c_updated].
      rewrite (bool_decide_eq_true_2 _ Hin). cbn [negb].
      rewrite (bool_decide_eq_true_2 (_ !! logic_id = Some state))
        by apply lookup_insert_eq.
      reflexivity.
Qed.

Lemma handle_pushes_snoc (cs : list (Z * bool)) (call : Z * bool)
    (c : DHDCoordinator) :
  handle_pushes (cs ++ [call]) c =
    _handle_logic_push call.1 call.2 (handle_pushes cs c).
Proof. unfold handle_pushes. rewrite fold_left_app. reflexivity. Qed.

Lemma handle_pushes_config (cs : list (Z * bool)) (c : DHDCoordinator) :
  c_config_entry (handle_pushes cs c) = c_config_entry c.
Proof.
  induction cs as [|call cs IH] using rev_ind; [reflexivity|].
  rewrite handle_pushes_snoc, <- IH.
  unfold _handle_logic_push.
  destruct (negb _); [reflexivity|]. destruct (bool_decide _); reflexivity.
Qed.

Lemma available_is_on (super_available : bool) (cl : DHDClient)
    (c : DHDCoordinator) (e : DHDEntity) :
  available super_available cl c e =
    super_available && connected cl && bool_decide (is_Some (is_on c e)).
Proof.
  unfold available, is_on. destruct (c_data c); [reflexivity|].
  rewrite lookup_empty. reflexivity.
Qed.

(** X25. An entity shows the last state pushed for its logic.  After the
    coordinator has handled a sequence of calls of the callback, [is_on]
    of an entity whose logic is configured is the state of the last call
    for that logic, and what it was before when there was none.  Once
    there was such a call, the entity is available exactly when the base
    class says so and the client is connected. *)
Theorem X25_is_on_follows_pushes
    (cs : list (Z * bool)) (c : DHDCoordinator) (e : DHDEntity) :
  _logic_id e ∈ _get_logic_ids c ->
  is_on (handle_pushes cs c) e =
    match last (filter (fun call => call.1 = _logic_id e) cs) with
    | Some call => Some call.2
    | None => is_on c e
    end /\
  (forall state super_available cl,
     (_logic_id e, state) ∈ cs ->
     available super_available cl (handle_pushes cs c) e
       = super_available && connected cl).
Proof.
  intros Htracked.
  assert (Hlast :
    is_on (handle_pushes cs c) e =
      match last (filter (fun call => call.1 = _logic_id e) cs) with
      | Some call => Some call.2
      | None => is_on c e
      end).
  { induction cs as [|[id st] cs IH] using rev_ind; [reflexivity|].
    rewrite handle_pushes_snoc, filter_app, filter_cons, filter_nil.
    cbn [fst snd].
    assert (Hids : _get_logic_ids (handle_pushes cs c) = _get_logic_ids c)
      by (unfold _get_logic_ids; rewrite handle_pushes_config; reflexivity).
    destruct (decide (id = _logic_id e)) as [->|Hne].
    - rewrite last_snoc. cbn [snd].
      rewrite _handle_logic_push_tracked by (rewrite Hids; exact Htracked).
      unfold is_on. cbn. apply lookup_insert_eq.
    - rewrite app_nil_r, <- IH.
      destruct (decide (id ∈ _get_logic_ids (handle_pushes cs c))) as [Hin|Hnin].
      + rewrite _handle_logic_push_tracked by exact Hin.
        unfold is_on. cbn. rewrite lookup_insert_ne by exact Hne.
        destruct (c_data (handle_pushes cs c)); [reflexivity|].
        apply lookup_empty.
      + unfold _handle_logic_push.
        rewrite (bool_decide_eq_false_2 _ Hnin). reflexivity. }
  split; [exact Hlast|].
  intros state super_available cl Hin.
  rewrite available_is_on, Hlast.
  destruct (last (filter (fun call => call.1 = _logic_id e) cs)) as [call|] eqn:El.
  - rewrite bool_decide_eq_true_2 by eauto. apply andb_true_r.
  - exfalso. apply last_None in El.
    assert (Hf : (_logic_id e, state) ∈ filter (fun call => call.1 = _logic_id e) cs)
      by (apply list_elem_of_filter; auto).
    rewrite El in Hf. inversion Hf.
Qed.

Lemma X25_is_on_follows_pushes_witness :
  is_on
    (handle_pushes [(0x42, true); (7, true); (0x42, false)]
       (mkCoordinator
          (mkConfigEntry None (Some [mkLogic 0x42 "mic" "switch"])) None []))
    (mkEntity 0x42 "mic")
  = Some false.
Proof.
  destruct (X25_is_on_follows_pushes
              [(0x42, true); (7, true); (0x42, false)]
              (mkCoordinator
                 (mkConfigEntry None (Some [mkLogic 0x42 "mic" "switch"]))
                 None [])
              (mkEntity 0x42 "mic")) as [Hlast _].
  - cbn. apply list_elem_of_singleton. reflexivity.
  - rewrite Hlast. reflexivity.
Defined.

(** * Properties of the setup of the entry *)

(** X26. The connection part of [async_setup_entry] never raises
    [ConfigEntryNotReady].  [connect] turns the [OSError] or
    [TimeoutError] of a failed attempt into the connection error of the
    client, which the clause [except (OSError, TimeoutError)] does not
    catch: the setup then ends with that connection error, and with any
    other exception of the attempt as it is. *)
Theorem X26_setup_never_not_ready
    (opened : result (StreamReader * StreamWriter)) (w : World) :
  (async_setup_entry_connect opened w).1 <> ConfigEntryNotReady /\
  (forall e,
     opened = Raise e -> is_OSError_or_TimeoutError e = true ->
     (async_setup_entry_connect opened w).1
       = SetupRaises DHDConnectionError_failed_to_connect) /\
  (forall e,
     opened = Raise e -> is_OSError_or_TimeoutError e = false ->
     (async_setup_entry_connect opened w).1 = SetupRaises e) /\
  (forall r wr,
     opened = Return (r, wr) ->
     (async_setup_entry_connect opened w).1 = SetupGoesOn).
Proof.
  unfold async_setup_entry_connect, connect, connected. cbn.
  destruct opened as [[r wr]|e].
  - cbn. split; [discriminate|].
    split; [discriminate|]. split; [discriminate|reflexivity].
  - destruct (is_OSError_or_TimeoutError e) eqn:He; cbn.
    + split; [discriminate|]. split; [reflexivity|].
      split; [|discriminate]. intros e' E. inversion E; subst. congruence.
    + rewrite He. cbn. split; [discriminate|].
      split; [|split; [|discriminate]].
      * intros e' E. inversion E; subst. congruence.
      * intros e' E _. inversion E; subst. reflexivity.
Qed.

(** * Properties of the polling *)

Lemma poll_logics_keys (env : update_env) (logic_ids : list Z) :
  forall i states (w : World) states' w',
    poll_logics env logic_ids i states w = (Return states', w') ->
    forall logic_id,
      is_Some (states' !! logic_id) <->
        logic_id ∈ logic_ids \/ is_Some (states !! logic_id).
Proof.
  induction logic_ids as [|id0 rest IH]; intros i states w states' w' Hpoll id.
  - cbn in Hpoll. inversion Hpoll; subst. split; [auto|].
    intros [H|H]; [inversion H|exact H].
  - cbn [poll_logics] in Hpoll.
    destruct (get_logic_state id0 _ _ _ w) as [[state|e] w1]; [|discriminate].
    rewrite (IH _ _ _ _ _ Hpoll id), elem_of_cons.
    destruct (decide (id = id0)) as [->|Hne].
    + rewrite lookup_insert_eq. split; [auto|]. intros _. right. eauto.
    + rewrite lookup_insert_ne by congruence. tauto.
Qed.

(** X27. An update that succeeds returns a state for each configured
    logic and for nothing else.  With no logic configured it returns the
    empty dictionary without touching the client, connected or not. *)
Theorem X27_update_covers_configured_logics
    (env : update_env) (c : DHDCoordinator) (w w' : World)
    (states : gmap Z bool) :
  _async_update_data env c w = (Updated states, w') ->
  (forall logic_id,
     is_Some (states !! logic_id) <-> logic_id ∈ _get_logic_ids c) /\
  (_get_logic_ids c = [] -> states = ∅ /\ w' = w).
Proof.
  unfold _async_update_data. intros Hupd. split.
  - destruct (_get_logic_ids c) as [|id0 rest] eqn:Hids.
    + inversion Hupd; subst. intros id. rewrite lookup_empty. split.
      * intros [x Hx]. discriminate.
      * intros H. inversion H.
    + destruct (if negb (connected (client w)) then _ else _) as [[e|] w1];
        [destruct (_ || _); discriminate|].
      destruct (poll_logics env (id0 :: rest) 0 ∅ w1) as [[st|e] w2] eqn:Hpoll.
      * inversion Hupd; subst. intros id.
        rewrite (poll_logics_keys _ _ _ _ _ _ _ Hpoll id), lookup_empty.
        split; [intros [H|[x Hx]]; [exact H|discriminate]|auto].
      * destruct (is_DHDConnectionError e);
          [destruct (disconnect _ w2) as [[u|e'] w3]; discriminate|].
        destruct (is_DHDProtocolError e); discriminate.
  - intros Hids. rewrite Hids in Hupd. inversion Hupd. auto.
Qed.

Lemma X27_update_covers_configured_logics_witness :
  is_Some (({[ 0x42 := true ]} : gmap Z bool) !! 0x42) <-> 0x42 ∈ [0x42].
Proof.
  assert (Hupd :
    exists w',
      _async_update_data
        (mkUpdateEnv None (Raise OSError) (fun _ => Raise OSError)
           (fun _ => None)
           (fun _ w1 => (listener_body (Return frame_0x42_active) w1).2) None)
        (mkCoordinator (mkConfigEntry None (Some [mkLogic 0x42 "mic" "switch"]))
           None [])
        world_idle
      = (Updated {[ 0x42 := true ]}, w')).
  { eexists. vm_compute. reflexivity. }
  destruct Hupd as (w' & Hupd).
  exact (proj1 (X27_update_covers_configured_logics _ _ _ _ _ Hupd) 0x42).
Defined.





(** [send_command] when nothing happens while the caller waits. *)
Lemma send_command_times_out
    (command_id : Z) (data : bytes) (logic_id : option Z)
    (opened : result (StreamReader * StreamWriter))
    (meanwhile : World -> World)
    (w : World) (wr : StreamWriter) (block : bytes) :
  _writer (client w) = Some wr -> is_closing wr = false -> pending_wf w ->
  _build_block command_id data = Return block ->
  (forall w1, meanwhile w1 = w1) ->
  send_command command_id data logic_id opened None meanwhile w
  = (Raise (DHDProtocolError_timeout command_id),
     mkWorld
       (mkClient (_reader (client w))
          (Some (mkWriter false (written wr ++ [block])))
          (_listener_task (client w)) (_pending (client w))
          (_pending_id (client w) + 1) (_logic_callback (client w)))
       (futures w ++ [mkFuture (command_id, logic_id) FCancelled])
       (tasks w)
       (log w ++ [Debug_tx command_id data])
       (calls w)).
Proof.
  intros Hwr Hopen Hwf Hbuild Hidle. unfold send_command.
  rewrite (send_command_begin_connected command_id data logic_id opened None
             w wr Hwr Hopen Hwf). cbn zeta. rewrite Hbuild, Hidle.
  unfold send_command_finish, wait_for. cbn [futures].
  rewrite list_lookup_middle by reflexivity. cbn [fstate].
  unfold with_client, with_futures, set_pending. cbn.
  match goal with
  | |- context [filter ?P (_pending (client w) ++ ?l)] =>
      change (filter P (_pending (client w) ++ l))
        with (dict_pop (_pending_id (client w) + 1) (_pending (client w) ++ l))
  end.
  rewrite (dict_pop_snoc_fresh _ _ _ (pending_wf_fresh w Hwf)).
  rewrite insert_app_r_alt by lia. rewrite Nat.sub_diag. reflexivity.
Qed.

(** X29. A timeout does not make the coordinator reconnect.  On a
    connected client, when nothing is read while the first query waits, the
    update raises [UpdateFailed] for the timeout of that query and leaves
    the client connected, with the same listener task, the same tasks in
    the event loop and the same dictionary of requests: the conditions
    under which the next update starts are those of this one. *)
Theorem X29_timeout_keeps_connection
    (env : update_env) (c : DHDCoordinator) (w : World) (wr : StreamWriter)
    (logic_id : Z) (rest : list Z) :
  _get_logic_ids c = logic_id :: rest ->
  0 <= logic_id < 2 ^ 16 ->
  _writer (client w) = Some wr -> is_closing wr = false -> pending_wf w ->
  query_drained env 0%nat = None ->
  (forall w1, query_meanwhile env 0%nat w1 = w1) ->
  exists w' wr',
    _async_update_data env c w
      = (UpdateFailed_protocol_error (DHDProtocolError_timeout ECP_CMD_SET_LOGIC),
         w') /\
    _writer (client w') = Some wr' /\ is_closing wr' = false /\
    connected (client w') = true /\
    pending_wf w' /\
    _pending (client w') = _pending (client w) /\
    _listener_task (client w') = _listener_task (client w) /\
    tasks w' = tasks w.
Proof.
  intros Hids Hid Hwr Hopen Hwf Hdrain Hidle.
  unfold _async_update_data. rewrite Hids.
  assert (Hconn : connected (client w) = true)
    by (unfold connected; rewrite Hwr, Hopen; reflexivity).
  rewrite Hconn. cbn [negb poll_logics].
  unfold get_logic_state. rewrite (int_to_bytes_big_2 logic_id Hid), Hdrain.
  assert (Hquery :
    _build_block ECP_CMD_SET_LOGIC
      [byte_of_Z (logic_id / 2 ^ 8); byte_of_Z logic_id] =
      Return [x02; x00; x11; x0e; x00; x00; byte_of_Z (logic_id / 2 ^ 8);
              byte_of_Z logic_id; x00; x00; x00; x00; x00; x00; x00; x00])
    by reflexivity.
  rewrite (send_command_times_out ECP_CMD_SET_LOGIC _ (Some logic_id) _ _ w wr
             _ Hwr Hopen Hwf Hquery Hidle).
  cbn [is_DHDConnectionError is_DHDProtocolError].
  eexists _, _. split; [reflexivity|]. cbn.
  split; [reflexivity|]. split; [reflexivity|]. split; [reflexivity|].
  split; [|repeat split].
  destruct Hwf as (Hs & Hle & Hlt & Hn). unfold pending_wf. cbn.
  split; [exact Hs|]. split; [|split; [|exact Hn]].
  - eapply Forall_impl; [exact Hle|]. cbn. intros; lia.
  - rewrite length_app. eapply Forall_impl; [exact Hlt|]. cbn. intros; lia.
Qed.

Lemma X29_timeout_keeps_connection_witness :
  exists w',
    _async_update_data
      (mkUpdateEnv None (Raise OSError) (fun _ => Raise OSError)
         (fun _ => None) (fun _ w1 => w1) None)
      (mkCoordinator (mkConfigEntry None (Some [mkLogic 0x42 "mic" "switch"]))
         None [])
      world_idle
    = (UpdateFailed_protocol_error (DHDProtocolError_timeout ECP_CMD_SET_LOGIC),
       w') /\
    connected (client w') = true.
Proof.
  destruct (X29_timeout_keeps_connection
              (mkUpdateEnv None (Raise OSError) (fun _ => Raise OSError)
                 (fun _ => None) (fun _ w1 => w1) None)
              (mkCoordinator
                 (mkConfigEntry None (Some [mkLogic 0x42 "mic" "switch"]))
                 None [])
              world_idle (mkWriter false []) 0x42 [])
    as (w' & wr' & Hupd & _ & _ & Hconn & _).
  - reflexivity.
  - lia.
  - reflexivity.
  - reflexivity.
  - apply pending_wf_empty. reflexivity.
  - reflexivity.
  - reflexivity.
  - exists w'. split; [exact Hupd|exact Hconn].
Defined.

(** * Properties of the switch and of the config flow *)

(** X30. Turning a switch on or off, end to end.  On a connected client,
    with data in the coordinator, when a fitting frame of the logic command
    is read while the call waits, [async_turn_on] returns: the block it
    sent carries the identifier of the switch and the state byte 0x01, the
    logic of the switch is on in the data, so that [is_on] answers true,
    the other logics keep their states and the listeners of the coordinator
    are not notified.  [async_turn_off] does the same with 0x00 and false.
    With no data in the coordinator the command goes out all the same and
    the call ends in a [TypeError]. *)
Theorem X30_switch_turn_on_off
    (e : DHDEntity) (opened : result (StreamReader * StreamWriter))
    (c : DHDCoordinator) (w : World) (wr : StreamWriter)
    (raw : bytes) (len : nat) (reply : bytes) :
  0 <= _logic_id e < 2 ^ 16 ->
  _writer (client w) = Some wr -> is_closing wr = false -> pending_wf w ->
  _parse_block raw = Return (len, ECP_CMD_SET_LOGIC, reply) ->
  (length reply < 2)%nat \/ int_from_bytes_big (take 2 reply) = _logic_id e ->
  unsolicited ECP_CMD_SET_LOGIC reply (_pending (client w)) (futures w) ->
  let hi := byte_of_Z (_logic_id e / 2 ^ 8) in
  let lo := byte_of_Z (_logic_id e) in
  let sent sb :=
    Some (mkWriter false
            (written wr ++
               [[x03; x00; x11; x0e; x00; x00; hi; lo; sb; x00; x00; x00; x00;
                 x00; x00; x00]])) in
  let listening := fun w1 => (listener_body (Return raw) w1).2 in
  (forall d, c_data c = Some d ->
     exists c' w',
       async_turn_on e opened None listening c w = (Turned, c', w') /\
       _writer (client w') = sent x01 /\
       is_on c' e = Some true /\
       (forall other,
          _logic_id other <> _logic_id e -> is_on c' other = is_on c other) /\
       c_updated c' = c_updated c) /\
  (forall d, c_data c = Some d ->
     exists c' w',
       async_turn_off e opened None listening c w = (Turned, c', w') /\
       _writer (client w') = sent x00 /\
       is_on c' e = Some false /\
       (forall other,
          _logic_id other <> _logic_id e -> is_on c' other = is_on c other) /\
       c_updated c' = c_updated c) /\
  (c_data c = None ->
     exists w',
       async_turn_on e opened None listening c w = (TurnTypeError, c, w') /\
       _writer (client w') = sent x01).
Proof.
  intros Hid Hwr Hopen Hwf Hparse Hkey Hun hi lo sent listening.
  pose proof (set_logic_state_answered (_logic_id e) true opened w wr raw len
                reply Hid Hwr Hopen Hwf Hparse Hkey Hun) as Hon.
  pose proof (set_logic_state_answered (_logic_id e) false opened w wr raw len
                reply Hid Hwr Hopen Hwf Hparse Hkey Hun) as Hoff.
  cbn zeta in Hon, Hoff. unfold async_turn_on, async_turn_off, is_on, listening.
  rewrite Hon, Hoff. split; [|split].
  - intros d Hd. rewrite Hd. eexists _, _. split; [reflexivity|]. cbn.
    split; [reflexivity|]. split; [apply lookup_insert_eq|].
    split; [|reflexivity].
    intros other Hne. apply lookup_insert_ne. congruence.
  - intros d Hd. rewrite Hd. eexists _, _. split; [reflexivity|]. cbn.
    split; [reflexivity|]. split; [apply lookup_insert_eq|].
    split; [|reflexivity].
    intros other Hne. apply lookup_insert_ne. congruence.
  - intros Hd. rewrite Hd. eexists. split; reflexivity.
Qed.

Lemma X30_switch_turn_on_off_witness :
  exists c' w',
    async_turn_on (mkEntity 0x42 "mic") (Raise OSError) None
      (fun w1 => (listener_body (Return frame_0x42_active) w1).2)
      (mkCoordinator (mkConfigEntry None (Some [mkLogic 0x42 "mic" "switch"]))
         (Some ∅) [])
      world_idle
    = (Turned, c', w') /\
    is_on c' (mkEntity 0x42 "mic") = Some true /\
    _writer (client w') = Some (mkWriter false [frame_0x42_active]).
Proof.
  destruct (X30_switch_turn_on_off (mkEntity 0x42 "mic") (Raise OSError)
              (mkCoordinator
                 (mkConfigEntry None (Some [mkLogic 0x42 "mic" "switch"]))
                 (Some ∅) [])
              world_idle (mkWriter false []) frame_0x42_active 3
              [x00; x42; x01])
    as (Hon & _).
  - cbn. lia.
  - reflexivity.
  - reflexivity.
  - apply pending_wf_empty. reflexivity.
  - reflexivity.
  - right. reflexivity.
  - intros pid a fut Hin. inversion Hin.
  - destruct (Hon ∅ eq_refl) as (c' & w' & Hturn & Hsent & Hison & _).
    exists c', w'. split; [exact Hturn|]. split; [exact Hison|exact Hsent].
Defined.
